(** * The TCP/TLS transport of the agent: server_transport_tcp.c

    A shallow embedding of the functions of
    [source/server/win/server_transport_tcp.c] and the properties the
    specification states about them.  Machine integers are [Z] with the
    wrap-around written out, buffers are lists of bytes, the operating
    system and the TLS library are scripts of call results, and every
    function returns what it leaves behind (status, buffers, the calls it
    made). *)

From Stdlib Require Import ZArith Lia String Ascii.
From stdpp Require Import base numbers option list gmap.

Open Scope Z_scope.

(** ** Machine integers *)

Module Word.

(** [DWORD], [ULONG]: 32 bits, unsigned. *)
Definition DWORD (z : Z) : Z := z mod 2 ^ 32.

(** [int], [LONG]: 32 bits, two's complement. *)
Definition INT (z : Z) : Z :=
  let w := z mod 2 ^ 32 in if w <? 2 ^ 31 then w else w - 2 ^ 32.

(** [SOCKET] is [UINT_PTR]; handles are taken at the 32-bit width of the
    x86 build. *)
Definition SOCKET (z : Z) : Z := z mod 2 ^ 32.

Definition byte_of (x : Z) (i : Z) : Z := (x / 2 ^ (8 * i)) mod 256.

(** The four bytes a [DWORD] occupies in memory (little endian). *)
Definition dword_bytes (x : Z) : list Z :=
  [byte_of x 0; byte_of x 1; byte_of x 2; byte_of x 3].

(** The [DWORD] stored in the first four bytes of a buffer. *)
Definition dword_at (bs : list Z) : Z :=
  match bs with
  | b0 :: b1 :: b2 :: b3 :: _ => b0 + 2 ^ 8 * b1 + 2 ^ 16 * b2 + 2 ^ 24 * b3
  | _ => 0
  end.

(** The same four bytes read most significant first, as they travel. *)
Definition be32_at (bs : list Z) : Z :=
  match bs with
  | b0 :: b1 :: b2 :: b3 :: _ => 2 ^ 24 * b0 + 2 ^ 16 * b1 + 2 ^ 8 * b2 + b3
  | _ => 0
  end.

(** [htonl] and [ntohl] on a little-endian host: the byte swap. *)
Definition htonl (x : Z) : Z :=
  2 ^ 24 * byte_of x 0 + 2 ^ 16 * byte_of x 1 + 2 ^ 8 * byte_of x 2 + byte_of x 3.

Definition ntohl (x : Z) : Z := htonl x.

Definition is_byte (b : Z) : Prop := 0 <= b < 256.

End Word.

Import Word.

(** ** Status codes and constants of the platform headers *)

Definition ERROR_SUCCESS : Z := 0.
Definition ERROR_NOT_ENOUGH_MEMORY : Z := 8.
Definition ERROR_NOT_FOUND : Z := 1168.
Definition WSAEWOULDBLOCK : Z := 10035.
(** [SOCKET_ERROR] is [-1]; compared with a [DWORD] it is [0xFFFFFFFF]. *)
Definition SOCKET_ERROR : Z := -1.
Definition INVALID_SOCKET : Z := 2 ^ 32 - 1.
Definition AF_INET : Z := 2.
Definition AF_INET6 : Z := 23.
Definition SSL_ERROR_WANT_READ : Z := 2.
Definition SSL_ERROR_WANT_WRITE : Z := 3.

Definition sizeof_TlvHeader : Z := 8.

(** ** The calls a function leaves behind *)

Inductive call : Type :=
  | Connect (s : Z)
  | Sleep (ms : Z)
  | CloseSocket (s : Z)
  | SslWrite (bs : list Z)
  | Encrypt (bs : list Z)
  | Decrypt (bs : list Z)
  | AddCompletion (rid : list Z)
  | CommandHandle (payload : list Z)
  | SchedulerDestroy
  | CommandJoinThreads.

(** ** Data model *)

(** Modelled from the spec: the transport kind tag is declared in the
    shared header, which is not part of this file; the transport built here
    is the SSL-over-TCP kind, the others are the HTTP kinds. *)
Inductive TransportType : Type :=
  | METERPRETER_TRANSPORT_SSL
  | METERPRETER_TRANSPORT_HTTP
  | METERPRETER_TRANSPORT_HTTPS.

#[global] Instance TransportType_eq_dec : EqDecision TransportType.
Proof. solve_decision. Defined.

(** [struct sockaddr_storage], as far as the transport looks into it: the
    family, the port (at the same offset in [sockaddr_in] and
    [sockaddr_in6], kept in network order) and the remaining bytes. *)
Record sockaddr_storage : Type := mk_sockaddr {
  ss_family : Z;
  ss_port : Z;
  ss_rest : list Z
}.

Definition sockaddr_zero : sockaddr_storage := mk_sockaddr 0 0 [].

Record TcpTransportContext : Type := mk_ctx {
  fd : Z;
  sock_desc : sockaddr_storage;
  sock_desc_size : Z;
  bound : bool;
  meth : Z;
  ctx : Z;
  ssl : Z
}.

Definition ctx_zero : TcpTransportContext :=
  mk_ctx 0 sockaddr_zero 0 false 0 0 0.

Definition set_fd (c : TcpTransportContext) (s : Z) : TcpTransportContext :=
  mk_ctx s (sock_desc c) (sock_desc_size c) (bound c) (meth c) (ctx c) (ssl c).

Record TimeoutSettings : Type := mk_timeouts {
  expiry : Z;
  comms : Z;
  retry_total : Z;
  retry_wait : Z
}.

(** A transport points to its context; contexts live in the heap. *)
Record Transport : Type := mk_transport {
  type : TransportType;
  timeouts : TimeoutSettings;
  expiration_end : Z;
  tctx : nat
}.

Definition heap : Type := gmap nat TcpTransportContext.

(** ** get_socket and reset *)

(** [transport_get_socket_tcp]; a null transport is [None].  The result is
    [None] when [transport->ctx] does not point to a context. *)
Definition transport_get_socket_tcp (h : gmap nat TcpTransportContext)
    (transport : option Transport) : option Z :=
  match transport with
  | Some t =>
      if decide (type t = METERPRETER_TRANSPORT_SSL)
      then c ← h !! tctx t; Some (fd c)
      else Some 0
  | None => Some 0
  end.

(** [transport_reset_tcp].  The context it works on comes from [malloc],
    taken to succeed: a block at a fresh address whose content, [junk], is
    whatever the allocator left there.  The result is the heap and the
    calls made. *)
Definition transport_reset_tcp (junk : TcpTransportContext)
    (h : gmap nat TcpTransportContext) (transport : option Transport)
    : gmap nat TcpTransportContext * list call :=
  match transport with
  | Some t =>
      if decide (type t = METERPRETER_TRANSPORT_SSL)
      then
        let a := fresh (dom h) in
        let closed := if fd junk =? 0 then [] else [CloseSocket (fd junk)] in
        (<[a := set_fd junk 0]> h, closed)
      else (h, [])
  | None => (h, [])
  end.

(** ** The inheritance prober *)

(** What the operating system answers about a handle.  [None] stands for
    [SOCKET_ERROR]; the name calls give the address and its size. *)
Record os_sockets : Type := mk_os {
  getsockname : Z -> option (sockaddr_storage * Z);
  getpeername : Z -> option (sockaddr_storage * Z);
  so_acceptconn : Z -> option bool
}.

Definition sizeof_sockaddr_storage : Z := 128.

(** One turn of the scan in [infer_staged_connection_type], for the
    candidate [listenSocket]: [true] when the turn sets [ctx->bound] and
    leaves the loop, [false] when it goes on to the next candidate. *)
Definition probe_candidate (os : os_sockets) (desc : sockaddr_storage)
    (listenSocket : Z) : bool :=
  match so_acceptconn os listenSocket with
  | None => false
  | Some isListening =>
      if negb isListening then false
      else
        match getsockname os listenSocket with
        | None => false
        | Some (listenStorage, _) =>
            if negb (ss_family listenStorage =? ss_family desc) then false
            else if ss_family listenStorage =? AF_INET then
              ss_port listenStorage =? ss_port desc
            else if ss_family listenStorage =? AF_INET6 then
              negb (ss_port listenStorage =? ss_port desc)
            else false
        end
  end.

(** The [for] loop from [i] on, [n] turns left; the result is [ctx->bound]
    and the value of [listenSocket] when the loop is left. *)
Fixpoint probe_scan (os : os_sockets) (desc : sockaddr_storage) (sock : Z)
    (i : Z) (n : nat) (listenSocket : Z) : bool * Z :=
  match n with
  | O => (false, listenSocket)
  | S n' =>
      let listenSocket := SOCKET (sock - i * 4) in
      if probe_candidate os desc listenSocket then (true, listenSocket)
      else probe_scan os desc sock (i + 1) n' listenSocket
  end.

Definition store_name (c : TcpTransportContext)
    (answer : option (sockaddr_storage * Z)) : TcpTransportContext :=
  match answer with
  | Some (a, size) => mk_ctx (fd c) a size (bound c) (meth c) (ctx c) (ssl c)
  | None =>
      mk_ctx (fd c) (sock_desc c) sizeof_sockaddr_storage (bound c)
        (meth c) (ctx c) (ssl c)
  end.

Definition set_bound (c : TcpTransportContext) (b : bool) : TcpTransportContext :=
  mk_ctx (fd c) (sock_desc c) (sock_desc_size c) b (meth c) (ctx c) (ssl c).

(** [infer_staged_connection_type]; [listenSocket0] is the value the
    uninitialised local holds before the loop. *)
Definition infer_staged_connection_type (os : os_sockets) (listenSocket0 : Z)
    (c : TcpTransportContext) (sock : Z) : TcpTransportContext * list call :=
  let c := set_bound (set_fd c sock) false in
  let c := store_name c (getsockname os (fd c)) in
  let '(b, listenSocket) := probe_scan os (sock_desc c) (fd c) 1 16 listenSocket0 in
  let c := set_bound c b in
  if bound c
  then (store_name c (getsockname os listenSocket), [CloseSocket listenSocket])
  else (store_name c (getpeername os (fd c)), []).

(** ** Establishing the connection *)

(** What one turn of a retry loop sees: the result of [connect], the clock
    when the expiry is tested and the clock when the loop condition is
    tested, after the sleep. *)
Record attempt : Type := mk_attempt {
  at_connect : Z;
  at_now : Z;
  at_after : Z
}.

(** The [do ... while] of [reverse_tcp_run]: [result] when the loop is left
    and the calls made; [None] when the script ends with the loop still
    running. *)
Fixpoint reverse_tcp_loop (reverseSocket retryTotal retryWait expiry start : Z)
    (script : list attempt) : option (Z * list call) :=
  match script with
  | [] => None
  | a :: rest =>
      let result := DWORD (at_connect a) in
      if negb (result =? DWORD SOCKET_ERROR) then
        Some (result, [Connect reverseSocket])
      else if at_now a >=? expiry then
        Some (result, [Connect reverseSocket])
      else if DWORD (DWORD (at_after a) - DWORD start) <? retryTotal then
        '(r, calls) ← reverse_tcp_loop reverseSocket retryTotal retryWait
                        expiry start rest;
        Some (r, Connect reverseSocket :: Sleep (DWORD (retryWait * 1000)) :: calls)
      else
        Some (result, [Connect reverseSocket; Sleep (DWORD (retryWait * 1000))])
  end.

(** [reverse_tcp_run]; [start] is the clock on entry. *)
Definition reverse_tcp_run (reverseSocket retryTotal retryWait expiry start : Z)
    (script : list attempt) : option (Z * list call) :=
  '(result, calls) ← reverse_tcp_loop reverseSocket retryTotal retryWait
                       expiry start script;
  if result =? DWORD SOCKET_ERROR
  then Some (result, calls ++ [CloseSocket reverseSocket])
  else Some (result, calls).

(** A turn of the retry loop after which it goes round again: the connect
    failed, the session has not expired, and the time elapsed since the
    loop started is short of [retryTotal]. *)
Definition goes_round (retryTotal expiry start : Z) (a : attempt) : Prop :=
  at_connect a = SOCKET_ERROR /\ at_now a < expiry /\
  0 <= start <= at_after a /\ at_after a < 2 ^ 32 /\
  at_after a - start < retryTotal.

(** The calls of the turns that went round. *)
Definition rounds_calls (reverseSocket retryWait : Z) (turns : list attempt)
    : list call :=
  flat_map (fun _ => [Connect reverseSocket; Sleep (retryWait * 1000)]) turns.

(** The world of [reverse_tcp4]. *)
Record tcp4_world : Type := mk_tcp4 {
  w4_startup : Z;             (* WSAStartup *)
  w4_last_error : Z;          (* WSAGetLastError *)
  w4_socket : Z;              (* socket *)
  w4_resolved : bool;         (* gethostbyname gave an entry *)
  w4_start : Z;
  w4_script : list attempt
}.

(** [reverse_tcp4]: the status and the content of [*socketBuffer]; [None]
    when nothing is returned (the host entry is null and dereferenced, or
    the script ends). *)
Definition reverse_tcp4 (w : tcp4_world) (retryTotal retryWait expiry : Z)
    (socketBuffer : Z) : option (Z * Z * list call) :=
  let socketBuffer := 0 in
  if negb (w4_startup w =? 0) then Some (DWORD (w4_last_error w), socketBuffer, [])
  else
    let socketHandle := w4_socket w in
    if negb (w4_resolved w) then None
    else
      '(result, calls) ← reverse_tcp_run socketHandle retryTotal retryWait
                           expiry (w4_start w) (w4_script w);
      if result =? ERROR_SUCCESS
      then Some (result, socketHandle, calls)
      else Some (result, socketBuffer, calls).

(** One round of [reverse_tcp6]: a [connect] result for each resolved
    address, and the two clock readings. *)
Record round : Type := mk_round {
  rd_connects : list Z;
  rd_now : Z;
  rd_after : Z
}.

(** The [for] over the addresses: [inl calls] when a [connect] succeeded,
    [inr (result, calls)] when all were tried. *)
Fixpoint connect_each (socketHandle result : Z) (connects : list Z)
    : list call + Z * list call :=
  match connects with
  | [] => inr (result, [])
  | r :: rest =>
      let result := DWORD r in
      if negb (result =? DWORD SOCKET_ERROR) then inl [Connect socketHandle]
      else
        match connect_each socketHandle result rest with
        | inl calls => inl (Connect socketHandle :: calls)
        | inr (res, calls) => inr (res, Connect socketHandle :: calls)
        end
  end.

(** The retry loop of [reverse_tcp6]: [inl] is the early [return] with the
    socket connected, [inr result] the fall out of the loop. *)
Fixpoint reverse_tcp6_loop (socketHandle retryTotal retryWait expiry start result : Z)
    (script : list round) : option ((list call + Z * list call)) :=
  match script with
  | [] => None
  | a :: rest =>
      match connect_each socketHandle result (rd_connects a) with
      | inl calls => Some (inl calls)
      | inr (result, calls) =>
          if rd_now a >=? expiry then Some (inr (result, calls))
          else if DWORD (DWORD (rd_after a) - DWORD start) <? retryTotal then
            match reverse_tcp6_loop socketHandle retryTotal retryWait expiry
                    start result rest with
            | Some (inl more) =>
                Some (inl (calls ++ Sleep (DWORD (retryWait * 1000)) :: more))
            | Some (inr (res, more)) =>
                Some (inr (res, calls ++ Sleep (DWORD (retryWait * 1000)) :: more))
            | None => None
            end
          else Some (inr (result, calls ++ [Sleep (DWORD (retryWait * 1000))]))
      end
  end.

Record tcp6_world : Type := mk_tcp6 {
  w6_startup : Z;
  w6_last_error : Z;
  w6_getaddrinfo : Z;
  w6_socket : Z;
  w6_start : Z;
  w6_script : list round
}.

(** [reverse_tcp6]. *)
Definition reverse_tcp6 (w : tcp6_world) (retryTotal retryWait expiry : Z)
    (socketBuffer : Z) : option (Z * Z * list call) :=
  let socketBuffer := 0 in
  if negb (w6_startup w =? 0) then Some (DWORD (w6_last_error w), socketBuffer, [])
  else if negb (w6_getaddrinfo w =? 0) then
    Some (DWORD (w6_last_error w), socketBuffer, [])
  else
    let socketHandle := w6_socket w in
    if socketHandle =? INVALID_SOCKET then
      Some (DWORD (w6_last_error w), socketBuffer, [])
    else
      match reverse_tcp6_loop socketHandle retryTotal retryWait expiry
              (w6_start w) ERROR_SUCCESS (w6_script w) with
      | Some (inl calls) => Some (ERROR_SUCCESS, socketHandle, calls)
      | Some (inr (result, calls)) =>
          Some (result, socketBuffer, calls ++ [CloseSocket socketHandle])
      | None => None
      end.

(** The world of the bind flow. *)
Record bind_world : Type := mk_bind {
  wb_startup : Z;
  wb_last_error : Z;
  wb_socket6 : Z;             (* socket(AF_INET6, ...) *)
  wb_setsockopt : Z;
  wb_socket4 : Z;             (* socket(AF_INET, ...) *)
  wb_bind : Z;
  wb_bind_error : Z;
  wb_listen : Z;
  wb_listen_error : Z;
  wb_accept : Z;
  wb_accept_error : Z
}.

(** [bind_tcp_run]: the status, [*acceptSocketBuffer] and the calls. *)
Definition bind_tcp_run (w : bind_world) (listenSocket : Z)
    (acceptSocketBuffer : Z) : Z * Z * list call :=
  let '(result, buffer) :=
    if wb_bind w =? SOCKET_ERROR then (DWORD (wb_bind_error w), acceptSocketBuffer)
    else if wb_listen w =? SOCKET_ERROR then
      (DWORD (wb_listen_error w), acceptSocketBuffer)
    else
      let acceptSocket := wb_accept w in
      if acceptSocket =? INVALID_SOCKET then
        (DWORD (wb_accept_error w), acceptSocketBuffer)
      else (ERROR_SUCCESS, acceptSocket) in
  (result, buffer, [CloseSocket listenSocket]).

(** [bind_tcp]. *)
Definition bind_tcp (w : bind_world) (socketBuffer : Z) : Z * Z * list call :=
  let socketBuffer := 0 in
  if negb (wb_startup w =? 0) then (DWORD (wb_last_error w), socketBuffer, [])
  else
    let listenSocket := wb_socket6 w in
    let '(v4Fallback, closed) :=
      if listenSocket =? INVALID_SOCKET then (true, [])
      else if wb_setsockopt w =? SOCKET_ERROR then (true, [CloseSocket listenSocket])
      else (false, []) in
    let listenSocket := if v4Fallback then wb_socket4 w else listenSocket in
    let '(result, buffer, calls) := bind_tcp_run w listenSocket socketBuffer in
    (result, buffer, closed ++ calls).

(** ** The TLS session *)

(** The literal of [server_negotiate_ssl]: [GET /123456789 HTTP/1.0] and two
    line ends. *)
Definition bytes_of_string (s : string) : list Z :=
  map (fun a => Z.of_nat (nat_of_ascii a)) (list_ascii_of_string s).

Definition cover_request : list Z :=
  bytes_of_string "GET /123456789 HTTP/1.0" ++ [13; 10; 13; 10].

Record tls_world : Type := mk_tls {
  tw_set_fd : Z;                    (* SSL_set_fd *)
  tw_connects : list (Z * Z);       (* SSL_connect, SSL_get_error *)
  tw_write : Z                      (* SSL_write of the request *)
}.

(** The inner [do ... while (ret != 1)]: [success] and [ret] when it is
    left. *)
Fixpoint ssl_connect_loop (script : list (Z * Z)) : option (bool * Z) :=
  match script with
  | [] => None
  | (r, e) :: rest =>
      let ret := DWORD r in
      if negb (ret =? 1) then
        let res := DWORD e in
        if (res =? SSL_ERROR_WANT_READ) || (res =? SSL_ERROR_WANT_WRITE)
        then ssl_connect_loop rest
        else Some (false, ret)
      else Some (true, ret)
  end.

(** [server_negotiate_ssl]: the [BOOL] returned and the writes made on the
    session.  [ret] is a [DWORD], and so are the values the two tests on it
    see. *)
Definition server_negotiate_ssl (w : tls_world) : option (bool * list call) :=
  let ret := 0 in
  '(success, ret, calls) ←
    (if tw_set_fd w =? 0 then Some (false, ret, [])
     else
       '(success, ret) ← ssl_connect_loop (tw_connects w);
       if negb success then Some (success, ret, [])
       else
         let ret := DWORD (tw_write w) in
         Some (success, ret, [SslWrite (take 27 cover_request)]));
  if ret <? 0 then Some (false, calls) else Some (success, calls).

(** ** Packets *)

Record TlvHeader : Type := mk_header {
  hdr_length : Z;
  hdr_type : Z
}.

Record Packet : Type := mk_packet {
  header : TlvHeader;
  payload : list Z;
  payloadLength : Z
}.

(** The eight bytes of the header as they lie in memory and leave on the
    wire. *)
Definition header_bytes (h : TlvHeader) : list Z :=
  dword_bytes (hdr_length h) ++ dword_bytes (hdr_type h).

(** [memset(localPacket, 0, sizeof(Packet))]. *)
Definition packet_zero : Packet := mk_packet (mk_header 0 0) [] 0.

(** Modelled from the spec: [packet_get_type] is a helper of the common
    library; the type field is kept in network order and the helper gives
    it in host order. *)
Definition packet_get_type (p : Packet) : Z := ntohl (hdr_type (header p)).

(** The cipher of the remote: each handler takes the buffer and its length
    and gives its status, the new buffer and the new length. *)
Record CryptoContext : Type := mk_crypto {
  encrypt : list Z -> Z -> Z * list Z * Z;
  decrypt : list Z -> Z -> Z * list Z * Z
}.

(** ** The TLS stream read by the codec *)

(** What arrives on the session: bytes, or a read that returns [- n] and
    leaves [last_error] as the thread's last error. *)
Inductive chunk : Type :=
  | Bytes (bs : list Z)
  | Fault (n : nat) (last_error : Z).

(** [SSL_read] of at most [num] bytes: the value returned, the bytes stored,
    the last error after the call and what remains to arrive. *)
Definition SSL_read (num : Z) (lastError : Z) (s : list chunk)
    : option (Z * list Z * Z * list chunk) :=
  match s with
  | [] => None
  | Bytes bs :: rest =>
      let data := take (Z.to_nat num) bs in
      let left := drop (Z.to_nat num) bs in
      Some (Z.of_nat (length data), data, lastError,
            match left with [] => rest | _ => Bytes left :: rest end)
  | Fault n e :: rest => Some (- Z.of_nat n, [], e, rest)
  end.

(** The bytes of the wire: all that a stream delivers, in the order of
    arrival, whatever the reads that fail in between. *)
Fixpoint delivered (s : list chunk) : list Z :=
  match s with
  | [] => []
  | Bytes bs :: rest => bs ++ delivered rest
  | Fault _ _ :: rest => delivered rest
  end.

(** The outcome of one of the two read loops: the bytes read when the loop
    ran to its end, the last error, the stream left. *)
Definition read_outcome : Type := option (list Z) * Z * list chunk.

(** The loop on [inHeader]; [buf] holds the [headerBytes] bytes read so
    far. *)
Fixpoint read_header (fuel : nat) (headerBytes : Z) (buf : list Z)
    (lastError : Z) (s : list chunk) : option read_outcome :=
  match fuel with
  | O => None
  | S fuel =>
      '(bytesRead, data, lastError, s) ←
        SSL_read (sizeof_TlvHeader - headerBytes) lastError s;
      if bytesRead <=? 0 then Some (None, ERROR_NOT_FOUND, s)
      else
        let headerBytes := DWORD (headerBytes + bytesRead) in
        let buf := buf ++ data in
        if negb (headerBytes =? sizeof_TlvHeader)
        then read_header fuel headerBytes buf lastError s
        else Some (Some buf, lastError, s)
  end.

(** The loop on [payloadBytesLeft]; the count handed to [SSL_read] is an
    [int], and a count that is not positive is outside the model. *)
Fixpoint read_payload (fuel : nat) (payloadLength payloadBytesLeft : Z)
    (buf : list Z) (lastError : Z) (s : list chunk) : option read_outcome :=
  match fuel with
  | O => None
  | S fuel =>
      if payloadBytesLeft >? 0 then
        if INT payloadBytesLeft <=? 0 then None
        else
          '(bytesRead, data, lastError, s) ←
            SSL_read (INT payloadBytesLeft) lastError s;
          if bytesRead <=? 0 then
            if lastError =? WSAEWOULDBLOCK
            then read_payload fuel payloadLength payloadBytesLeft buf lastError s
            else Some (None, ERROR_NOT_FOUND, s)
          else
            read_payload fuel payloadLength (DWORD (payloadBytesLeft - bytesRead))
              (buf ++ data) lastError s
      else Some (Some buf, lastError, s)
  end.

Record recv_world : Type := mk_recv {
  rw_stream : list chunk;
  rw_last_error : Z;               (* GetLastError on entry *)
  rw_malloc : Z -> bool;           (* malloc(payloadLength) gives a block *)
  rw_malloc_packet : bool;         (* malloc(sizeof(Packet)) gives a block *)
  rw_cipher : option CryptoContext (* remote_get_cipher *)
}.

Section Codec.

(** The packet type tags are declared in the headers of the common
    library, which are not part of this file: they are parameters. *)
Variables PACKET_TLV_TYPE_PLAIN_REQUEST PACKET_TLV_TYPE_PLAIN_RESPONSE : Z.

(** [packet_receive_via_ssl]: the status returned, the packet stored in
    [*packet] if any, and the calls to the cipher. *)
Definition packet_receive_via_ssl (fuel : nat) (w : recv_world)
    : option (Z * option Packet * list call) :=
  '(hdr, lastError, s) ← read_header fuel 0 [] (rw_last_error w) (rw_stream w);
  match hdr with
  | None => Some (lastError, None, [])
  | Some hdr =>
      let header := mk_header (dword_at hdr) (dword_at (drop 4 hdr)) in
      let payloadLength := DWORD (ntohl (hdr_length header) - sizeof_TlvHeader) in
      let payloadBytesLeft := payloadLength in
      if negb (rw_malloc w payloadLength)
      then Some (ERROR_NOT_ENOUGH_MEMORY, None, [])
      else
        '(body, lastError, s) ←
          read_payload fuel payloadLength payloadBytesLeft [] lastError s;
        match body with
        | None => Some (lastError, None, [])
        | Some payload =>
            if negb (rw_malloc_packet w)
            then Some (ERROR_NOT_ENOUGH_MEMORY, None, [])
            else
              let localPacket := packet_zero in
              match rw_cipher w with
              | Some crypto =>
                  if negb (packet_get_type localPacket =? PACKET_TLV_TYPE_PLAIN_REQUEST)
                     && negb (packet_get_type localPacket =? PACKET_TLV_TYPE_PLAIN_RESPONSE)
                  then
                    let '(res, plain, plainLength) :=
                      decrypt crypto payload payloadLength in
                    if negb (DWORD res =? ERROR_SUCCESS)
                    then Some (DWORD res, None, [Decrypt payload])
                    else
                      Some (ERROR_SUCCESS,
                            Some (mk_packet header plain (DWORD plainLength)),
                            [Decrypt payload])
                  else
                    Some (ERROR_SUCCESS,
                          Some (mk_packet header payload payloadLength), [])
              | None =>
                  Some (ERROR_SUCCESS,
                        Some (mk_packet header payload payloadLength), [])
              end
        end
  end.

End Codec.

(** ** The TLV helpers of the common library *)

Module Tlv.

(** Modelled from the spec: [packet_get_tlv_string] and
    [packet_add_tlv_string] belong to the common library, whose source is
    not part of this file.  A payload is a sequence of TLVs, each a
    length and a type in network order followed by the value; the length
    counts its own eight bytes.  The search walks the sequence and gives
    the value of the first TLV of the type asked for. *)
Fixpoint find (fuel : nat) (ty : Z) (bs : list Z) : option (list Z) :=
  match fuel with
  | O => None
  | S fuel =>
      if Z.of_nat (length bs) <? sizeof_TlvHeader then None
      else
        let len := be32_at bs in
        if (len <? sizeof_TlvHeader) || (Z.of_nat (length bs) <? len) then None
        else if be32_at (drop 4 bs) =? ty
        then Some (take (Z.to_nat (len - sizeof_TlvHeader)) (drop 8 bs))
        else find fuel ty (drop (Z.to_nat len) bs)
  end.

Definition packet_get_tlv_string (p : Packet) (ty : Z) : option (list Z) :=
  find (length (payload p)) ty (payload p).

(** Modelled from the spec: attaching a string TLV appends it, with its
    terminator, to the payload and keeps the invariant of the packet: the
    length field of the header is the total length. *)
Definition packet_add_tlv_string (p : Packet) (ty : Z) (str : list Z) : Packet :=
  let realLength := Z.of_nat (length str) + 1 + sizeof_TlvHeader in
  mk_packet
    (mk_header (htonl (DWORD (ntohl (hdr_length (header p)) + realLength)))
               (hdr_type (header p)))
    (payload p ++ dword_bytes (htonl realLength) ++ dword_bytes (htonl ty)
       ++ str ++ [0])
    (DWORD (payloadLength p + realLength)).

End Tlv.

(** ** Transmit *)

(** The loop that writes the header; [script] holds what the successive
    calls of [SSL_write] return.  The result is [res] and [idx] as the loop
    leaves them, the bytes that went out, and the script left. *)
Fixpoint write_header (script : list Z) (hdr : list Z) (res idx : Z)
    : option (Z * list Z * list Z) :=
  if idx <? sizeof_TlvHeader then
    match script with
    | [] => None
    | r :: rest =>
        let res := DWORD r in
        if res <=? 0 then Some (res, [], rest)
        else
          '(res', out, rest') ← write_header rest hdr res (DWORD (idx + res));
          Some (res', take (Z.to_nat r) (drop (Z.to_nat idx) hdr) ++ out, rest')
    end
  else Some (res, [], script).

(** The loop that writes the payload. *)
Fixpoint write_payload (script : list Z) (payload : list Z)
    (payloadLength res idx : Z) : option (Z * list Z * list Z) :=
  if idx <? payloadLength then
    match script with
    | [] => None
    | r :: rest =>
        let res := DWORD r in
        if res <? 0 then Some (res, [], rest)
        else
          '(res', out, rest') ←
            write_payload rest payload payloadLength res (DWORD (idx + res));
          Some (res', take (Z.to_nat r) (drop (Z.to_nat idx) payload) ++ out, rest')
    end
  else Some (res, [], script).

Record xmit_world : Type := mk_xmit {
  xw_rand : nat -> Z;              (* the successive values of rand() *)
  xw_cipher : option CryptoContext;
  xw_writes : list Z;              (* what SSL_write returns, call by call *)
  xw_last_error : Z;               (* GetLastError on entry *)
  xw_res : Z                       (* the uninitialised local res *)
}.

Section Transmit.

(** The packet type tags and the type of the request-id TLV, parameters as
    above. *)
Variables PACKET_TLV_TYPE_PLAIN_REQUEST PACKET_TLV_TYPE_PLAIN_RESPONSE : Z.
Variable TLV_TYPE_REQUEST_ID : Z.

(** The identifier made of 31 draws of [rand]. *)
Definition request_id (rand : nat -> Z) : list Z :=
  map (fun index => rand index mod 94 + 33) (seq 0 31).

(** The packet after the identifier is attached, if it had none. *)
Definition with_request_id (w : xmit_world) (p : Packet) : Packet :=
  match Tlv.packet_get_tlv_string p TLV_TYPE_REQUEST_ID with
  | Some _ => p
  | None => Tlv.packet_add_tlv_string p TLV_TYPE_REQUEST_ID (request_id (xw_rand w))
  end.

(** The packet as the cipher leaves it: [inr] is the failure of
    [encrypt]. *)
Definition with_cipher (w : xmit_world) (p : Packet) : Packet * list call + Z * list call :=
  match xw_cipher w with
  | Some crypto =>
      if negb (packet_get_type p =? PACKET_TLV_TYPE_PLAIN_REQUEST)
         && negb (packet_get_type p =? PACKET_TLV_TYPE_PLAIN_RESPONSE)
      then
        let '(res, out, outLength) := encrypt crypto (payload p) (payloadLength p) in
        if negb (DWORD res =? ERROR_SUCCESS)
        then inr (DWORD res, [Encrypt (payload p)])
        else
          let payloadLength := DWORD outLength in
          inl (mk_packet
                 (mk_header (htonl (DWORD (payloadLength + sizeof_TlvHeader)))
                            (hdr_type (header p)))
                 out payloadLength,
               [Encrypt (payload p)])
      else inl (p, [])
  | None => inl (p, [])
  end.

(** [packet_transmit_via_ssl]: the status returned, the bytes that went
    out on the session and the calls made. *)
Definition packet_transmit_via_ssl (w : xmit_world) (packet : Packet)
    (completion : bool) : option (Z * list Z * list call) :=
  let packet := with_request_id w packet in
  let registered :=
    match completion, Tlv.packet_get_tlv_string packet TLV_TYPE_REQUEST_ID with
    | true, Some requestId => [AddCompletion requestId]
    | _, _ => []
    end in
  match with_cipher w packet with
  | inr (res, calls) => Some (res, [], registered ++ calls)
  | inl (packet, calls) =>
      let calls := registered ++ calls in
      '(res, out1, script) ←
        write_header (xw_writes w) (header_bytes (header packet)) (xw_res w) 0;
      if res <? 0 then Some (xw_last_error w, out1, calls)
      else
        '(res, out2, script) ←
          write_payload script (payload packet) (payloadLength packet) res 0;
        if res <? 0 then Some (xw_last_error w, out1 ++ out2, calls)
        else Some (ERROR_SUCCESS, out1 ++ out2, calls)
  end.

End Transmit.

(** ** What the codec is given *)

(** The invariant of a packet: the payload has [payloadLength] bytes and the
    length field of the header, in network order, is the total length. *)
Definition packet_wf (p : Packet) : Prop :=
  payloadLength p = Z.of_nat (length (payload p)) /\
  hdr_length (header p) = htonl (payloadLength p + sizeof_TlvHeader).

(** What the codec relies on from [encrypt]: given a buffer of the length
    stated, under a gigabyte, when it succeeds the length it reports is the
    length of the buffer it gives, and fits an [int] with the header. *)
Definition cipher_sound (crypto : CryptoContext) : Prop :=
  forall bs n res out outLength,
    n = Z.of_nat (length bs) -> n < 2 ^ 30 + 40 ->
    encrypt crypto bs n = (res, out, outLength) ->
    DWORD res = ERROR_SUCCESS ->
    outLength = Z.of_nat (length out) /\ outLength + sizeof_TlvHeader < 2 ^ 31.

(** Every call of [SSL_write] wrote something. *)
Definition writes_succeed (script : list Z) : Prop :=
  Forall (fun r => 0 < r < 2 ^ 31) script.

(** The packet of scenario 5: type [ty], payload [ping]. *)
Definition ping : list Z := bytes_of_string "ping".

Definition ping_packet (ty : Z) : Packet :=
  mk_packet (mk_header (htonl 12) (htonl ty)) ping 4.

(** ** The dispatch loop *)

(** What one turn of the loop sees: the termination event, the poll, the
    result of the receive and the packet it gave, the answer of the command
    handler and the clock. *)
Record tick : Type := mk_tick {
  tk_sigterm : bool;
  tk_poll : Z;
  tk_receive : Z * list Z;
  tk_continue : bool;
  tk_now : Z
}.

(** The [while (running)] of [server_dispatch_tcp]: [result] when the loop
    is left and the calls of the command handler. *)
Fixpoint dispatch_loop (transport : Transport) (lastPacket result : Z)
    (script : list tick) : option (Z * list call) :=
  match script with
  | [] => None
  | k :: rest =>
      if tk_sigterm k then Some (result, [])
      else
        let result := INT (tk_poll k) in
        if result >? 0 then
          let result := INT (fst (tk_receive k)) in
          if negb (result =? ERROR_SUCCESS) then Some (result, [])
          else
            let running := tk_continue k in
            let lastPacket := tk_now k in
            if running then
              '(r, calls) ← dispatch_loop transport lastPacket result rest;
              Some (r, CommandHandle (snd (tk_receive k)) :: calls)
            else Some (result, [CommandHandle (snd (tk_receive k))])
        else if result =? 0 then
          let now := tk_now k in
          if (now >? expiration_end transport)
             || (now - lastPacket >? comms (timeouts transport))
          then Some (ERROR_SUCCESS, [])
          else dispatch_loop transport lastPacket result rest
        else Some (result, [])
  end.

(** [server_dispatch_tcp]; [scheduler] is what [scheduler_initialize]
    returns and [start] the clock before the loop. *)
Definition server_dispatch_tcp (transport : Transport) (scheduler start : Z)
    (script : list tick) : option (Z * list call) :=
  let result := INT scheduler in
  if negb (result =? ERROR_SUCCESS) then Some (DWORD result, [])
  else
    '(result, calls) ← dispatch_loop transport start result script;
    Some (DWORD result, calls ++ [SchedulerDestroy; CommandJoinThreads]).

(** A turn of the dispatch loop that only waits: no termination event, the
    poll times out, and neither the session nor the line has timed out. *)
Definition keeps_waiting (transport : Transport) (lastPacket : Z) (k : tick)
    : Prop :=
  tk_sigterm k = false /\ tk_poll k = 0 /\
  tk_now k <= expiration_end transport /\
  tk_now k - lastPacket <= comms (timeouts transport).

(** The test of the dispatch loop after a poll that timed out. *)
Definition timed_out (transport : Transport) (lastPacket now : Z) : Prop :=
  now > expiration_end transport \/ now - lastPacket > comms (timeouts transport).

(** ** Rounds of the IPv6 retry loop *)

(** A round of [reverse_tcp6] after which the loop goes round again: every
    address refused the connection, the session has not expired, and the
    time elapsed since the loop started is short of [retryTotal]. *)
Definition round_goes_round (retryTotal expiry start : Z) (a : round) : Prop :=
  Forall (fun r => r = SOCKET_ERROR) (rd_connects a) /\
  rd_now a < expiry /\
  0 <= start <= rd_after a /\ rd_after a < 2 ^ 32 /\
  rd_after a - start < retryTotal.

(** The calls of the rounds that went round: one [connect] for each
    address, then the sleep. *)
Definition rounds6_calls (socketHandle retryWait : Z) (turns : list round)
    : list call :=
  flat_map (fun a => repeat (Connect socketHandle) (length (rd_connects a))
                     ++ [Sleep (retryWait * 1000)]) turns.

(** ** Turns of the handshake *)

(** A call of [SSL_connect] that is followed by another: it did not return
    1 and the error is want-read or want-write. *)
Definition wants_retry (turn : Z * Z) : Prop :=
  DWORD (fst turn) <> 1 /\
  (DWORD (snd turn) = SSL_ERROR_WANT_READ \/ DWORD (snd turn) = SSL_ERROR_WANT_WRITE).

(** A call of [SSL_connect] that ends the handshake with a failure. *)
Definition fatal_turn (turn : Z * Z) : Prop :=
  DWORD (fst turn) <> 1 /\
  DWORD (snd turn) <> SSL_ERROR_WANT_READ /\ DWORD (snd turn) <> SSL_ERROR_WANT_WRITE.

(** ** Streams in pieces *)

(** A stream on which the given pieces of bytes arrive one after the other,
    and a run of reads that would block. *)
Definition in_pieces (pieces : list (list Z)) : list chunk := map Bytes pieces.

Definition would_block (faults : list nat) : list chunk :=
  map (fun n => Fault n WSAEWOULDBLOCK) faults.

(** No piece is empty. *)
Definition all_nonempty (pieces : list (list Z)) : Prop :=
  Forall (fun bs => bs <> []) pieces.

(** ** Worlds compared *)

(** The world of a transmit with the cipher taken away, and with another
    script of writes. *)
Definition without_cipher (w : xmit_world) : xmit_world :=
  mk_xmit (xw_rand w) None (xw_writes w) (xw_last_error w) (xw_res w).

Definition with_writes (w : xmit_world) (script : list Z) : xmit_world :=
  mk_xmit (xw_rand w) (xw_cipher w) script (xw_last_error w) (xw_res w).

(** ** Turns of the dispatch loop *)

(** A turn in which a packet comes in: no termination event, the poll
    finds data and the receive succeeds. *)
Definition received (k : tick) : bool :=
  negb (tk_sigterm k) && (INT (tk_poll k) >? 0)
  && (INT (fst (tk_receive k)) =? ERROR_SUCCESS).

(** The calls of the command handler for the packets that came in during
    [turns], in their order. *)
Fixpoint handled (turns : list tick) : list call :=
  match turns with
  | [] => []
  | k :: rest =>
      if received k then CommandHandle (snd (tk_receive k)) :: handled rest
      else handled rest
  end.

(** A turn after which the loop goes round again: no termination event,
    the poll did not fail, and the command handler, if a packet came in,
    asked to continue. *)
Definition goes_on (k : tick) : Prop :=
  tk_sigterm k = false /\ 0 <= INT (tk_poll k) /\
  (received k = true -> tk_continue k = true).

(** ** Creating and destroying the transport *)

(** [transport_create_tcp]: the heap with the new context and the new
    transport.  Both blocks come from [malloc], taken to succeed (the code
    does not test them); the context is a block at a fresh address, zeroed
    by [memset].  [now] is what [current_unix_timestamp] returns; the end
    of the session is the sum of two [int], which wraps at 32 bits.  The
    url, the two other time stamps and the table of functions are not part
    of [Transport] here. *)
Definition transport_create_tcp (h : gmap nat TcpTransportContext)
    (timeouts : TimeoutSettings) (now : Z)
    : gmap nat TcpTransportContext * Transport :=
  let ctx := fresh (dom h) in
  (<[ctx := ctx_zero]> h,
   mk_transport METERPRETER_TRANSPORT_SSL timeouts
     (INT (now + expiry timeouts)) ctx).

(** [transport_destroy_tcp]: the heap after it.  A null [remote] is
    [None], a [remote] without transport is [Some None].  Modelled from the
    spec: [SAFE_FREE], declared in a shared header, releases the block its
    argument points to. *)
Definition transport_destroy_tcp (h : gmap nat TcpTransportContext)
    (remote : option (option Transport)) : gmap nat TcpTransportContext :=
  match remote with
  | Some (Some t) =>
      if decide (type t = METERPRETER_TRANSPORT_SSL)
      then delete (tctx t) h
      else h
  | _ => h
  end.

(** ** Flushing the socket *)

(** [server_socket_flush].  Each turn of the script is what [select] and
    [recv] return; the result is the list of the values [recv] returned,
    which the code logs as the bytes flushed; [None] when the script ends
    with the loop still running. *)
Fixpoint server_socket_flush (script : list (Z * Z)) : option (list Z) :=
  match script with
  | [] => None
  | (data, r) :: rest =>
      if INT data =? 0 then Some []
      else
        let ret := DWORD r in
        if ret =? 0 then Some [ret]
        else flushed ← server_socket_flush rest; Some (ret :: flushed)
  end.

(** A turn of the flush after which the loop goes round again. *)
Definition flushes_on (turn : Z * Z) : Prop :=
  INT (fst turn) <> 0 /\ DWORD (snd turn) <> 0.

(** ** Reading the url *)

(** A buffer of characters is the list of them; the string at its start
    ends before the first NUL, or with the list. *)
Definition NUL : ascii := Ascii.zero.

Fixpoint cstring (buf : list ascii) : list ascii :=
  match buf with
  | [] => []
  | a :: rest => if Ascii.eqb a NUL then [] else a :: cstring rest
  end.

Definition char_at (buf : list ascii) (i : nat) : ascii :=
  default NUL (buf !! i).

(** [*p = '\0'] for the pointer at index [i]. *)
Definition poke (buf : list ascii) (i : nat) : list ascii := <[i := NUL]> buf.

Fixpoint starts_with (needle s : list ascii) : bool :=
  match needle, s with
  | [], _ => true
  | a :: needle, b :: s => Ascii.eqb a b && starts_with needle s
  | _ :: _, [] => false
  end.

(** [strstr]: the index at which [needle] first occurs in [s], [None]
    for the null pointer. *)
Fixpoint strstr (s needle : list ascii) : option nat :=
  if starts_with needle s then Some 0%nat
  else
    match s with
    | [] => None
    | _ :: rest => S <$> strstr rest needle
    end.

(** [strrchr]: the index at which [c] last occurs in [s]. *)
Fixpoint strrchr (s : list ascii) (c : ascii) : option nat :=
  match s with
  | [] => None
  | a :: rest =>
      match strrchr rest c with
      | Some i => Some (S i)
      | None => if Ascii.eqb a c then Some 0%nat else None
      end
  end.

Definition isspace (a : ascii) : bool :=
  let n := nat_of_ascii a in
  (n =? 32)%nat || ((9 <=? n)%nat && (n <=? 13)%nat).

Definition isdigit (a : ascii) : bool :=
  let n := nat_of_ascii a in (48 <=? n)%nat && (n <=? 57)%nat.

Fixpoint skip_space (s : list ascii) : list ascii :=
  match s with
  | a :: rest => if isspace a then skip_space rest else s
  | [] => []
  end.

Fixpoint digits (s : list ascii) (acc : Z) : Z :=
  match s with
  | a :: rest =>
      if isdigit a then digits rest (10 * acc + (Z.of_nat (nat_of_ascii a) - 48))
      else acc
  | [] => acc
  end.

(** [atoi] of the C library, and [atol], which is the same where [long]
    has 32 bits: white space, a sign, digits.  [None] when the number does
    not fit an [int], for which the library promises nothing. *)
Definition atoi (s : list ascii) : option Z :=
  let value :=
    match skip_space s with
    | "-"%char :: rest => - digits rest 0
    | "+"%char :: rest => digits rest 0
    | rest => digits rest 0
    end in
  if (- 2 ^ 31 <=? value) && (value <? 2 ^ 31) then Some value else None.

Definition atol (s : list ascii) : option Z := atoi s.

(** ** Configuring the connection *)

(** What [configure_tcp_connection] meets: the worlds of the three
    establishments, for the host, the service or port and the scope they
    are called with; for a reconnect, the world of the bind to the address
    recorded, the handle [socket] gives for a family, and the clock and
    the turns of [reverse_tcp_run]; for a stream handed over by the stage,
    the handles of the process and what the local of the prober holds;
    then the turns of the flush, whether [malloc] gave the table of locks
    to [server_initialize_ssl], the three handles the TLS library gives to
    [server_negotiate_ssl] and the world of the handshake on a stream. *)
Record configure_world : Type := mk_configure {
  cw_tcp6 : list ascii -> list ascii -> Z -> tcp6_world;
  cw_tcp4 : list ascii -> Z -> tcp4_world;
  cw_bind : Z -> bind_world;
  cw_rebind : sockaddr_storage -> bind_world;
  cw_socket : Z -> Z;
  cw_start : Z;
  cw_script : list attempt;
  cw_os : os_sockets;
  cw_listenSocket : Z;
  cw_flush : list (Z * Z);
  cw_ssl_locks : bool;
  cw_handles : Z * Z * Z;
  cw_tls : Z -> tls_world
}.

(** The first part of [configure_tcp_connection], up to the test of
    [result]: [result], the context and the calls made.  [asciiUrl] is the
    buffer that [wcstombs_s] filled; a null pointer that is dereferenced
    gives [None].  The two time stamps the function sets first are not
    part of [Transport] here. *)
Definition establish (w : configure_world) (transport : Transport)
    (asciiUrl : list ascii) (c : TcpTransportContext) (sock : Z)
    : option (Z * TcpTransportContext * list call) :=
  let asciiUrl := cstring asciiUrl in
  let retryTotal := DWORD (retry_total (timeouts transport)) in
  let retryWait := DWORD (retry_wait (timeouts transport)) in
  let expiry := expiration_end transport in
  if starts_with (list_ascii_of_string "tcp") asciiUrl then
    pHost ← (fun i => i + 2)%nat <$> strstr asciiUrl (list_ascii_of_string "//");
    pPort ← (fun i => pHost + i + 1)%nat <$> strrchr (drop pHost asciiUrl) ":";
    if Ascii.eqb (char_at asciiUrl 3) "6" then
      pScopeId ← (fun i => pHost + i + 1)%nat <$> strrchr (drop pHost asciiUrl) "?";
      let asciiUrl := poke (poke asciiUrl (pScopeId - 1)) (pPort - 1) in
      scopeId ← atol (cstring (drop pScopeId asciiUrl));
      '(result, s, calls) ←
        reverse_tcp6 (cw_tcp6 w (cstring (drop pHost asciiUrl))
                        (cstring (drop pPort asciiUrl)) (DWORD scopeId))
          retryTotal retryWait expiry (fd c);
      Some (result, set_fd c s, calls)
    else
      port ← atoi (cstring (drop pPort asciiUrl));
      let usPort := port mod 65536 in
      if Ascii.eqb (char_at asciiUrl pHost) ":" then
        let '(result, s, calls) := bind_tcp (cw_bind w usPort) (fd c) in
        Some (result, set_fd c s, calls)
      else
        let asciiUrl := poke asciiUrl (pPort - 1) in
        '(result, s, calls) ←
          reverse_tcp4 (cw_tcp4 w (cstring (drop pHost asciiUrl)) usPort)
            retryTotal retryWait expiry (fd c);
        Some (result, set_fd c s, calls)
  else if sock_desc_size c >? 0 then
    if bound c then
      let listenSocket := cw_socket w (ss_family (sock_desc c)) in
      let '(result, s, calls) :=
        bind_tcp_run (cw_rebind w (sock_desc c)) listenSocket (fd c) in
      Some (result, set_fd c s, calls)
    else
      let c := set_fd c (cw_socket w (ss_family (sock_desc c))) in
      '(result, calls) ←
        reverse_tcp_run (fd c) retryTotal retryWait expiry
          (cw_start w) (cw_script w);
      if negb (result =? ERROR_SUCCESS)
      then Some (result, set_fd c 0, calls)
      else Some (result, c, calls)
  else
    let '(c, calls) :=
      infer_staged_connection_type (cw_os w) (cw_listenSocket w) c sock in
    Some (ERROR_SUCCESS, c, calls).

(** The rest of [configure_tcp_connection]: the flush, the locks of
    [server_initialize_ssl], and [server_negotiate_ssl], which starts by
    storing the handles of the TLS library in the context. *)
Definition secure (w : configure_world)
    (established : Z * TcpTransportContext * list call)
    : option (bool * TcpTransportContext * list call) :=
  let '(result, c, calls) := established in
  if negb (result =? ERROR_SUCCESS) then Some (false, c, calls)
  else
    _ ← server_socket_flush (cw_flush w);
    if negb (cw_ssl_locks w) then Some (false, c, calls)
    else
      let '(m, x, s) := cw_handles w in
      let c := mk_ctx (fd c) (sock_desc c) (sock_desc_size c) (bound c) m x s in
      '(success, written) ← server_negotiate_ssl (cw_tls w (fd c));
      Some (success, c, calls ++ written).

(** [configure_tcp_connection]: the [BOOL] returned, the context and the
    calls made. *)
Definition configure_tcp_connection (w : configure_world) (transport : Transport)
    (asciiUrl : list ascii) (c : TcpTransportContext) (sock : Z)
    : option (bool * TcpTransportContext * list call) :=
  established ← establish w transport asciiUrl c sock;
  secure w established.

(** * Scenarios *)

(** The inputs the properties below are run on. *)

Module Scenario.

Definition some_timeouts : TimeoutSettings := mk_timeouts 3600 10 5 1.

(** A transport of the SSL kind whose context, at address 0, holds the
    open stream 1234 and an address captured earlier. *)
Definition live_ctx : TcpTransportContext :=
  mk_ctx 1234 (mk_sockaddr AF_INET 4444 [10; 0; 0; 5]) 16 false 0 0 0.

Definition live_heap : gmap nat TcpTransportContext := {[ 0%nat := live_ctx ]}.

Definition live_transport : Transport :=
  mk_transport METERPRETER_TRANSPORT_SSL some_timeouts 2000 0.

Definition http_transport : Transport :=
  mk_transport METERPRETER_TRANSPORT_HTTP some_timeouts 2000 0.

(** The process was handed the stream 400, whose local end is port 4444
    over IPv6 and whose peer is port 50000.  In the first world the
    handle 396 listens over IPv6 on the same port 4444; in the second it
    listens on another port, 5555; in the third the same happens over
    IPv4. *)
Definition inherited : Z := 400.
Definition local6 : sockaddr_storage := mk_sockaddr AF_INET6 4444 [].
Definition peer6 : sockaddr_storage := mk_sockaddr AF_INET6 50000 [1].
Definition listen6_same : sockaddr_storage := mk_sockaddr AF_INET6 4444 [0].
Definition listen6_other : sockaddr_storage := mk_sockaddr AF_INET6 5555 [0].
Definition local4 : sockaddr_storage := mk_sockaddr AF_INET 4444 [].
Definition peer4 : sockaddr_storage := mk_sockaddr AF_INET 50000 [1].
Definition listen4_same : sockaddr_storage := mk_sockaddr AF_INET 4444 [0].

Definition staged_os (local peer listener : sockaddr_storage) : os_sockets :=
  mk_os
    (fun s => if s =? 400 then Some (local, 28)
              else if s =? 396 then Some (listener, 28) else None)
    (fun s => if s =? 400 then Some (peer, 28) else None)
    (fun s => if s =? 396 then Some true
              else if s =? 400 then Some false else None).

(** The handshake wants a read once, then completes; the write of the
    request then returns 0, or -1. *)
Definition tls_write_zero : tls_world := mk_tls 1 [(-1, 2); (1, 0)] 0.
Definition tls_write_failed : tls_world := mk_tls 1 [(-1, 2); (1, 0)] (-1).

(** Two refused connects one second apart, then one that is accepted;
    two refused connects that use up a budget of five seconds; and two
    refused connects, the second at the expiry time 200. *)
Definition refused_then_accepted : list attempt :=
  [mk_attempt (-1) 100 101; mk_attempt (-1) 101 102; mk_attempt 0 102 102].
Definition refused_until_budget : list attempt :=
  [mk_attempt (-1) 100 101; mk_attempt (-1) 101 105].
Definition refused_until_expiry : list attempt :=
  [mk_attempt (-1) 100 101; mk_attempt (-1) 200 201].

(** A session with [comms] 10 that started at 1000 and is polled, with no
    packet coming in, at 1005 and at 1011. *)
Definition quiet_transport : Transport :=
  mk_transport METERPRETER_TRANSPORT_SSL (mk_timeouts 3600 10 5 1) 4600 0.
Definition quiet_line : list tick :=
  [mk_tick false 0 (0, []) true 1005; mk_tick false 0 (0, []) true 1011].

(** Establishments that fail: every connect is refused; the name does not
    resolve; nobody is accepted. *)
Definition refused4 : tcp4_world :=
  mk_tcp4 0 0 88 true 100 refused_until_budget.
Definition unresolved6 : tcp6_world := mk_tcp6 0 11001 11001 92 100 [].
Definition refused6 : tcp6_world :=
  mk_tcp6 0 0 0 92 100 [mk_round [-1; -1] 100 101; mk_round [-1; -1] 101 105].
Definition nobody_accepted : bind_world :=
  mk_bind 0 0 96 0 0 0 0 0 0 INVALID_SOCKET 10004.

(** Values for the tags that the codec takes as parameters: the types of
    a plain request and of a plain response, and the type of the string TLV
    that carries the request id. *)
Definition PLAIN_REQUEST : Z := 10.
Definition PLAIN_RESPONSE : Z := 11.
Definition REQUEST_ID : Z := 65538.

(** A cipher that keeps the length, and one whose ciphertext carries one
    byte of padding. *)
Definition xor_cipher : CryptoContext :=
  mk_crypto (fun bs _ => (0, map (Z.lxor 85) bs, Z.of_nat (length bs)))
            (fun bs _ => (0, map (Z.lxor 85) bs, Z.of_nat (length bs))).
Definition padding_cipher : CryptoContext :=
  mk_crypto (fun bs _ => (0, map (Z.lxor 85) bs ++ [0], Z.of_nat (length bs) + 1))
            (fun bs n => (0, map (Z.lxor 85) (take (Z.to_nat (n - 1)) bs), n - 1)).

(** A frame of twelve bytes arrives: length 12, the type of a plain
    request, four bytes of payload; the remote has a cipher. *)
Definition plain_request_frame : list Z :=
  [0; 0; 0; 12; 0; 0; 0; 10; 112; 105; 110; 103].
Definition ciphered_remote (crypto : CryptoContext) : recv_world :=
  mk_recv [Bytes plain_request_frame] 0 (fun _ => true) true (Some crypto).

(** A frame of twelve bytes of a type that is enciphered, the type 1 of
    a response, arrives at a remote that has a cipher. *)
Definition response_frame : list Z :=
  [0; 0; 0; 12; 0; 0; 0; 1; 112; 105; 110; 103].
Definition enciphered_remote (crypto : CryptoContext) : recv_world :=
  mk_recv [Bytes response_frame] 0 (fun _ => true) true (Some crypto).

(** The same frame arrives in three pieces, with a read that would block
    in between; the remote has no cipher. *)
Definition plain_remote : recv_world :=
  mk_recv [Bytes [0; 0; 0; 12; 0]; Bytes [0; 0; 10; 112; 105];
           Fault 1 WSAEWOULDBLOCK; Bytes [110; 103]]
          0 (fun _ => true) true None.

(** Transmit: every write goes through, the first for five bytes only;
    no cipher, or the padding cipher. *)
Definition clear_line : xmit_world :=
  mk_xmit (fun _ => 0) None [5; 3; 20; 60] 0 0.
Definition ciphered_line : xmit_world :=
  mk_xmit (fun _ => 0) (Some padding_cipher) [8; 60] 0 0.

(** Transmit: the write of the header returns 0, the next write goes
    through. *)
Definition lost_header_line : xmit_world :=
  mk_xmit (fun _ => 0) None [0; 60] 0 0.

(** Over IPv6 two addresses were resolved: both refuse in the first round,
    the second accepts in the next. *)
Definition second_address_accepts : tcp6_world :=
  mk_tcp6 0 0 0 92 100 [mk_round [-1; -1] 100 101; mk_round [-1; 0] 101 102].

(** A handshake that wants a write, then a read, then fails with the
    error 1 ([SSL_ERROR_SSL]); the turn after it is never reached. *)
Definition tls_handshake_fails : tls_world :=
  mk_tls 1 [(-1, 3); (-1, 2); (-1, 1); (1, 0)] 27.

(** The frame of a request, type 0, with the payload [ping]: it arrives
    cut in three pieces, one of them across the end of the header; and it
    arrives with two reads that would block after the header.  Then a
    stream on which the very first read would block. *)
Definition request_header : TlvHeader := mk_header (htonl 12) (htonl 0).
Definition cut_frame : list (list Z) :=
  [[0; 0; 0]; [12; 0; 0; 0; 0; 112; 105]; [110; 103; 9; 9]].
Definition cut_remote : recv_world :=
  mk_recv (in_pieces cut_frame) 0 (fun _ => true) true None.
Definition blocked_remote : recv_world :=
  mk_recv (in_pieces [[0; 0; 0; 12]; [0; 0; 0; 0]] ++ would_block [1%nat; 1%nat]
           ++ in_pieces [[112; 105]; [110; 103]])
          0 (fun _ => true) true None.
Definition blocked_at_once : recv_world :=
  mk_recv (Fault 1 WSAEWOULDBLOCK :: in_pieces cut_frame) 0 (fun _ => true)
          true None.

(** A cipher that refuses to encrypt, with the status 1359, and a line
    that has it; the request of type 0 that is sent on it. *)
Definition failing_cipher : CryptoContext :=
  mk_crypto (fun bs n => (1359, bs, n)) (fun bs n => (1359, bs, n)).
Definition failing_line : xmit_world :=
  mk_xmit (fun _ => 0) (Some failing_cipher) [8; 60] 0 0.

(** A line with the cipher that keeps the length; the receiving side of
    it, on which what was sent arrives in pieces of seven bytes and one of
    the rest. *)
Definition xor_line : xmit_world :=
  mk_xmit (fun i => Z.of_nat i) (Some xor_cipher) [3; 5; 10; 60] 0 0.
Definition clear_rand_line : xmit_world :=
  mk_xmit (fun i => Z.of_nat i) None [3; 5; 10; 60] 0 0.
Definition far_end (crypto : option CryptoContext) (wire : list Z) : recv_world :=
  mk_recv (in_pieces [take 7 wire; take 7 (drop 7 wire); drop 14 wire]) 0
          (fun _ => true) true crypto.

(** A line without cipher that takes one byte at each write. *)
Definition byte_line : xmit_world :=
  mk_xmit (fun i => Z.of_nat i) None (replicate 52 1) 0 0.

(** A busy line: a packet comes in and is handled, the poll times out
    once, a second packet comes in, and then the receive fails with
    [ERROR_NOT_FOUND]; a turn that is never taken follows. *)
Definition busy_line : list tick :=
  [mk_tick false 1 (0, [1; 2]) true 1001;
   mk_tick false 0 (0, []) true 1002;
   mk_tick false 1 (0, [3]) true 1003;
   mk_tick false 1 (1168, [4]) true 1004;
   mk_tick false 1 (0, [5]) true 1005].

(** A network in which a host accepts on port 4464 and on no other, a
    host accepts over IPv6 in the scope 7 only,
    and the one who connects to a bound port is accepted as 97; the flush
    finds nothing, and the handshake succeeds at once. *)
Definition network : configure_world :=
  mk_configure
    (fun host service scopeId =>
       mk_tcp6 0 0 0 92 100
         [mk_round [if scopeId =? 7 then 0 else SOCKET_ERROR] 100 100])
    (fun host port =>
       mk_tcp4 0 0 88 true 100
         [mk_attempt (if port =? 4464 then 0 else SOCKET_ERROR) 100 200])
    (fun port => mk_bind 0 0 96 0 0 0 0 0 0 97 0)
    (fun address => mk_bind 0 0 96 0 0 0 0 0 0 97 0)
    (fun family => 55) 100 [mk_attempt SOCKET_ERROR 5000 5000]
    (staged_os local4 peer4 listen4_same) 0
    [(0, 0)] true (1, 2, 3) (fun s => mk_tls 1 [(1, 0)] 27).

End Scenario.

(** * Properties *)

(** ** Words and byte order *)

Lemma DWORD_range (z : Z) : 0 <= DWORD z < 2 ^ 32.
Proof. unfold DWORD. apply Z.mod_pos_bound. lia. Qed.

Lemma DWORD_small (z : Z) : 0 <= z < 2 ^ 32 -> DWORD z = z.
Proof. unfold DWORD. apply Z.mod_small. Qed.

Lemma DWORD_never_negative (z : Z) : (DWORD z <? 0) = false.
Proof. pose proof (DWORD_range z). lia. Qed.

Lemma DWORD_minus_one : DWORD SOCKET_ERROR = 2 ^ 32 - 1.
Proof. reflexivity. Qed.

Lemma INT_positive (z : Z) : 0 <= z < 2 ^ 32 -> 0 < INT z -> INT z = z.
Proof.
  intros Hz. unfold INT. rewrite Z.mod_small by lia.
  destruct (Z.ltb_spec z (2 ^ 31)); lia.
Qed.

Lemma INT_small (z : Z) : 0 <= z < 2 ^ 31 -> INT z = z.
Proof.
  intros Hz. unfold INT. rewrite Z.mod_small by lia.
  destruct (Z.ltb_spec z (2 ^ 31)); lia.
Qed.

Lemma byte_of_range (x i : Z) : 0 <= byte_of x i < 256.
Proof. unfold byte_of. apply Z.mod_pos_bound. lia. Qed.

Lemma compose_div (a y k : Z) : 0 <= a < k -> (a + k * y) / k = y.
Proof. intros. symmetry. apply Z.div_unique with a; lia. Qed.

Lemma compose_mod (a y k : Z) : 0 <= a < k -> (a + k * y) mod k = a.
Proof. intros. symmetry. apply Z.mod_unique with y; lia. Qed.

Ltac radix_256 :=
  unfold byte_of;
  change (2 ^ (8 * 0)) with 1; change (2 ^ (8 * 1)) with 256;
  change (2 ^ (8 * 2)) with (256 * 256);
  change (2 ^ (8 * 3)) with (256 * (256 * 256));
  rewrite ?Z.div_1_r; rewrite <- ?Z.div_div by lia.

(** The bytes of a word made of four bytes. *)
Lemma byte_of_compose (a b c d : Z) :
  is_byte a -> is_byte b -> is_byte c -> is_byte d ->
  let y := a + 256 * (b + 256 * (c + 256 * d)) in
  byte_of y 0 = a /\ byte_of y 1 = b /\ byte_of y 2 = c /\ byte_of y 3 = d.
Proof.
  intros Ha Hb Hc Hd y. subst y. unfold is_byte in *. radix_256.
  rewrite !compose_div by lia. rewrite !compose_mod by lia.
  repeat split. apply Z.mod_small; lia.
Qed.

(** A word is made of its four bytes. *)
Lemma bytes_decompose (x : Z) :
  0 <= x < 2 ^ 32 ->
  x = byte_of x 0 + 256 * (byte_of x 1 + 256 * (byte_of x 2 + 256 * byte_of x 3)).
Proof.
  intros Hx. radix_256.
  pose proof (Z.div_mod x 256 ltac:(lia)) as H0.
  pose proof (Z.div_mod (x / 256) 256 ltac:(lia)) as H1.
  pose proof (Z.div_mod (x / 256 / 256) 256 ltac:(lia)) as H2.
  assert (H3 : 0 <= x / 256 / 256 / 256 < 256).
  { split.
    - repeat apply Z.div_pos; lia.
    - repeat (apply Z.div_lt_upper_bound; [lia|]).
      change (2 ^ 32) with 4294967296 in Hx. lia. }
  rewrite (Z.mod_small (x / 256 / 256 / 256)) by lia.
  lia.
Qed.

Lemma htonl_compose (a b c d : Z) :
  is_byte a -> is_byte b -> is_byte c -> is_byte d ->
  htonl (a + 256 * (b + 256 * (c + 256 * d)))
  = d + 256 * (c + 256 * (b + 256 * a)).
Proof.
  intros Ha Hb Hc Hd. unfold htonl.
  destruct (byte_of_compose a b c d Ha Hb Hc Hd) as (-> & -> & -> & ->).
  lia.
Qed.

Lemma htonl_range (x : Z) : 0 <= htonl x < 2 ^ 32.
Proof.
  unfold htonl.
  pose proof (byte_of_range x 0). pose proof (byte_of_range x 1).
  pose proof (byte_of_range x 2). pose proof (byte_of_range x 3). lia.
Qed.

(** Swapping the bytes twice gives the word back. *)
Lemma ntohl_htonl (x : Z) : 0 <= x < 2 ^ 32 -> ntohl (htonl x) = x.
Proof.
  intros Hx. unfold ntohl.
  rewrite (bytes_decompose x Hx) at 1.
  rewrite !htonl_compose by (apply byte_of_range).
  symmetry. apply bytes_decompose, Hx.
Qed.

(** The bytes of [htonl x] in memory are [x] most significant byte first. *)
Lemma be32_at_htonl (x : Z) (rest : list Z) :
  0 <= x < 2 ^ 32 -> be32_at (dword_bytes (htonl x) ++ rest) = x.
Proof.
  intros Hx. rewrite (bytes_decompose x Hx) at 1.
  rewrite htonl_compose by (apply byte_of_range).
  unfold dword_bytes. cbn [app be32_at].
  destruct (byte_of_compose (byte_of x 3) (byte_of x 2) (byte_of x 1) (byte_of x 0))
    as (-> & -> & -> & ->); try apply byte_of_range.
  rewrite (bytes_decompose x Hx) at 5. lia.
Qed.

(** Four bytes of the wire, stored and converted to host order, are the
    number they spell. *)
Lemma ntohl_dword_at (b0 b1 b2 b3 : Z) (rest : list Z) :
  is_byte b0 -> is_byte b1 -> is_byte b2 -> is_byte b3 ->
  ntohl (dword_at (b0 :: b1 :: b2 :: b3 :: rest))
  = be32_at (b0 :: b1 :: b2 :: b3 :: rest).
Proof.
  intros H0 H1 H2 H3. unfold ntohl, dword_at, be32_at.
  replace (b0 + 2 ^ 8 * b1 + 2 ^ 16 * b2 + 2 ^ 24 * b3)
    with (b0 + 256 * (b1 + 256 * (b2 + 256 * b3))) by lia.
  rewrite htonl_compose by assumption. lia.
Qed.

Lemma length_header_bytes (h : TlvHeader) : length (header_bytes h) = 8%nat.
Proof. reflexivity. Qed.

(** ** get_socket *)

(** C9: [transport_get_socket_tcp] returns 0 for a null transport and for a
    transport that is not of the SSL kind; for a transport of the SSL kind
    it returns the stream handle of the context, and a handle other than 0
    is returned for such a transport only. *)
Theorem transport_get_socket_tcp_spec
    (h : gmap nat TcpTransportContext) (transport : option Transport) :
  (transport = None -> transport_get_socket_tcp h transport = Some 0) /\
  (forall t, transport = Some t -> type t <> METERPRETER_TRANSPORT_SSL ->
     transport_get_socket_tcp h transport = Some 0) /\
  (forall t c, transport = Some t -> type t = METERPRETER_TRANSPORT_SSL ->
     h !! tctx t = Some c ->
     transport_get_socket_tcp h transport = Some (fd c)) /\
  (forall s, transport_get_socket_tcp h transport = Some s -> s <> 0 ->
     exists t c, transport = Some t /\ type t = METERPRETER_TRANSPORT_SSL /\
                 h !! tctx t = Some c /\ s = fd c).
Proof.
  unfold transport_get_socket_tcp. repeat split.
  - intros ->. reflexivity.
  - intros t -> Ht. case_decide; [contradiction | reflexivity].
  - intros t c -> Ht Hc. case_decide; [| contradiction].
    rewrite Hc. reflexivity.
  - intros s Hs Hnz. destruct transport as [t|]; [| congruence].
    case_decide; [| congruence].
    destruct (h !! tctx t) as [c|] eqn:Hc; simpl in Hs; [| discriminate].
    exists t, c. repeat split; congruence.
Qed.

Lemma transport_get_socket_tcp_spec_witness :
  transport_get_socket_tcp Scenario.live_heap None = Some 0 /\
  transport_get_socket_tcp Scenario.live_heap (Some Scenario.http_transport) = Some 0 /\
  transport_get_socket_tcp Scenario.live_heap (Some Scenario.live_transport) = Some 1234.
Proof.
  destruct (transport_get_socket_tcp_spec Scenario.live_heap None)
    as (Hnull & _).
  destruct (transport_get_socket_tcp_spec Scenario.live_heap
              (Some Scenario.http_transport)) as (_ & Hother & _).
  destruct (transport_get_socket_tcp_spec Scenario.live_heap
              (Some Scenario.live_transport)) as (_ & _ & Hssl & _).
  split; [| split].
  - apply Hnull. reflexivity.
  - apply (Hother Scenario.http_transport); [reflexivity | discriminate].
  - apply (Hssl Scenario.live_transport Scenario.live_ctx); reflexivity.
Defined.

(** ** reset *)

(** [transport_reset_tcp] changes no context that exists when it is
    called: what it closes and zeroes is the block it allocates. *)
Lemma transport_reset_tcp_frame (junk : TcpTransportContext)
    (h : gmap nat TcpTransportContext) (transport : option Transport)
    (a : nat) (c : TcpTransportContext) :
  h !! a = Some c -> (transport_reset_tcp junk h transport).1 !! a = Some c.
Proof.
  intros Ha. unfold transport_reset_tcp.
  destruct transport as [t|]; [| exact Ha].
  case_decide; [| exact Ha]. simpl.
  rewrite lookup_insert_ne; [exact Ha |].
  intros E. apply (is_fresh (dom h)). rewrite E.
  apply elem_of_dom_2 with c. exact Ha.
Qed.

(** C3, on the code: after [transport_reset_tcp] on a transport of the SSL
    kind whose context holds the open stream 1234, the context of that
    transport still holds 1234 and [transport_get_socket_tcp] still returns
    it, whatever the allocator left in the new block. *)
Theorem transport_reset_tcp_keeps_handle (junk : TcpTransportContext) :
  let h' := (transport_reset_tcp junk Scenario.live_heap
               (Some Scenario.live_transport)).1 in
  h' !! tctx Scenario.live_transport = Some Scenario.live_ctx /\
  fd Scenario.live_ctx = 1234 /\
  transport_get_socket_tcp h' (Some Scenario.live_transport) = Some 1234.
Proof.
  intros h'.
  assert (H : h' !! tctx Scenario.live_transport = Some Scenario.live_ctx).
  { apply transport_reset_tcp_frame. reflexivity. }
  split; [exact H |]. split; [reflexivity |].
  unfold transport_get_socket_tcp. case_decide; [| contradiction].
  rewrite H. reflexivity.
Qed.

(** ** The inheritance prober *)

(** What a turn of the scan decides, read off the code: the candidate
    accepts connections, has the family of the inherited stream, and its
    port is equal for IPv4 but different for IPv6. *)
Lemma probe_candidate_true (os : os_sockets) (desc : sockaddr_storage) (s : Z) :
  probe_candidate os desc s = true <->
  exists a size,
    so_acceptconn os s = Some true /\ getsockname os s = Some (a, size) /\
    ss_family a = ss_family desc /\
    ((ss_family a = AF_INET /\ ss_port a = ss_port desc) \/
     (ss_family a = AF_INET6 /\ ss_port a <> ss_port desc)).
Proof.
  unfold probe_candidate, AF_INET, AF_INET6. split.
  - destruct (so_acceptconn os s) as [[|]|]; simpl; try discriminate.
    destruct (getsockname os s) as [[a size]|]; try discriminate.
    destruct (Z.eqb_spec (ss_family a) (ss_family desc)); simpl; try discriminate.
    destruct (Z.eqb_spec (ss_family a) 2).
    + intros Hp%Z.eqb_eq. exists a, size. auto 10.
    + destruct (Z.eqb_spec (ss_family a) 23); try discriminate.
      intros Hp%negb_true_iff%Z.eqb_neq. exists a, size. auto 10.
  - intros (a & size & -> & -> & Hf & Hp). simpl.
    rewrite Hf, Z.eqb_refl. simpl. rewrite <- Hf.
    destruct Hp as [[-> Hp] | [-> Hp]]; simpl.
    + apply Z.eqb_eq, Hp.
    + apply negb_true_iff, Z.eqb_neq, Hp.
Qed.

(** C4, on the code: with a sibling handle that listens over IPv6 on the
    port of the inherited stream, the prober leaves [bound] false, stores
    the peer address and closes nothing; with a sibling that listens over
    IPv6 on another port it sets [bound], stores the address of that
    listener and closes it.  Over IPv4 the same-port listener is found. *)
Theorem infer_staged_connection_type_ipv6 :
  infer_staged_connection_type
    (Scenario.staged_os Scenario.local6 Scenario.peer6 Scenario.listen6_same)
    0 ctx_zero Scenario.inherited
  = (mk_ctx 400 Scenario.peer6 28 false 0 0 0, []) /\
  infer_staged_connection_type
    (Scenario.staged_os Scenario.local6 Scenario.peer6 Scenario.listen6_other)
    0 ctx_zero Scenario.inherited
  = (mk_ctx 400 Scenario.listen6_other 28 true 0 0 0, [CloseSocket 396]) /\
  infer_staged_connection_type
    (Scenario.staged_os Scenario.local4 Scenario.peer4 Scenario.listen4_same)
    0 ctx_zero Scenario.inherited
  = (mk_ctx 400 Scenario.listen4_same 28 true 0 0 0, [CloseSocket 396]).
Proof. repeat split; vm_compute; reflexivity. Qed.

(** ** The TLS session *)

Lemma cover_request_length : length cover_request = 27%nat.
Proof. reflexivity. Qed.

(** Once the handshake is through, the request is written once and the
    negotiation succeeds whatever the write returns: [ret] is unsigned, so
    the test [ret < 0] that would fail the negotiation never holds. *)
Lemma server_negotiate_ssl_written (w : tls_world) (ret : Z) :
  tw_set_fd w <> 0 ->
  ssl_connect_loop (tw_connects w) = Some (true, ret) ->
  server_negotiate_ssl w = Some (true, [SslWrite cover_request]).
Proof.
  intros Hfd Hloop. unfold server_negotiate_ssl.
  destruct (Z.eqb_spec (tw_set_fd w) 0) as [E | _]; [contradiction |].
  rewrite Hloop. simpl. rewrite DWORD_never_negative. reflexivity.
Qed.

(** C5, on the code: the handshake completes and the write of the request
    returns 0, then -1; the request is written once in both runs, and both
    negotiations return success: the negative result of the write does not
    make the second one fail. *)
Theorem server_negotiate_ssl_negative_write :
  ssl_connect_loop (tw_connects Scenario.tls_write_zero) = Some (true, 1) /\
  tw_write Scenario.tls_write_zero = 0 /\
  server_negotiate_ssl Scenario.tls_write_zero
  = Some (true, [SslWrite cover_request]) /\
  ssl_connect_loop (tw_connects Scenario.tls_write_failed) = Some (true, 1) /\
  tw_write Scenario.tls_write_failed = -1 /\
  server_negotiate_ssl Scenario.tls_write_failed
  = Some (true, [SslWrite cover_request]).
Proof.
  repeat split;
    try apply (server_negotiate_ssl_written _ 1); try reflexivity; discriminate.
Qed.

(** ** The reverse-connect retry loop *)

Section Retry.

Variables reverseSocket retryTotal retryWait expiry start : Z.

Hypothesis retryWait_ms : 0 <= retryWait * 1000 < 2 ^ 32.

Lemma elapsed_DWORD (now : Z) :
  0 <= start <= now -> now < 2 ^ 32 ->
  DWORD (DWORD now - DWORD start) = now - start.
Proof.
  intros Hs Hn. rewrite (DWORD_small now), (DWORD_small start) by lia.
  apply DWORD_small. lia.
Qed.

Lemma reverse_tcp_loop_goes_round (a : attempt) (rest : list attempt) :
  goes_round retryTotal expiry start a ->
  reverse_tcp_loop reverseSocket retryTotal retryWait expiry start (a :: rest)
  = '(r, calls) ← reverse_tcp_loop reverseSocket retryTotal retryWait expiry
                    start rest;
    Some (r, Connect reverseSocket :: Sleep (retryWait * 1000) :: calls).
Proof.
  intros (Hc & Hn & Hs & Hlt & He). simpl. rewrite Hc, Z.eqb_refl. simpl.
  destruct (Z.geb_spec (at_now a) expiry); [lia |].
  rewrite elapsed_DWORD by lia.
  destruct (Z.ltb_spec (at_after a - start) retryTotal); [| lia].
  rewrite (DWORD_small (retryWait * 1000)) by lia. reflexivity.
Qed.

Lemma reverse_tcp_loop_rounds (turns : list attempt) (rest : list attempt) :
  Forall (goes_round retryTotal expiry start) turns ->
  reverse_tcp_loop reverseSocket retryTotal retryWait expiry start (turns ++ rest)
  = '(r, calls) ← reverse_tcp_loop reverseSocket retryTotal retryWait expiry
                    start rest;
    Some (r, rounds_calls reverseSocket retryWait turns ++ calls).
Proof.
  induction 1 as [| a turns Ha _ IH].
  - simpl. destruct (reverse_tcp_loop _ _ _ _ _ rest) as [[r calls]|]; reflexivity.
  - change ((a :: turns) ++ rest) with (a :: (turns ++ rest)).
    rewrite (reverse_tcp_loop_goes_round a _ Ha), IH.
    destruct (reverse_tcp_loop _ _ _ _ _ rest) as [[r calls]|]; reflexivity.
Qed.

(** C6: after any number of turns that went round, the loop returns
    success at the first connect that succeeds, without closing the socket;
    at a failed connect it stops when the clock has reached [expiry], and,
    after sleeping [retryWait] seconds, when the time elapsed since the
    start has reached [retryTotal]; in both cases it closes the socket and
    returns the failure.  Between two connects it sleeps [retryWait]
    seconds. *)
Theorem reverse_tcp_run_retries (turns : list attempt) (a : attempt)
    (rest : list attempt) :
  Forall (goes_round retryTotal expiry start) turns ->
  0 <= start <= at_after a -> at_after a < 2 ^ 32 ->
  let run :=
    reverse_tcp_run reverseSocket retryTotal retryWait expiry start
      (turns ++ a :: rest) in
  (at_connect a = 0 ->
     run = Some (ERROR_SUCCESS, rounds_calls reverseSocket retryWait turns ++ [Connect reverseSocket])) /\
  (at_connect a = SOCKET_ERROR -> expiry <= at_now a ->
     run = Some (DWORD SOCKET_ERROR,
                 rounds_calls reverseSocket retryWait turns
                 ++ [Connect reverseSocket; CloseSocket reverseSocket])) /\
  (at_connect a = SOCKET_ERROR -> at_now a < expiry ->
   retryTotal <= at_after a - start ->
     run = Some (DWORD SOCKET_ERROR,
                 rounds_calls reverseSocket retryWait turns
                 ++ [Connect reverseSocket; Sleep (retryWait * 1000);
                     CloseSocket reverseSocket])).
Proof.
  intros Hturns Hs Hlt run. subst run. unfold reverse_tcp_run.
  rewrite (reverse_tcp_loop_rounds turns (a :: rest) Hturns).
  repeat split.
  - intros Hc. simpl. rewrite Hc. reflexivity.
  - intros Hc He. simpl. rewrite Hc. simpl.
    destruct (Z.geb_spec (at_now a) expiry); [| lia]. simpl.
    rewrite <- app_assoc. reflexivity.
  - intros Hc He Ht. simpl. rewrite Hc. simpl.
    destruct (Z.geb_spec (at_now a) expiry); [lia |].
    rewrite elapsed_DWORD by lia.
    destruct (Z.ltb_spec (at_after a - start) retryTotal); [lia |]. simpl.
    rewrite (DWORD_small (retryWait * 1000)) by lia.
    rewrite <- app_assoc. reflexivity.
Qed.

End Retry.

Lemma reverse_tcp_run_retries_witness :
  reverse_tcp_run 7 5 1 200 100 Scenario.refused_then_accepted
  = Some (ERROR_SUCCESS,
          [Connect 7; Sleep 1000; Connect 7; Sleep 1000; Connect 7]) /\
  reverse_tcp_run 7 5 1 200 100 Scenario.refused_until_expiry
  = Some (DWORD SOCKET_ERROR,
          [Connect 7; Sleep 1000; Connect 7; CloseSocket 7]) /\
  reverse_tcp_run 7 5 1 200 100 Scenario.refused_until_budget
  = Some (DWORD SOCKET_ERROR,
          [Connect 7; Sleep 1000; Connect 7; Sleep 1000; CloseSocket 7]).
Proof.
  assert (Hw : 0 <= 1 * 1000 < 2 ^ 32) by lia.
  split; [| split].
  - apply (reverse_tcp_run_retries 7 5 1 200 100 Hw
             [mk_attempt (-1) 100 101; mk_attempt (-1) 101 102]
             (mk_attempt 0 102 102) []).
    + repeat constructor; simpl; lia.
    + simpl. lia.
    + simpl. lia.
    + reflexivity.
  - apply (reverse_tcp_run_retries 7 5 1 200 100 Hw
             [mk_attempt (-1) 100 101] (mk_attempt (-1) 200 201) []).
    + repeat constructor; simpl; lia.
    + simpl. lia.
    + simpl. lia.
    + reflexivity.
    + simpl. lia.
  - apply (reverse_tcp_run_retries 7 5 1 200 100 Hw
             [mk_attempt (-1) 100 101] (mk_attempt (-1) 101 105) []).
    + repeat constructor; simpl; lia.
    + simpl. lia.
    + simpl. lia.
    + reflexivity.
    + simpl. lia.
    + simpl. lia.
Defined.

(** ** The dispatch loop *)

Lemma dispatch_loop_waits (transport : Transport) (lastPacket result : Z)
    (waiting rest : list tick) :
  Forall (keeps_waiting transport lastPacket) waiting ->
  dispatch_loop transport lastPacket result (waiting ++ rest)
  = dispatch_loop transport lastPacket
      (match waiting with [] => result | _ => 0 end) rest.
Proof.
  intros Hw. revert result.
  induction Hw as [| k waiting (Hs & Hp & He & Hc) _ IH]; intros result.
  - reflexivity.
  - change ((k :: waiting) ++ rest) with (k :: (waiting ++ rest)).
    cbn [dispatch_loop]. rewrite Hs, Hp. cbn.
    destruct (Z.gtb_spec (tk_now k) (expiration_end transport)); [lia |].
    destruct (Z.gtb_spec (tk_now k - lastPacket) (comms (timeouts transport)));
      [lia |].
    cbn. rewrite IH. destruct waiting; reflexivity.
Qed.

(** C7: in a turn of the dispatch loop where the poll returns 0 and the
    session has expired or no packet has come for longer than
    [timeouts.comms], the loop is left with success and the command handler
    is not called in that turn; a session that sees no packet at all leaves
    the dispatcher with success without a single call of the handler. *)
Theorem server_dispatch_tcp_times_out (transport : Transport)
    (lastPacket result : Z) (k : tick) (rest : list tick) :
  tk_sigterm k = false -> tk_poll k = 0 ->
  timed_out transport lastPacket (tk_now k) ->
  dispatch_loop transport lastPacket result (k :: rest)
  = Some (ERROR_SUCCESS, []) /\
  (forall waiting,
     Forall (keeps_waiting transport lastPacket) waiting ->
     server_dispatch_tcp transport ERROR_SUCCESS lastPacket (waiting ++ k :: rest)
     = Some (ERROR_SUCCESS, [SchedulerDestroy; CommandJoinThreads])).
Proof.
  intros Hs Hp Ht.
  assert (Hexit : forall r,
    dispatch_loop transport lastPacket r (k :: rest) = Some (ERROR_SUCCESS, [])).
  { intros r. cbn [dispatch_loop]. rewrite Hs, Hp. cbn.
    destruct Ht as [Ht | Ht].
    - destruct (Z.gtb_spec (tk_now k) (expiration_end transport)); [| lia].
      reflexivity.
    - destruct (Z.gtb_spec (tk_now k - lastPacket) (comms (timeouts transport)));
        [| lia].
      rewrite orb_true_r. reflexivity. }
  split; [apply Hexit |].
  intros waiting Hw. unfold server_dispatch_tcp. cbn.
  rewrite (dispatch_loop_waits transport lastPacket _ waiting (k :: rest) Hw).
  rewrite Hexit. reflexivity.
Qed.

Lemma server_dispatch_tcp_times_out_witness :
  comms (timeouts Scenario.quiet_transport) = 10 /\
  server_dispatch_tcp Scenario.quiet_transport ERROR_SUCCESS 1000
    Scenario.quiet_line
  = Some (ERROR_SUCCESS, [SchedulerDestroy; CommandJoinThreads]).
Proof.
  split; [reflexivity |].
  apply (server_dispatch_tcp_times_out Scenario.quiet_transport 1000 0
           (mk_tick false 0 (0, []) true 1011) [])
    with (waiting := [mk_tick false 0 (0, []) true 1005]).
  - reflexivity.
  - reflexivity.
  - right. simpl. lia.
  - repeat constructor; simpl; lia.
Defined.

(** ** The establishment entry points *)

(** C10: each of [reverse_tcp4], [reverse_tcp6] and [bind_tcp] leaves in
    the socket buffer of the caller either 0 or, with a success status, the
    handle it established; what the buffer held before the call plays no
    part, and whenever the status is not success the buffer is 0. *)
Theorem establishment_socket_buffer :
  (forall w retryTotal retryWait expiry stale,
     reverse_tcp4 w retryTotal retryWait expiry stale
     = reverse_tcp4 w retryTotal retryWait expiry 0 /\
     forall status buffer calls,
       reverse_tcp4 w retryTotal retryWait expiry stale
       = Some (status, buffer, calls) ->
       (status <> ERROR_SUCCESS -> buffer = 0) /\
       (buffer <> 0 -> status = ERROR_SUCCESS /\ buffer = w4_socket w)) /\
  (forall w retryTotal retryWait expiry stale,
     reverse_tcp6 w retryTotal retryWait expiry stale
     = reverse_tcp6 w retryTotal retryWait expiry 0 /\
     forall status buffer calls,
       reverse_tcp6 w retryTotal retryWait expiry stale
       = Some (status, buffer, calls) ->
       (status <> ERROR_SUCCESS -> buffer = 0) /\
       (buffer <> 0 -> status = ERROR_SUCCESS /\ buffer = w6_socket w)) /\
  (forall w stale,
     bind_tcp w stale = bind_tcp w 0 /\
     forall status buffer calls,
       bind_tcp w stale = (status, buffer, calls) ->
       (status <> ERROR_SUCCESS -> buffer = 0) /\
       (buffer <> 0 -> status = ERROR_SUCCESS /\ buffer = wb_accept w)).
Proof.
  split; [| split].
  - intros w retryTotal retryWait expiry stale. split; [reflexivity |].
    intros status buffer calls. unfold reverse_tcp4.
    destruct (negb (w4_startup w =? 0)).
    { intros [= <- <- <-]. split; [reflexivity | congruence]. }
    destruct (negb (w4_resolved w)); [discriminate |].
    destruct (reverse_tcp_run _ _ _ _ _ _) as [[result cs]|]; [| discriminate].
    simpl. destruct (Z.eqb_spec result ERROR_SUCCESS) as [E | E].
    + intros [= <- <- <-]. split; [congruence | auto].
    + intros [= <- <- <-]. split; [reflexivity | congruence].
  - intros w retryTotal retryWait expiry stale. split; [reflexivity |].
    intros status buffer calls. unfold reverse_tcp6.
    destruct (negb (w6_startup w =? 0)).
    { intros [= <- <- <-]. split; [reflexivity | congruence]. }
    destruct (negb (w6_getaddrinfo w =? 0)).
    { intros [= <- <- <-]. split; [reflexivity | congruence]. }
    destruct (w6_socket w =? INVALID_SOCKET).
    { intros [= <- <- <-]. split; [reflexivity | congruence]. }
    destruct (reverse_tcp6_loop _ _ _ _ _ _ _) as [[cs | [result cs]]|];
      [| | discriminate].
    + intros [= <- <- <-]. split; [congruence | auto].
    + intros [= <- <- <-]. split; [reflexivity | congruence].
  - intros w stale. split; [reflexivity |].
    intros status buffer calls. unfold bind_tcp, bind_tcp_run.
    destruct (negb (wb_startup w =? 0)).
    { intros [= <- <- <-]. split; [reflexivity | congruence]. }
    destruct (wb_socket6 w =? INVALID_SOCKET), (wb_setsockopt w =? SOCKET_ERROR),
      (wb_bind w =? SOCKET_ERROR), (wb_listen w =? SOCKET_ERROR),
      (wb_accept w =? INVALID_SOCKET);
      intros [= <- <- <-]; split; auto; congruence.
Qed.

Lemma establishment_socket_buffer_witness :
  match reverse_tcp4 Scenario.refused4 5 1 200 77 with
  | Some (status, buffer, _) => status <> ERROR_SUCCESS /\ buffer = 0
  | None => False
  end /\
  match reverse_tcp6 Scenario.unresolved6 5 1 200 77 with
  | Some (status, buffer, _) => status <> ERROR_SUCCESS /\ buffer = 0
  | None => False
  end /\
  match reverse_tcp6 Scenario.refused6 5 1 200 77 with
  | Some (status, buffer, _) => status <> ERROR_SUCCESS /\ buffer = 0
  | None => False
  end /\
  match bind_tcp Scenario.nobody_accepted 77 with
  | (status, buffer, _) => status <> ERROR_SUCCESS /\ buffer = 0
  end.
Proof.
  destruct establishment_socket_buffer as (H4 & H6 & Hb).
  split; [| split; [| split]].
  - destruct (H4 Scenario.refused4 5 1 200 77) as (_ & H).
    destruct (reverse_tcp4 Scenario.refused4 5 1 200 77)
      as [[[status buffer] calls]|] eqn:E; [| discriminate E].
    assert (Hs : status <> ERROR_SUCCESS).
    { vm_compute in E. injection E as <- _ _. discriminate. }
    split; [exact Hs | apply (H status buffer calls eq_refl), Hs].
  - destruct (H6 Scenario.unresolved6 5 1 200 77) as (_ & H).
    destruct (reverse_tcp6 Scenario.unresolved6 5 1 200 77)
      as [[[status buffer] calls]|] eqn:E; [| discriminate E].
    assert (Hs : status <> ERROR_SUCCESS).
    { vm_compute in E. injection E as <- _ _. discriminate. }
    split; [exact Hs | apply (H status buffer calls eq_refl), Hs].
  - destruct (H6 Scenario.refused6 5 1 200 77) as (_ & H).
    destruct (reverse_tcp6 Scenario.refused6 5 1 200 77)
      as [[[status buffer] calls]|] eqn:E; [| discriminate E].
    assert (Hs : status <> ERROR_SUCCESS).
    { vm_compute in E. injection E as <- _ _. discriminate. }
    split; [exact Hs | apply (H status buffer calls eq_refl), Hs].
  - destruct (Hb Scenario.nobody_accepted 77) as (_ & H).
    destruct (bind_tcp Scenario.nobody_accepted 77)
      as [[status buffer] calls] eqn:E.
    assert (Hs : status <> ERROR_SUCCESS).
    { vm_compute in E. injection E as <- _ _. discriminate. }
    split; [exact Hs | apply (H status buffer calls eq_refl), Hs].
Defined.

(** ** Receive *)

(** A read stores as many bytes as it returns, at most as many as asked
    for, and a read that stores nothing returns 0 or less. *)
Lemma SSL_read_stores (num lastError : Z) (s : list chunk)
    (bytesRead : Z) (data : list Z) (lastError' : Z) (s' : list chunk) :
  0 <= num ->
  SSL_read num lastError s = Some (bytesRead, data, lastError', s') ->
  (0 < bytesRead -> bytesRead = Z.of_nat (length data)) /\
  Z.of_nat (length data) <= num.
Proof.
  intros Hnum. unfold SSL_read.
  destruct s as [| [bs | n e] rest]; [discriminate | |].
  - intros [= <- <- <- <-]. split; [reflexivity |].
    rewrite length_take. lia.
  - intros [= <- <- <- <-]. simpl. split; lia.
Qed.

(** The payload loop ends with as many bytes as were left to read. *)
Lemma read_payload_length (fuel : nat) :
  forall (payloadLength left : Z) (buf : list Z) (lastError : Z)
         (s : list chunk) (body : list Z) (lastError' : Z) (s' : list chunk),
    0 <= left < 2 ^ 32 ->
    read_payload fuel payloadLength left buf lastError s
    = Some (Some body, lastError', s') ->
    Z.of_nat (length body) = Z.of_nat (length buf) + left.
Proof.
  induction fuel as [| fuel IH]; intros L left buf le s body le' s' Hleft;
    [discriminate |].
  cbn [read_payload].
  destruct (Z.gtb_spec left 0) as [Hpos | Hzero].
  - destruct (Z.leb_spec (INT left) 0) as [_ | Hint]; [discriminate |].
    rewrite (INT_positive left Hleft Hint).
    destruct (SSL_read left le s) as [[[[bytesRead data] le1] s1]|] eqn:Hread;
      [| discriminate].
    destruct (SSL_read_stores left le s _ _ _ _ ltac:(lia) Hread) as (Hn & Hle).
    cbn [mbind option_bind].
    destruct (Z.leb_spec bytesRead 0) as [_ | Hgot].
    + destruct (le1 =? WSAEWOULDBLOCK); [| discriminate].
      intros H. apply (IH _ _ _ _ _ _ _ _ Hleft H).
    + specialize (Hn Hgot).
      intros H. apply IH in H.
      * rewrite H, length_app, DWORD_small by lia. lia.
      * rewrite DWORD_small by lia. lia.
  - intros [= <- <- <-]. lia.
Qed.

(** A read loop that gives up leaves [ERROR_NOT_FOUND] as the last error. *)
Lemma read_header_failure (fuel : nat) :
  forall (headerBytes : Z) (buf : list Z) (lastError : Z) (s : list chunk)
         (lastError' : Z) (s' : list chunk),
    read_header fuel headerBytes buf lastError s = Some (None, lastError', s') ->
    lastError' = ERROR_NOT_FOUND.
Proof.
  induction fuel as [| fuel IH]; intros hb buf le s le' s'; [discriminate |].
  cbn [read_header].
  destruct (SSL_read _ _ _) as [[[[b d] l] s1]|]; [| discriminate].
  cbn [mbind option_bind].
  destruct (b <=? 0); [intros H; inversion H; reflexivity |].
  destruct (negb _); [apply IH | discriminate].
Qed.

Lemma read_payload_failure (fuel : nat) :
  forall (payloadLength left : Z) (buf : list Z) (lastError : Z)
         (s : list chunk) (lastError' : Z) (s' : list chunk),
    read_payload fuel payloadLength left buf lastError s
    = Some (None, lastError', s') ->
    lastError' = ERROR_NOT_FOUND.
Proof.
  induction fuel as [| fuel IH]; intros L left buf le s le' s'; [discriminate |].
  cbn [read_payload].
  destruct (left >? 0); [| discriminate].
  destruct (INT left <=? 0); [discriminate |].
  destruct (SSL_read _ _ _) as [[[[b d] l] s1]|]; [| discriminate].
  cbn [mbind option_bind].
  destruct (b <=? 0).
  - destruct (l =? WSAEWOULDBLOCK); [apply IH | intros H; inversion H; reflexivity].
  - apply IH.
Qed.

(** What a successful receive went through: the header, the payload of the
    length the header gives, and either no cipher call, the payload being
    handed over as read, or one call of [decrypt] on it. *)
Lemma packet_receive_via_ssl_success (PLAIN_REQUEST PLAIN_RESPONSE : Z)
    (fuel : nat) (w : recv_world) (result : option Packet) (calls : list call) :
  packet_receive_via_ssl PLAIN_REQUEST PLAIN_RESPONSE fuel w
  = Some (ERROR_SUCCESS, result, calls) ->
  exists (hdr body : list Z),
    let header := mk_header (dword_at hdr) (dword_at (drop 4 hdr)) in
    let payloadLength := DWORD (ntohl (hdr_length header) - sizeof_TlvHeader) in
    Z.of_nat (length body) = payloadLength /\
    ((calls = [] /\ result = Some (mk_packet header body payloadLength) /\
      (rw_cipher w = None \/ PLAIN_REQUEST = 0 \/ PLAIN_RESPONSE = 0)) \/
     (exists crypto res plain plainLength,
        rw_cipher w = Some crypto /\
        PLAIN_REQUEST <> 0 /\ PLAIN_RESPONSE <> 0 /\
        decrypt crypto body payloadLength = (res, plain, plainLength) /\
        calls = [Decrypt body] /\
        result = Some (mk_packet header plain (DWORD plainLength)))).
Proof.
  unfold packet_receive_via_ssl.
  destruct (read_header fuel 0 [] (rw_last_error w) (rw_stream w))
    as [[[[hdr |] le1] s1]|] eqn:Hh; cbn [mbind option_bind];
    [| | discriminate].
  2: { rewrite (read_header_failure _ _ _ _ _ _ _ Hh). discriminate. }
  set (header := mk_header (dword_at hdr) (dword_at (drop 4 hdr))).
  set (L := DWORD (ntohl (hdr_length header) - sizeof_TlvHeader)).
  destruct (rw_malloc w L); cbn [negb]; [| discriminate].
  destruct (read_payload fuel L L [] le1 s1) as [[[[body |] le2] s2]|] eqn:Hp;
    cbn [mbind option_bind]; [| | discriminate].
  2: { rewrite (read_payload_failure _ _ _ _ _ _ _ _ Hp). discriminate. }
  assert (Hlen : Z.of_nat (length body) = L).
  { pose proof (read_payload_length fuel L L [] le1 s1 body le2 s2
                  (DWORD_range _) Hp) as H. simpl in H. exact H. }
  destruct (rw_malloc_packet w); cbn [negb]; [| discriminate].
  destruct (rw_cipher w) as [crypto |] eqn:Hc.
  - change (packet_get_type packet_zero) with 0.
    destruct (Z.eqb_spec 0 PLAIN_REQUEST) as [E1 | N1]; cbn [negb andb].
    { intros [= <- <-]. exists hdr, body. split; [exact Hlen |]. left. auto. }
    destruct (Z.eqb_spec 0 PLAIN_RESPONSE) as [E2 | N2]; cbn [negb andb].
    { intros [= <- <-]. exists hdr, body. split; [exact Hlen |]. left. auto. }
    destruct (decrypt crypto body L) as [[res plain] plainLength] eqn:Hd.
    destruct (DWORD res =? ERROR_SUCCESS) eqn:Hres; cbn [negb].
    + intros [= <- <-]. exists hdr, body. split; [exact Hlen |]. right.
      exists crypto, res, plain, plainLength.
      split; [reflexivity |]. split; [congruence |]. split; [congruence |].
      split; [exact Hd |]. split; reflexivity.
    + intros [= E]. apply Z.eqb_neq in Hres. congruence.
  - intros [= <- <-]. exists hdr, body. split; [exact Hlen |]. left. auto.
Qed.

(** With a cipher on the remote the payload of every packet received goes
    through [decrypt]: the test looks at the type of the packet structure
    just zeroed, which is 0, and never at the type read from the wire. *)
Lemma packet_receive_via_ssl_always_decrypts (PLAIN_REQUEST PLAIN_RESPONSE : Z)
    (fuel : nat) (w : recv_world) (crypto : CryptoContext)
    (result : option Packet) (calls : list call) :
  PLAIN_REQUEST <> 0 -> PLAIN_RESPONSE <> 0 ->
  rw_cipher w = Some crypto ->
  packet_receive_via_ssl PLAIN_REQUEST PLAIN_RESPONSE fuel w
  = Some (ERROR_SUCCESS, result, calls) ->
  exists body, calls = [Decrypt body].
Proof.
  intros H1 H2 Hc Hrun.
  destruct (packet_receive_via_ssl_success _ _ _ _ _ _ Hrun)
    as (hdr & body & _ & [(_ & _ & [E | [E | E]]) | (c & r & pl & n & _ & _ & _ & _ & Hcalls & _)]);
    try congruence.
  exists body. exact Hcalls.
Qed.

(** C2, on the code: a frame whose type on the wire is that of a plain
    request arrives at a remote that has a cipher; the receive passes its
    payload to [decrypt] and hands over the decrypted bytes. *)
Theorem packet_receive_via_ssl_decrypts_plain_request :
  packet_receive_via_ssl Scenario.PLAIN_REQUEST Scenario.PLAIN_RESPONSE 8
    (Scenario.ciphered_remote Scenario.xor_cipher)
  = Some (ERROR_SUCCESS,
          Some (mk_packet (mk_header (htonl 12) (htonl Scenario.PLAIN_REQUEST))
                  (map (Z.lxor 85) ping) 4),
          [Decrypt ping]) /\
  packet_get_type (mk_packet (mk_header (htonl 12) (htonl Scenario.PLAIN_REQUEST))
                     (map (Z.lxor 85) ping) 4)
  = Scenario.PLAIN_REQUEST.
Proof. split; vm_compute; reflexivity. Qed.

(** What a read takes off the wire is what it stores. *)
Lemma SSL_read_delivered (num lastError : Z) (s : list chunk)
    (bytesRead : Z) (data : list Z) (lastError' : Z) (s' : list chunk) :
  SSL_read num lastError s = Some (bytesRead, data, lastError', s') ->
  delivered s = data ++ delivered s' /\ (bytesRead <= 0 -> data = []).
Proof.
  unfold SSL_read. destruct s as [| [bs | n e] rest]; [discriminate | |].
  - intros [= <- <- <- <-]. split.
    + cbn [delivered]. rewrite <- (take_drop (Z.to_nat num) bs) at 1.
      destruct (drop (Z.to_nat num) bs) as [| b left].
      * rewrite app_nil_r. reflexivity.
      * cbn [delivered]. rewrite <- app_assoc. reflexivity.
    + intros Hnone. apply nil_length_inv. lia.
  - intros [= <- <- <- <-]. split; reflexivity.
Qed.

(** The header loop ends with the eight bytes that came first. *)
Lemma read_header_delivered (fuel : nat) :
  forall (headerBytes : Z) (buf : list Z) (lastError : Z) (s : list chunk)
         (hdr : list Z) (lastError' : Z) (s' : list chunk),
    0 <= headerBytes < sizeof_TlvHeader -> headerBytes = Z.of_nat (length buf) ->
    read_header fuel headerBytes buf lastError s = Some (Some hdr, lastError', s') ->
    exists data,
      hdr = buf ++ data /\ delivered s = data ++ delivered s' /\
      length hdr = 8%nat.
Proof.
  unfold sizeof_TlvHeader.
  induction fuel as [| fuel IH]; intros hb buf le s hdr le' s' Hhb Hbuf;
    [discriminate |].
  cbn [read_header]. unfold sizeof_TlvHeader.
  destruct (SSL_read (8 - hb) le s) as [[[[bytesRead data] le1] s1]|] eqn:Hread;
    [| discriminate].
  destruct (SSL_read_stores (8 - hb) le s _ _ _ _ ltac:(lia) Hread) as (Hn & Hmost).
  destruct (SSL_read_delivered _ _ _ _ _ _ _ Hread) as (Hwire & _).
  cbn [mbind option_bind].
  destruct (Z.leb_spec bytesRead 0) as [_ | Hgot]; [discriminate |].
  specialize (Hn Hgot).
  assert (Hsum : 0 <= hb + bytesRead < 2 ^ 32)
    by (change (2 ^ 32) with 4294967296; lia).
  rewrite (DWORD_small _ Hsum).
  destruct (Z.eqb_spec (hb + bytesRead) 8) as [Hfull | Hpart]; cbn [negb].
  - intros [= <- <- <-]. exists data. split; [reflexivity |].
    split; [exact Hwire |]. rewrite length_app. lia.
  - intros Hloop.
    destruct (IH (hb + bytesRead) (buf ++ data) le1 s1 hdr le' s'
                ltac:(lia) ltac:(rewrite length_app; lia) Hloop)
      as (data' & -> & Hwire' & Hlen).
    exists (data ++ data'). rewrite <- app_assoc. split; [reflexivity |].
    split; [| rewrite app_assoc; exact Hlen].
    rewrite Hwire, Hwire', <- app_assoc. reflexivity.
Qed.

(** The payload loop ends with the bytes that came next. *)
Lemma read_payload_delivered (fuel : nat) :
  forall (payloadLength left : Z) (buf : list Z) (lastError : Z)
         (s : list chunk) (body : list Z) (lastError' : Z) (s' : list chunk),
    read_payload fuel payloadLength left buf lastError s
    = Some (Some body, lastError', s') ->
    exists data, body = buf ++ data /\ delivered s = data ++ delivered s'.
Proof.
  induction fuel as [| fuel IH]; intros L left buf le s body le' s';
    [discriminate |].
  cbn [read_payload].
  destruct (left >? 0).
  2: { intros [= <- <- <-]. exists []. rewrite app_nil_r. auto. }
  destruct (INT left <=? 0); [discriminate |].
  destruct (SSL_read (INT left) le s) as [[[[bytesRead data] le1] s1]|] eqn:Hread;
    [| discriminate].
  destruct (SSL_read_delivered _ _ _ _ _ _ _ Hread) as (Hwire & Hnone).
  cbn [mbind option_bind].
  destruct (Z.leb_spec bytesRead 0) as [Hle | _].
  - rewrite (Hnone Hle) in Hwire.
    destruct (le1 =? WSAEWOULDBLOCK); [| discriminate].
    intros Hloop. destruct (IH _ _ _ _ _ _ _ _ Hloop) as (data' & -> & Hwire').
    exists data'. split; [reflexivity |]. rewrite Hwire. exact Hwire'.
  - intros Hloop. destruct (IH _ _ _ _ _ _ _ _ Hloop) as (data' & -> & Hwire').
    exists (data ++ data'). rewrite <- app_assoc. split; [reflexivity |].
    rewrite Hwire, Hwire', <- app_assoc. reflexivity.
Qed.

(** Eight bytes stored as a header lie in memory as they came. *)
Lemma header_bytes_stored (hdr : list Z) :
  length hdr = 8%nat -> Forall is_byte hdr ->
  header_bytes (mk_header (dword_at hdr) (dword_at (drop 4 hdr))) = hdr /\
  ntohl (dword_at hdr) = be32_at hdr.
Proof.
  intros Hlen Hbytes.
  do 8 (destruct hdr as [| ? hdr]; [discriminate Hlen |]).
  destruct hdr; [| discriminate Hlen].
  repeat match goal with
         | H : Forall is_byte (_ :: _) |- _ =>
             apply Forall_cons in H; destruct H as [? H]
         end.
  split; [| apply ntohl_dword_at; assumption].
  unfold header_bytes, dword_bytes. cbn [hdr_length hdr_type drop dword_at].
  replace (z + 2 ^ 8 * z0 + 2 ^ 16 * z1 + 2 ^ 24 * z2)
    with (z + 256 * (z0 + 256 * (z1 + 256 * z2))) by lia.
  replace (z3 + 2 ^ 8 * z4 + 2 ^ 16 * z5 + 2 ^ 24 * z6)
    with (z3 + 256 * (z4 + 256 * (z5 + 256 * z6))) by lia.
  destruct (byte_of_compose z z0 z1 z2) as (-> & -> & -> & ->); try assumption.
  destruct (byte_of_compose z3 z4 z5 z6) as (-> & -> & -> & ->); try assumption.
  reflexivity.
Qed.

(** What a successful receive took off the wire: the eight bytes that came
    first, which it stores as the header, then as many bytes as the header
    announces, which it hands over as they are or passes to [decrypt],
    once. *)
Lemma packet_receive_via_ssl_from_wire (PLAIN_REQUEST PLAIN_RESPONSE : Z)
    (fuel : nat) (w : recv_world) (result : option Packet) (calls : list call) :
  packet_receive_via_ssl PLAIN_REQUEST PLAIN_RESPONSE fuel w
  = Some (ERROR_SUCCESS, result, calls) ->
  exists (hdr body rest : list Z),
    delivered (rw_stream w) = hdr ++ body ++ rest /\ length hdr = 8%nat /\
    let header := mk_header (dword_at hdr) (dword_at (drop 4 hdr)) in
    let payloadLength := DWORD (ntohl (hdr_length header) - sizeof_TlvHeader) in
    Z.of_nat (length body) = payloadLength /\
    ((calls = [] /\ result = Some (mk_packet header body payloadLength) /\
      (rw_cipher w = None \/ PLAIN_REQUEST = 0 \/ PLAIN_RESPONSE = 0)) \/
     (exists crypto res plain plainLength,
        rw_cipher w = Some crypto /\
        decrypt crypto body payloadLength = (res, plain, plainLength) /\
        DWORD res = ERROR_SUCCESS /\
        calls = [Decrypt body] /\
        result = Some (mk_packet header plain (DWORD plainLength)))).
Proof.
  unfold packet_receive_via_ssl.
  destruct (read_header fuel 0 [] (rw_last_error w) (rw_stream w))
    as [[[[hdr |] le1] s1]|] eqn:Hh; cbn [mbind option_bind];
    [| | discriminate].
  2: { rewrite (read_header_failure _ _ _ _ _ _ _ Hh). discriminate. }
  destruct (read_header_delivered fuel 0 [] _ _ _ _ _
              ltac:(unfold sizeof_TlvHeader; lia) eq_refl Hh)
    as (data1 & Hhdr & Hwire1 & Hlen1).
  cbn [app] in Hhdr. subst data1.
  set (header := mk_header (dword_at hdr) (dword_at (drop 4 hdr))).
  set (L := DWORD (ntohl (hdr_length header) - sizeof_TlvHeader)).
  destruct (rw_malloc w L); cbn [negb]; [| discriminate].
  destruct (read_payload fuel L L [] le1 s1) as [[[[body |] le2] s2]|] eqn:Hp;
    cbn [mbind option_bind]; [| | discriminate].
  2: { rewrite (read_payload_failure _ _ _ _ _ _ _ _ Hp). discriminate. }
  assert (Hlen : Z.of_nat (length body) = L).
  { pose proof (read_payload_length fuel L L [] le1 s1 body le2 s2
                  (DWORD_range _) Hp) as H. simpl in H. exact H. }
  destruct (read_payload_delivered fuel _ _ _ _ _ _ _ _ Hp)
    as (data2 & Hbody & Hwire2).
  cbn [app] in Hbody. subst data2.
  assert (Hwire : delivered (rw_stream w) = hdr ++ body ++ delivered s2).
  { rewrite Hwire1, Hwire2. reflexivity. }
  destruct (rw_malloc_packet w); cbn [negb]; [| discriminate].
  destruct (rw_cipher w) as [crypto |] eqn:Hc.
  - change (packet_get_type packet_zero) with 0.
    destruct (Z.eqb_spec 0 PLAIN_REQUEST) as [E1 | N1]; cbn [negb andb].
    { intros [= <- <-]. exists hdr, body, (delivered s2).
      split; [exact Hwire |]. split; [exact Hlen1 |]. split; [exact Hlen |].
      left. auto. }
    destruct (Z.eqb_spec 0 PLAIN_RESPONSE) as [E2 | N2]; cbn [negb andb].
    { intros [= <- <-]. exists hdr, body, (delivered s2).
      split; [exact Hwire |]. split; [exact Hlen1 |]. split; [exact Hlen |].
      left. auto. }
    destruct (decrypt crypto body L) as [[res plain] plainLength] eqn:Hd.
    destruct (Z.eqb_spec (DWORD res) ERROR_SUCCESS) as [Hres | Hres];
      cbn [negb].
    + intros [= <- <-]. exists hdr, body, (delivered s2).
      split; [exact Hwire |]. split; [exact Hlen1 |]. split; [exact Hlen |].
      right. exists crypto, res, plain, plainLength. auto 6.
    + intros [= E]. congruence.
  - intros [= <- <-]. exists hdr, body, (delivered s2).
    split; [exact Hwire |]. split; [exact Hlen1 |]. split; [exact Hlen |].
    left. auto.
Qed.

(** C8, as stated, fails: a frame of a type that is enciphered arrives,
    its header announces 12 - 8 = 4 bytes of payload, the cipher of the
    remote takes one byte of padding off, and the packet handed over has a
    [payloadLength] of 3. *)
Lemma packet_receive_via_ssl_length_counterexample :
  exists p calls,
    packet_receive_via_ssl Scenario.PLAIN_REQUEST Scenario.PLAIN_RESPONSE 8
      (Scenario.enciphered_remote Scenario.padding_cipher)
    = Some (ERROR_SUCCESS, Some p, calls) /\
    packet_get_type p <> Scenario.PLAIN_REQUEST /\
    packet_get_type p <> Scenario.PLAIN_RESPONSE /\
    ntohl (hdr_length (header p)) - sizeof_TlvHeader = 4 /\
    payloadLength p = 3 /\ length (payload p) = 3%nat /\
    payloadLength p <> ntohl (hdr_length (header p)) - sizeof_TlvHeader.
Proof.
  eexists _, _. split; [vm_compute; reflexivity |].
  repeat split; vm_compute; congruence.
Qed.

(** C8, amended: a receive that returns success has taken off the wire its
    first eight bytes and the bytes that follow them, as many as the
    length field of these eight bytes, in host order, less the size of the
    header (in 32-bit arithmetic).  The packet handed over keeps the eight
    bytes as its header.  When nothing was passed to [decrypt], as is the
    case when the remote has no cipher, the bytes that follow are the
    payload and their number is [payloadLength]; when they were passed to
    [decrypt], which then succeeded, the payload and [payloadLength] are
    the buffer and the length [decrypt] gave. *)
Theorem packet_receive_via_ssl_payload_length (PLAIN_REQUEST PLAIN_RESPONSE : Z)
    (fuel : nat) (w : recv_world) (result : option Packet) (calls : list call) :
  packet_receive_via_ssl PLAIN_REQUEST PLAIN_RESPONSE fuel w
  = Some (ERROR_SUCCESS, result, calls) ->
  exists p,
    result = Some p /\
    let wire := delivered (rw_stream w) in
    let wire_header := take 8 wire in
    let announced := DWORD (ntohl (dword_at wire_header) - sizeof_TlvHeader) in
    let from_wire := take (Z.to_nat announced) (drop 8 wire) in
    length wire_header = 8%nat /\
    header p = mk_header (dword_at wire_header) (dword_at (drop 4 wire_header)) /\
    (Forall is_byte wire_header ->
     header_bytes (header p) = wire_header /\
     ntohl (hdr_length (header p)) = be32_at wire) /\
    Z.of_nat (length from_wire) = announced /\
    (sizeof_TlvHeader <= ntohl (hdr_length (header p)) ->
     announced = ntohl (hdr_length (header p)) - sizeof_TlvHeader) /\
    (rw_cipher w = None -> calls = []) /\
    (calls = [] -> payload p = from_wire /\ payloadLength p = announced) /\
    (calls <> [] ->
     exists crypto res plain plainLength,
       rw_cipher w = Some crypto /\ calls = [Decrypt from_wire] /\
       decrypt crypto from_wire announced = (res, plain, plainLength) /\
       DWORD res = ERROR_SUCCESS /\
       payload p = plain /\ payloadLength p = DWORD plainLength).
Proof.
  intros Hrun.
  destruct (packet_receive_via_ssl_from_wire _ _ _ _ _ _ Hrun)
    as (hdr & body & rest & Hwire & Hlen8 & Hlen & Hcases).
  assert (Hexact : forall x, sizeof_TlvHeader <= ntohl x ->
            DWORD (ntohl x - sizeof_TlvHeader) = ntohl x - sizeof_TlvHeader).
  { intros x Hx. apply DWORD_small. pose proof (htonl_range x).
    unfold ntohl, sizeof_TlvHeader in *. lia. }
  assert (Hhead : take 8 (delivered (rw_stream w)) = hdr).
  { rewrite Hwire. apply take_app_length'. symmetry. exact Hlen8. }
  cbn [hdr_length] in Hlen, Hcases.
  assert (Hbody : take (Z.to_nat (DWORD (ntohl (dword_at hdr) - sizeof_TlvHeader)))
                    (drop 8 (delivered (rw_stream w))) = body).
  { rewrite <- Hlen, Hwire, drop_app_length' by (symmetry; exact Hlen8).
    rewrite Nat2Z.id. apply take_app_length. }
  assert (Hbe : be32_at (delivered (rw_stream w)) = be32_at hdr).
  { rewrite Hwire. clear - Hlen8.
    do 8 (destruct hdr as [| ? hdr]; [discriminate Hlen8 |]). reflexivity. }
  cbn zeta. rewrite Hhead, Hbe, Hbody.
  destruct Hcases as [(Hcalls & Hres & Hwhy)
                     | (crypto & res & plain & n & Hc & Hd & Hok & Hcalls & Hres)].
  - eexists. split; [exact Hres |].
    cbn [header hdr_length hdr_type payload payloadLength].
    split; [exact Hlen8 |]. split; [reflexivity |].
    split; [apply header_bytes_stored; exact Hlen8 |].
    split; [exact Hlen |].
    split; [apply Hexact |].
    split; [intros _; exact Hcalls |].
    split; [intros _; split; reflexivity |].
    intros Hne. contradiction.
  - eexists. split; [exact Hres |].
    cbn [header hdr_length hdr_type payload payloadLength].
    split; [exact Hlen8 |]. split; [reflexivity |].
    split; [apply header_bytes_stored; exact Hlen8 |].
    split; [exact Hlen |].
    split; [apply Hexact |].
    split; [congruence |].
    split; [intros E; rewrite Hcalls in E; discriminate |].
    intros _. exists crypto, res, plain, n. auto 7.
Qed.

Lemma packet_receive_via_ssl_payload_length_witness :
  exists p,
    Some (mk_packet (mk_header (htonl 12) (htonl 10)) ping 4) = Some p /\
    let wire := delivered (rw_stream Scenario.plain_remote) in
    let wire_header := take 8 wire in
    let announced := DWORD (ntohl (dword_at wire_header) - sizeof_TlvHeader) in
    let from_wire := take (Z.to_nat announced) (drop 8 wire) in
    length wire_header = 8%nat /\
    header p = mk_header (dword_at wire_header) (dword_at (drop 4 wire_header)) /\
    (Forall is_byte wire_header ->
     header_bytes (header p) = wire_header /\
     ntohl (hdr_length (header p)) = be32_at wire) /\
    Z.of_nat (length from_wire) = announced /\
    (sizeof_TlvHeader <= ntohl (hdr_length (header p)) ->
     announced = ntohl (hdr_length (header p)) - sizeof_TlvHeader) /\
    (rw_cipher Scenario.plain_remote = None -> @nil call = []) /\
    (@nil call = [] -> payload p = from_wire /\ payloadLength p = announced) /\
    (@nil call <> [] ->
     exists crypto res plain plainLength,
       rw_cipher Scenario.plain_remote = Some crypto /\
       [] = [Decrypt from_wire] /\
       decrypt crypto from_wire announced = (res, plain, plainLength) /\
       DWORD res = ERROR_SUCCESS /\
       payload p = plain /\ payloadLength p = DWORD plainLength).
Proof.
  apply (packet_receive_via_ssl_payload_length
           Scenario.PLAIN_REQUEST Scenario.PLAIN_RESPONSE 8 Scenario.plain_remote).
  vm_compute. reflexivity.
Defined.

(** ** Transmit *)

Lemma take_drop_step (bs : list Z) (idx r : Z) :
  0 <= idx -> 0 < r ->
  take (Z.to_nat r) (drop (Z.to_nat idx) bs) ++ drop (Z.to_nat (idx + r)) bs
  = drop (Z.to_nat idx) bs.
Proof.
  intros Hi Hr. rewrite Z2Nat.inj_add by lia.
  rewrite <- drop_drop. apply take_drop.
Qed.

Lemma two_power_30 : 2 ^ 30 = 1073741824.
Proof. reflexivity. Qed.

Lemma two_power_31 : 2 ^ 31 = 2147483648.
Proof. reflexivity. Qed.

Lemma two_power_32 : 2 ^ 32 = 4294967296.
Proof. reflexivity. Qed.

Ltac word_lia :=
  pose proof two_power_30; pose proof two_power_31; pose proof two_power_32;
  unfold sizeof_TlvHeader in *; lia.

(** When every write goes through, the header loop puts out what was left
    of the header. *)
Lemma write_header_all (script : list Z) :
  forall (hdr : list Z) (res idx res' : Z) (out rest : list Z),
    writes_succeed script -> 0 <= idx ->
    Z.of_nat (length hdr) = sizeof_TlvHeader ->
    write_header script hdr res idx = Some (res', out, rest) ->
    out = drop (Z.to_nat idx) hdr /\ writes_succeed rest /\
    (idx < sizeof_TlvHeader -> 0 <= res').
Proof.
  unfold sizeof_TlvHeader.
  induction script as [| r script IH]; intros hdr res idx res' out rest Hw Hi Hl;
    cbn [write_header]; unfold sizeof_TlvHeader;
    destruct (Z.ltb_spec idx 8) as [Hlt | Hge]; try discriminate.
  - intros [= <- <- <-]. split; [| split; [exact Hw | lia]].
    rewrite drop_ge by word_lia. reflexivity.
  - inversion Hw as [| r' script' Hr Hw']; subst.
    rewrite (DWORD_small r) by word_lia.
    destruct (Z.leb_spec r 0) as [? | _]; [word_lia |].
    destruct (write_header script hdr r (DWORD (idx + r)))
      as [[[res1 out1] rest1]|] eqn:Hrec; [| discriminate].
    cbn [mbind option_bind]. intros [= <- <- <-].
    assert (Hsum : 0 <= idx + r < 2 ^ 32) by word_lia.
    rewrite (DWORD_small _ Hsum) in Hrec.
    destruct (IH _ _ (idx + r) _ _ _ Hw' ltac:(word_lia) Hl Hrec)
      as (-> & Hrest & Hres).
    split; [apply take_drop_step; lia |]. split; [exact Hrest |].
    intros _. destruct (Z.ltb_spec (idx + r) 8) as [Hlt' | Hge'].
    + apply Hres. exact Hlt'.
    + destruct script; cbn [write_header] in Hrec; unfold sizeof_TlvHeader in Hrec;
        destruct (Z.ltb_spec (idx + r) 8); try word_lia;
        injection Hrec as <- _ _; word_lia.
  - intros [= <- <- <-]. split; [| split; [exact Hw | lia]].
    rewrite drop_ge by word_lia. reflexivity.
Qed.

(** And the payload loop what was left of the payload. *)
Lemma write_payload_all (script : list Z) :
  forall (payload : list Z) (payloadLength res idx res' : Z) (out rest : list Z),
    writes_succeed script -> 0 <= idx ->
    payloadLength = Z.of_nat (length payload) -> payloadLength < 2 ^ 31 ->
    0 <= res ->
    write_payload script payload payloadLength res idx = Some (res', out, rest) ->
    out = drop (Z.to_nat idx) payload /\ 0 <= res'.
Proof.
  induction script as [| r script IH];
    intros payload L res idx res' out rest Hw Hi Hl Hfit Hres;
    cbn [write_payload];
    destruct (Z.ltb_spec idx L) as [Hlt | Hge]; try discriminate.
  - intros [= <- <- <-]. split; [| exact Hres].
    rewrite drop_ge by word_lia. reflexivity.
  - inversion Hw as [| r' script' Hr Hw']; subst r' script'.
    rewrite (DWORD_small r) by word_lia.
    destruct (Z.ltb_spec r 0) as [? | _]; [word_lia |].
    destruct (write_payload script payload L r (DWORD (idx + r)))
      as [[[res1 out1] rest1]|] eqn:Hrec; [| discriminate].
    cbn [mbind option_bind]. intros [= <- <- <-].
    assert (Hsum : 0 <= idx + r < 2 ^ 32) by word_lia.
    rewrite (DWORD_small _ Hsum) in Hrec.
    destruct (IH _ _ r (idx + r) _ _ _ Hw' ltac:(word_lia) Hl Hfit
                ltac:(word_lia) Hrec) as (-> & Hres1).
    split; [apply take_drop_step; lia | exact Hres1].
  - intros [= <- <- <-]. split; [| exact Hres].
    rewrite drop_ge by word_lia. reflexivity.
Qed.

Lemma length_request_id (rand : nat -> Z) : length (request_id rand) = 31%nat.
Proof. unfold request_id. rewrite length_map, length_seq. reflexivity. Qed.

(** Attaching the request id keeps the invariant of the packet and its
    type. *)
Lemma with_request_id_wf (TLV_TYPE_REQUEST_ID : Z) (w : xmit_world) (p : Packet) :
  packet_wf p -> payloadLength p < 2 ^ 30 ->
  let q := with_request_id TLV_TYPE_REQUEST_ID w p in
  packet_wf q /\ payloadLength q < 2 ^ 30 + 40 /\
  hdr_type (header q) = hdr_type (header p).
Proof.
  intros (Hlen & Hhdr) Hfit q. subst q. unfold with_request_id.
  destruct (Tlv.packet_get_tlv_string p TLV_TYPE_REQUEST_ID).
  { repeat split; [exact Hlen | exact Hhdr | word_lia]. }
  unfold Tlv.packet_add_tlv_string, packet_wf.
  cbn [header payload payloadLength hdr_length hdr_type].
  rewrite length_request_id.
  assert (Hpos : 0 <= payloadLength p) by lia.
  rewrite Hhdr, ntohl_htonl by word_lia.
  rewrite !DWORD_small by word_lia.
  repeat split.
  - rewrite !length_app, length_request_id. simpl. word_lia.
  - f_equal. unfold sizeof_TlvHeader. lia.
  - word_lia.
Qed.

(** The cipher leaves a packet that satisfies the invariant. *)
Lemma with_cipher_wf (PLAIN_REQUEST PLAIN_RESPONSE : Z) (w : xmit_world)
    (q sent : Packet) (calls : list call) :
  packet_wf q -> payloadLength q < 2 ^ 30 + 40 ->
  (forall crypto, xw_cipher w = Some crypto -> cipher_sound crypto) ->
  with_cipher PLAIN_REQUEST PLAIN_RESPONSE w q = inl (sent, calls) ->
  packet_wf sent /\ payloadLength sent + sizeof_TlvHeader < 2 ^ 31 /\
  (forall crypto res out outLength,
     xw_cipher w = Some crypto ->
     packet_get_type q <> PLAIN_REQUEST -> packet_get_type q <> PLAIN_RESPONSE ->
     encrypt crypto (payload q) (payloadLength q) = (res, out, outLength) ->
     hdr_length (header sent) = htonl (outLength + sizeof_TlvHeader) /\
     payload sent = out /\ calls = [Encrypt (payload q)]) /\
  (xw_cipher w = None -> sent = q).
Proof.
  intros Hwf Hfit Hsound. unfold with_cipher.
  destruct (xw_cipher w) as [crypto |] eqn:Hc.
  2: { intros [= <- <-]. split; [exact Hwf |]. split; [word_lia |].
       split; [intros; discriminate | reflexivity]. }
  destruct (Z.eqb_spec (packet_get_type q) PLAIN_REQUEST) as [E1 | N1];
    cbn [negb andb].
  { intros [= <- <-]. split; [exact Hwf |]. split; [word_lia |].
    split; [intros; contradiction | discriminate]. }
  destruct (Z.eqb_spec (packet_get_type q) PLAIN_RESPONSE) as [E2 | N2];
    cbn [negb andb].
  { intros [= <- <-]. split; [exact Hwf |]. split; [word_lia |].
    split; [intros; contradiction | discriminate]. }
  destruct (encrypt crypto (payload q) (payloadLength q))
    as [[res out] outLength] eqn:He.
  destruct (Z.eqb_spec (DWORD res) ERROR_SUCCESS) as [Hres | Hres];
    cbn [negb]; [| discriminate].
  destruct (Hsound crypto eq_refl _ _ _ _ _ (proj1 Hwf) Hfit He Hres)
    as (Hout & Hsmall).
  assert (Hpos : 0 <= outLength) by lia.
  intros [= <- <-]. unfold packet_wf.
  cbn [header payload payloadLength hdr_length].
  rewrite !DWORD_small by word_lia.
  split; [split; [exact Hout | reflexivity] |].
  split; [exact Hsmall |].
  split; [| discriminate].
  intros c r o n [= <-] _ _ He'. rewrite He in He'.
  injection He' as <- <- <-. auto.
Qed.

(** C1, as stated, fails: the packet of the scenario, with the payload
    [ping] and the header [00 00 00 0C 00 00 00 01], carries no request id,
    so one is attached before anything is written; 52 bytes go out, and
    the header that goes out announces 52, whether the tag of a plain
    request is read as 1, as in the scenario, or as 10. *)
Lemma packet_transmit_via_ssl_ping_counterexample :
  header_bytes (header (ping_packet 1)) ++ payload (ping_packet 1)
  = [0; 0; 0; 12; 0; 0; 0; 1] ++ ping /\
  (exists wire calls,
     packet_transmit_via_ssl 1 Scenario.PLAIN_RESPONSE Scenario.REQUEST_ID
       Scenario.clear_line (ping_packet 1) false
     = Some (ERROR_SUCCESS, wire, calls) /\
     length wire = 52%nat /\ take 8 wire = [0; 0; 0; 52; 0; 0; 0; 1] /\
     wire <> [0; 0; 0; 12; 0; 0; 0; 1] ++ ping) /\
  (exists wire calls,
     packet_transmit_via_ssl Scenario.PLAIN_REQUEST Scenario.PLAIN_RESPONSE
       Scenario.REQUEST_ID Scenario.clear_line
       (ping_packet Scenario.PLAIN_REQUEST) false
     = Some (ERROR_SUCCESS, wire, calls) /\
     length wire = 52%nat /\ take 8 wire = [0; 0; 0; 52; 0; 0; 0; 10]).
Proof.
  split; [reflexivity |]. split.
  - eexists _, _. split; [vm_compute; reflexivity |].
    split; [reflexivity |]. split; [reflexivity | discriminate].
  - eexists _, _. split; [vm_compute; reflexivity |].
    split; reflexivity.
Qed.

(** C1, amended: when a transmit returns success and every write went
    through, what went out is the eight bytes of the header followed by the
    payload, and the length field of that header, read in network order, is
    the size of the header plus the number of payload bytes that went out;
    when a cipher is active and the packet is not of a plain type, the
    header that goes out carries [htonl] of the encrypted length plus the
    size of the header and the payload that goes out is the encrypted one.
    The packet of a plain request with the payload [ping] carries no
    request id: one is attached, so that 52 bytes go out, the header with
    the length 52 and the type, then [ping], then the TLV of the id. *)
Theorem packet_transmit_via_ssl_wire
    (PLAIN_REQUEST PLAIN_RESPONSE TLV_TYPE_REQUEST_ID : Z)
    (w : xmit_world) (p : Packet) (completion : bool)
    (wire : list Z) (calls : list call) :
  packet_wf p -> payloadLength p < 2 ^ 30 ->
  (forall crypto, xw_cipher w = Some crypto -> cipher_sound crypto) ->
  writes_succeed (xw_writes w) ->
  packet_transmit_via_ssl PLAIN_REQUEST PLAIN_RESPONSE TLV_TYPE_REQUEST_ID
    w p completion = Some (ERROR_SUCCESS, wire, calls) ->
  exists sent,
    wire = header_bytes (header sent) ++ payload sent /\
    be32_at wire = sizeof_TlvHeader + Z.of_nat (length (payload sent)) /\
    (forall crypto res out outLength,
       xw_cipher w = Some crypto ->
       packet_get_type p <> PLAIN_REQUEST ->
       packet_get_type p <> PLAIN_RESPONSE ->
       encrypt crypto (payload (with_request_id TLV_TYPE_REQUEST_ID w p))
         (payloadLength (with_request_id TLV_TYPE_REQUEST_ID w p))
       = (res, out, outLength) ->
       hdr_length (header sent) = htonl (outLength + sizeof_TlvHeader) /\
       payload sent = out) /\
    (xw_cipher w = None -> p = ping_packet PLAIN_REQUEST ->
     wire = [0; 0; 0; 52] ++ dword_bytes (htonl PLAIN_REQUEST) ++ ping
            ++ [0; 0; 0; 40] ++ dword_bytes (htonl TLV_TYPE_REQUEST_ID)
            ++ request_id (xw_rand w) ++ [0] /\
     length wire = 52%nat).
Proof.
  intros Hwf Hfit Hsound Hwrites. unfold packet_transmit_via_ssl.
  destruct (with_request_id_wf TLV_TYPE_REQUEST_ID w p Hwf Hfit)
    as (Hq & Hqfit & Hqtype).
  set (q := with_request_id TLV_TYPE_REQUEST_ID w p) in *.
  destruct (with_cipher PLAIN_REQUEST PLAIN_RESPONSE w q)
    as [[sent cs] | [res cs]] eqn:Hcipher.
  2: { intros [= E _ _]. exfalso. revert Hcipher. unfold with_cipher.
       destruct (xw_cipher w); [| discriminate].
       destruct (_ && _); [| discriminate].
       destruct (encrypt _ _ _) as [[r o] n].
       destruct (Z.eqb_spec (DWORD r) ERROR_SUCCESS); cbn [negb];
         [discriminate | congruence]. }
  destruct (with_cipher_wf _ _ w q sent cs Hq Hqfit Hsound Hcipher)
    as ((Hlen & Hhdr) & Hsfit & Hencrypted & Hclear).
  destruct (write_header (xw_writes w) (header_bytes (header sent)) (xw_res w) 0)
    as [[[res1 out1] script1]|] eqn:Hw1; cbn [mbind option_bind];
    [| discriminate].
  destruct (write_header_all (xw_writes w) (header_bytes (header sent))
              (xw_res w) 0 res1 out1 script1 Hwrites ltac:(lia) eq_refl Hw1)
    as (-> & Hwrites1 & Hres1).
  specialize (Hres1 ltac:(word_lia)).
  destruct (Z.ltb_spec res1 0) as [? | _]; [lia |].
  destruct (write_payload script1 (payload sent) (payloadLength sent) res1 0)
    as [[[res2 out2] script2]|] eqn:Hw2; cbn [mbind option_bind];
    [| discriminate].
  destruct (write_payload_all script1 (payload sent) (payloadLength sent)
              res1 0 res2 out2 script2 Hwrites1 ltac:(lia) Hlen
              ltac:(word_lia) Hres1 Hw2) as (-> & Hres2).
  destruct (Z.ltb_spec res2 0) as [? | _]; [lia |].
  intros [= <- <-]. exists sent. cbn [Z.to_nat drop].
  assert (Hfield : be32_at (header_bytes (header sent) ++ payload sent)
                   = sizeof_TlvHeader + Z.of_nat (length (payload sent))).
  { unfold header_bytes. rewrite <- app_assoc, Hhdr, be32_at_htonl by word_lia.
    lia. }
  split; [reflexivity |]. split; [exact Hfield |]. split.
  - intros crypto res out outLength Hc N1 N2 He.
    unfold packet_get_type in *. rewrite <- Hqtype in N1, N2.
    destruct (Hencrypted crypto res out outLength Hc N1 N2 He) as (H1 & H2 & _).
    split; assumption.
  - intros Hnone Hping. rewrite (Hclear Hnone). subst q p.
    match goal with |- ?l = ?r /\ _ => assert (Hwire : l = r) end.
    { unfold with_request_id, Tlv.packet_get_tlv_string, Tlv.packet_add_tlv_string.
      cbn [ping_packet payload header hdr_length hdr_type payloadLength
           Tlv.find length ping bytes_of_string].
      change (Z.of_nat 4 <? sizeof_TlvHeader) with true. cbn iota.
      unfold header_bytes. cbn [hdr_length hdr_type payload].
      rewrite length_request_id.
      change (Z.of_nat 31 + 1 + sizeof_TlvHeader) with 40.
      change (dword_bytes (htonl (DWORD (ntohl (htonl 12) + 40))))
        with [0; 0; 0; 52].
      change (dword_bytes (htonl 40)) with [0; 0; 0; 40].
      reflexivity. }
    split; [exact Hwire |]. rewrite Hwire.
    rewrite !length_app, length_request_id. reflexivity.
Qed.

Lemma packet_transmit_via_ssl_wire_witness :
  match packet_transmit_via_ssl Scenario.PLAIN_REQUEST Scenario.PLAIN_RESPONSE
          Scenario.REQUEST_ID Scenario.clear_line
          (ping_packet Scenario.PLAIN_REQUEST) false with
  | Some (status, wire, _) =>
      status = ERROR_SUCCESS /\ be32_at wire = 52 /\ length wire = 52%nat
  | None => False
  end /\
  match packet_transmit_via_ssl Scenario.PLAIN_REQUEST Scenario.PLAIN_RESPONSE
          Scenario.REQUEST_ID Scenario.ciphered_line (ping_packet 0) false with
  | Some (status, wire, _) =>
      status = ERROR_SUCCESS /\ be32_at wire = 53 /\ length wire = 53%nat
  | None => False
  end.
Proof.
  assert (Hping : forall ty, packet_wf (ping_packet ty)).
  { intros ty. split; reflexivity. }
  assert (Hsmall : forall ty, payloadLength (ping_packet ty) < 2 ^ 30).
  { intros ty. reflexivity. }
  split.
  - destruct (packet_transmit_via_ssl _ _ _ Scenario.clear_line _ _)
      as [[[status wire] calls]|] eqn:E; [| discriminate E].
    assert (Hs : status = ERROR_SUCCESS).
    { vm_compute in E. injection E as <- _ _. reflexivity. }
    subst status. split; [reflexivity |].
    assert (Hsound : forall crypto,
              xw_cipher Scenario.clear_line = Some crypto ->
              cipher_sound crypto).
    { intros crypto Hc. discriminate Hc. }
    destruct (packet_transmit_via_ssl_wire _ _ _ _ _ _ _ _
                (Hping _) (Hsmall _) Hsound ltac:(repeat constructor) E)
      as (sent & Hwire & Hfield & _ & Hscenario).
    destruct (Hscenario eq_refl eq_refl) as (-> & Hlen).
    split; [reflexivity | exact Hlen].
  - destruct (packet_transmit_via_ssl _ _ _ Scenario.ciphered_line _ _)
      as [[[status wire] calls]|] eqn:E; [| discriminate E].
    assert (Hs : status = ERROR_SUCCESS).
    { vm_compute in E. injection E as <- _ _. reflexivity. }
    subst status. split; [reflexivity |].
    assert (Hsound : forall crypto,
              xw_cipher Scenario.ciphered_line = Some crypto ->
              cipher_sound crypto).
    { intros crypto [= <-] bs n res out outLength Hn Hfit [= <- <- <-] _.
      rewrite length_app, length_map. simpl. split; word_lia. }
    destruct (packet_transmit_via_ssl_wire _ _ _ _ _ _ _ _
                (Hping _) (Hsmall _) Hsound ltac:(repeat constructor) E)
      as (sent & -> & Hfield & Hencrypted & _).
    destruct (Hencrypted Scenario.padding_cipher _ _ _ eq_refl
                ltac:(discriminate) ltac:(discriminate) eq_refl)
      as (_ & Hout).
    rewrite Hfield, length_app, Hout. split; reflexivity.
Defined.

(** A transmit can return success without the packet having been written:
    [res] is unsigned, the tests [res < 0] after the two loops never hold,
    and a header write that returns 0 only leaves the header loop.  Here
    the header is lost and the 44 bytes of the payload go out alone; the
    statement above speaks of transmits in which every write went
    through. *)
Lemma packet_transmit_via_ssl_header_lost :
  exists wire,
    packet_transmit_via_ssl Scenario.PLAIN_REQUEST Scenario.PLAIN_RESPONSE
      Scenario.REQUEST_ID Scenario.lost_header_line
      (ping_packet Scenario.PLAIN_REQUEST) false
    = Some (ERROR_SUCCESS, wire, []) /\
    length wire = 44%nat /\ take 4 wire = ping.
Proof. eexists. split; [vm_compute; reflexivity |]. split; reflexivity. Qed.

(** * Further properties of the code *)

(** ** Establishing the connection *)

Ltac no_close_in_calls :=
  let Hin := fresh "Hin" in
  intros Hin;
  repeat (apply elem_of_cons in Hin as [Hin | Hin]; [discriminate Hin |]);
  first [exact (proj1 (elem_of_nil _) Hin) | eauto].

Lemma reverse_tcp_loop_never_closes
    (reverseSocket retryTotal retryWait expiry start : Z) (script : list attempt) :
  forall result calls,
    reverse_tcp_loop reverseSocket retryTotal retryWait expiry start script
    = Some (result, calls) ->
    forall s, CloseSocket s ∉ calls.
Proof.
  induction script as [| a script IH]; intros result calls; cbn [reverse_tcp_loop];
    [discriminate |].
  destruct (negb _).
  { intros [= <- <-] s. no_close_in_calls. }
  destruct (_ >=? _).
  { intros [= <- <-] s. no_close_in_calls. }
  destruct (_ <? _).
  - destruct (reverse_tcp_loop _ _ _ _ _ script) as [[r cs]|]; [| discriminate].
    cbn [mbind option_bind]. intros [= <- <-] s.
    specialize (IH r cs eq_refl s). no_close_in_calls.
  - intros [= <- <-] s. no_close_in_calls.
Qed.

(** X1: whatever the clock and the peer do, [reverse_tcp_run] closes the
    socket exactly when it returns [SOCKET_ERROR]: then [closesocket] is its
    last call and its only one, and when it returns anything else the
    socket is never closed. *)
Theorem reverse_tcp_run_closes_on_failure
    (reverseSocket retryTotal retryWait expiry start : Z)
    (script : list attempt) (result : Z) (calls : list call) :
  reverse_tcp_run reverseSocket retryTotal retryWait expiry start script
  = Some (result, calls) ->
  (result = DWORD SOCKET_ERROR ->
   exists before, calls = before ++ [CloseSocket reverseSocket] /\
                  forall s, CloseSocket s ∉ before) /\
  (result <> DWORD SOCKET_ERROR -> forall s, CloseSocket s ∉ calls).
Proof.
  unfold reverse_tcp_run.
  destruct (reverse_tcp_loop _ _ _ _ _ script) as [[r cs]|] eqn:Hloop;
    [| discriminate].
  pose proof (reverse_tcp_loop_never_closes _ _ _ _ _ _ _ _ Hloop) as Hnever.
  cbn [mbind option_bind].
  destruct (Z.eqb_spec r (DWORD SOCKET_ERROR)) as [E | N]; intros [= <- <-].
  - split; [| contradiction]. intros _. exists cs. split; [reflexivity | exact Hnever].
  - split; [contradiction |]. intros _. exact Hnever.
Qed.

Lemma reverse_tcp_run_closes_on_failure_witness :
  (exists before,
     [Connect 7; Sleep 1000; Connect 7; Sleep 1000; CloseSocket 7]
     = before ++ [CloseSocket 7] /\ forall s, CloseSocket s ∉ before) /\
  (forall s,
     CloseSocket s ∉ [Connect 7; Sleep 1000; Connect 7; Sleep 1000; Connect 7]).
Proof.
  split.
  - apply (reverse_tcp_run_closes_on_failure 7 5 1 200 100
             Scenario.refused_until_budget (DWORD SOCKET_ERROR)); reflexivity.
  - apply (reverse_tcp_run_closes_on_failure 7 5 1 200 100
             Scenario.refused_then_accepted ERROR_SUCCESS); [reflexivity | discriminate].
Defined.

(** X2: with a retry budget of 0 and a session that has not expired, a
    refused connect is the only one made, and the loop still sleeps
    [retryWait] seconds before it closes the socket and returns the
    failure, whatever the clock reads afterwards. *)
Theorem reverse_tcp_run_no_budget
    (reverseSocket retryWait expiry start : Z) (a : attempt) (rest : list attempt) :
  at_connect a = SOCKET_ERROR -> at_now a < expiry ->
  reverse_tcp_run reverseSocket 0 retryWait expiry start (a :: rest)
  = Some (DWORD SOCKET_ERROR,
          [Connect reverseSocket; Sleep (DWORD (retryWait * 1000));
           CloseSocket reverseSocket]).
Proof.
  intros Hc He. unfold reverse_tcp_run. cbn [reverse_tcp_loop].
  rewrite Hc. cbn [negb Z.eqb Pos.eqb].
  change (DWORD SOCKET_ERROR =? DWORD SOCKET_ERROR) with true. cbn [negb].
  destruct (Z.geb_spec (at_now a) expiry); [lia |].
  rewrite DWORD_never_negative. reflexivity.
Qed.

Lemma reverse_tcp_run_no_budget_witness :
  reverse_tcp_run 7 0 1 200 100 Scenario.refused_then_accepted
  = Some (DWORD SOCKET_ERROR, [Connect 7; Sleep 1000; CloseSocket 7]).
Proof.
  apply (reverse_tcp_run_no_budget 7 1 200 100 (mk_attempt (-1) 100 101)).
  - reflexivity.
  - simpl. lia.
Defined.

Lemma connect_each_refused (socketHandle : Z) (connects : list Z) :
  Forall (fun r => r = SOCKET_ERROR) connects ->
  forall result, exists result',
    connect_each socketHandle result connects
    = inr (result', repeat (Connect socketHandle) (length connects)).
Proof.
  induction 1 as [| r connects -> _ IH]; intros result.
  - exists result. reflexivity.
  - cbn [connect_each].
    change (DWORD SOCKET_ERROR =? DWORD SOCKET_ERROR) with true. cbn [negb].
    destruct (IH (DWORD SOCKET_ERROR)) as (result' & ->).
    exists result'. reflexivity.
Qed.

Lemma connect_each_accepted (socketHandle : Z) (refused more : list Z) :
  Forall (fun r => r = SOCKET_ERROR) refused ->
  forall result,
    connect_each socketHandle result (refused ++ 0 :: more)
    = inl (repeat (Connect socketHandle) (S (length refused))).
Proof.
  induction 1 as [| r refused -> _ IH]; intros result.
  - reflexivity.
  - cbn [app connect_each].
    change (DWORD SOCKET_ERROR =? DWORD SOCKET_ERROR) with true. cbn [negb].
    rewrite IH. reflexivity.
Qed.

Lemma reverse_tcp6_loop_rounds
    (socketHandle retryTotal retryWait expiry start : Z)
    (turns : list round) (a : round) (rest : list round) (final : list call) :
  0 <= retryWait * 1000 < 2 ^ 32 ->
  Forall (round_goes_round retryTotal expiry start) turns ->
  (forall result, connect_each socketHandle result (rd_connects a) = inl final) ->
  forall result,
    reverse_tcp6_loop socketHandle retryTotal retryWait expiry start result
      (turns ++ a :: rest)
    = Some (inl (rounds6_calls socketHandle retryWait turns ++ final)).
Proof.
  intros Hms Hturns Hfinal.
  induction Hturns as [| t turns (Hc & Hn & Hs & Hlt & He) _ IH]; intros result.
  - cbn [app reverse_tcp6_loop]. rewrite Hfinal. reflexivity.
  - cbn [app reverse_tcp6_loop].
    destruct (connect_each_refused socketHandle _ Hc result) as (result' & ->).
    destruct (Z.geb_spec (rd_now t) expiry); [lia |].
    rewrite (DWORD_small (rd_after t)), (DWORD_small start) by lia.
    rewrite (DWORD_small (rd_after t - start)) by lia.
    destruct (Z.ltb_spec (rd_after t - start) retryTotal); [| lia].
    rewrite IH, (DWORD_small (retryWait * 1000)) by lia.
    cbn [rounds6_calls flat_map]. rewrite <- !app_assoc. reflexivity.
Qed.

(** X3: [reverse_tcp6] tries the resolved addresses in their order, round
    after round, and returns success with the socket in the buffer at the
    first address that accepts: the addresses after it are not tried, no
    further round is made and the socket is not closed. *)
Theorem reverse_tcp6_first_address (w : tcp6_world)
    (retryTotal retryWait expiry stale : Z)
    (turns : list round) (a : round) (rest : list round)
    (refused more : list Z) :
  0 <= retryWait * 1000 < 2 ^ 32 ->
  w6_startup w = 0 -> w6_getaddrinfo w = 0 -> w6_socket w <> INVALID_SOCKET ->
  w6_script w = turns ++ a :: rest ->
  Forall (round_goes_round retryTotal expiry (w6_start w)) turns ->
  rd_connects a = refused ++ 0 :: more ->
  Forall (fun r => r = SOCKET_ERROR) refused ->
  reverse_tcp6 w retryTotal retryWait expiry stale
  = Some (ERROR_SUCCESS, w6_socket w,
          rounds6_calls (w6_socket w) retryWait turns
          ++ repeat (Connect (w6_socket w)) (S (length refused))).
Proof.
  intros Hms Hs Hg Hsock Hscript Hturns Ha Hrefused. unfold reverse_tcp6.
  rewrite Hs, Hg. cbn [Z.eqb negb].
  destruct (Z.eqb_spec (w6_socket w) INVALID_SOCKET); [contradiction |].
  rewrite Hscript.
  rewrite (reverse_tcp6_loop_rounds _ _ _ _ _ turns a rest
             (repeat (Connect (w6_socket w)) (S (length refused))) Hms Hturns).
  - reflexivity.
  - intros result. rewrite Ha. apply connect_each_accepted, Hrefused.
Qed.

Lemma reverse_tcp6_first_address_witness :
  reverse_tcp6 Scenario.second_address_accepts 5 1 200 77
  = Some (ERROR_SUCCESS, 92,
          [Connect 92; Connect 92; Sleep 1000; Connect 92; Connect 92]).
Proof.
  apply (reverse_tcp6_first_address Scenario.second_address_accepts 5 1 200 77
           [mk_round [-1; -1] 100 101] (mk_round [-1; 0] 101 102) [] [-1] []).
  - lia.
  - reflexivity.
  - reflexivity.
  - discriminate.
  - reflexivity.
  - repeat constructor; simpl; lia.
  - reflexivity.
  - repeat constructor.
Defined.

(** ** The inheritance prober *)

Lemma probe_scan_spec (os : os_sockets) (desc : sockaddr_storage) (sock : Z)
    (n : nat) :
  forall (i listenSocket0 : Z) (b : bool) (listenSocket : Z),
    probe_scan os desc sock i n listenSocket0 = (b, listenSocket) ->
    (b = true ->
     exists j, i <= j < i + Z.of_nat n /\ listenSocket = SOCKET (sock - j * 4) /\
               probe_candidate os desc listenSocket = true /\
               forall k, i <= k < j ->
                 probe_candidate os desc (SOCKET (sock - k * 4)) = false) /\
    (b = false ->
     forall k, i <= k < i + Z.of_nat n ->
       probe_candidate os desc (SOCKET (sock - k * 4)) = false).
Proof.
  induction n as [| n IH]; intros i ls0 b ls; cbn [probe_scan].
  - intros [= <- <-]. split; [discriminate |]. intros _ k Hk. lia.
  - destruct (probe_candidate os desc (SOCKET (sock - i * 4))) eqn:Hhere.
    + intros [= <- <-]. split; [| discriminate]. intros _.
      exists i. split; [lia |]. split; [reflexivity |].
      split; [exact Hhere |]. intros k Hk. lia.
    + intros Hscan. destruct (IH _ _ _ _ Hscan) as (Hfound & Hnone). split.
      * intros Hb. destruct (Hfound Hb) as (j & Hj & Hls & Hc & Hbefore).
        exists j. split; [lia |]. split; [exact Hls |]. split; [exact Hc |].
        intros k Hk. destruct (Z.eq_dec k i) as [-> | Hne]; [exact Hhere |].
        apply Hbefore. lia.
      * intros Hb k Hk. destruct (Z.eq_dec k i) as [-> | Hne]; [exact Hhere |].
        apply (Hnone Hb). lia.
Qed.

Lemma sibling_is_not_self (sock i : Z) :
  0 <= sock < 2 ^ 32 -> 1 <= i <= 16 -> SOCKET (sock - i * 4) <> sock.
Proof.
  unfold SOCKET. change (2 ^ 32) with 4294967296. intros Hs Hi E.
  pose proof (Z.div_mod (sock - i * 4) 4294967296 ltac:(lia)) as Hdm.
  rewrite E in Hdm. lia.
Qed.

(** X4: handed the stream [sock], whose local address the system gives,
    the prober records [sock] as the stream of the context, leaves the TLS
    handles alone and never closes [sock] itself.  It looks at the sixteen
    handles [sock - 4], ..., [sock - 64] and at no other, nearest first:
    when it sets [bound], a handle among them is a listener that matches,
    no nearer handle is, that listener is the one socket closed and its
    address is the one recorded; when it leaves [bound] unset, none of the
    sixteen matches, nothing is closed and the address recorded is that of
    the peer. *)
Theorem infer_staged_connection_type_scan (os : os_sockets) (listenSocket0 : Z)
    (c : TcpTransportContext) (sock : Z) (local : sockaddr_storage) (size : Z)
    (c' : TcpTransportContext) (calls : list call) :
  0 <= sock < 2 ^ 32 ->
  getsockname os sock = Some (local, size) ->
  infer_staged_connection_type os listenSocket0 c sock = (c', calls) ->
  fd c' = sock /\ meth c' = meth c /\ ctx c' = ctx c /\ ssl c' = ssl c /\
  (CloseSocket sock ∉ calls) /\
  (bound c' = true ->
   exists i a asize,
     1 <= i <= 16 /\
     probe_candidate os local (SOCKET (sock - i * 4)) = true /\
     (forall k, 1 <= k < i ->
        probe_candidate os local (SOCKET (sock - k * 4)) = false) /\
     calls = [CloseSocket (SOCKET (sock - i * 4))] /\
     getsockname os (SOCKET (sock - i * 4)) = Some (a, asize) /\
     sock_desc c' = a /\ sock_desc_size c' = asize) /\
  (bound c' = false ->
   calls = [] /\
   (forall k, 1 <= k <= 16 ->
      probe_candidate os local (SOCKET (sock - k * 4)) = false) /\
   (forall peer psize, getpeername os sock = Some (peer, psize) ->
      sock_desc c' = peer /\ sock_desc_size c' = psize)).
Proof.
  intros Hsock Hlocal.
  unfold infer_staged_connection_type, set_bound, set_fd, store_name.
  cbn [fd meth ctx ssl bound sock_desc sock_desc_size]. rewrite Hlocal.
  cbn [fd meth ctx ssl bound sock_desc sock_desc_size].
  destruct (probe_scan os local sock 1 16 listenSocket0) as [b ls] eqn:Hscan.
  destruct (probe_scan_spec _ _ _ _ _ _ _ _ Hscan) as (Hfound & Hnone).
  cbn [fd meth ctx ssl bound sock_desc sock_desc_size]. destruct b.
  - destruct (Hfound eq_refl) as (i & Hi & -> & Hc & Hbefore).
    destruct (proj1 (probe_candidate_true _ _ _) Hc)
      as (a & asize & _ & Hname & _).
    rewrite Hname. intros [= <- <-].
    cbn [fd meth ctx ssl bound sock_desc sock_desc_size].
    repeat (split; [reflexivity |]).
    split.
    { intros Hin. apply elem_of_cons in Hin as [Hin | Hin];
        [| exact (proj1 (elem_of_nil _) Hin)].
      injection Hin as Hin. symmetry in Hin.
      revert Hin. apply sibling_is_not_self; [exact Hsock | lia]. }
    split; [| discriminate]. intros _.
    exists i, a, asize. split; [lia |]. auto 10.
  - destruct (getpeername os sock) as [[peer psize] |]; intros [= <- <-];
      cbn [fd meth ctx ssl bound sock_desc sock_desc_size].
    + repeat (split; [reflexivity |]).
      split; [apply not_elem_of_nil |]. split; [discriminate |]. intros _.
      split; [reflexivity |]. split; [intros k Hk; apply (Hnone eq_refl); lia |].
      intros p' s' [= <- <-]. split; reflexivity.
    + repeat (split; [reflexivity |]).
      split; [apply not_elem_of_nil |]. split; [discriminate |]. intros _.
      split; [reflexivity |]. split; [intros k Hk; apply (Hnone eq_refl); lia |].
      intros p' s' [=].
Qed.

Lemma infer_staged_connection_type_scan_witness :
  exists i a asize,
    1 <= i <= 16 /\
    probe_candidate
      (Scenario.staged_os Scenario.local4 Scenario.peer4 Scenario.listen4_same)
      Scenario.local4 (SOCKET (400 - i * 4)) = true /\
    (forall k, 1 <= k < i ->
       probe_candidate
         (Scenario.staged_os Scenario.local4 Scenario.peer4 Scenario.listen4_same)
         Scenario.local4 (SOCKET (400 - k * 4)) = false) /\
    [CloseSocket 396] = [CloseSocket (SOCKET (400 - i * 4))] /\
    getsockname
      (Scenario.staged_os Scenario.local4 Scenario.peer4 Scenario.listen4_same)
      (SOCKET (400 - i * 4)) = Some (a, asize) /\
    sock_desc (mk_ctx 400 Scenario.listen4_same 28 true 0 0 0) = a /\
    sock_desc_size (mk_ctx 400 Scenario.listen4_same 28 true 0 0 0) = asize.
Proof.
  apply (infer_staged_connection_type_scan
           (Scenario.staged_os Scenario.local4 Scenario.peer4 Scenario.listen4_same)
           0 ctx_zero 400 Scenario.local4 28
           (mk_ctx 400 Scenario.listen4_same 28 true 0 0 0) [CloseSocket 396]).
  - lia.
  - reflexivity.
  - vm_compute. reflexivity.
  - reflexivity.
Defined.

(** ** The TLS session *)

Lemma ssl_connect_loop_retries (retries : list (Z * Z)) (rest : list (Z * Z)) :
  Forall wants_retry retries ->
  ssl_connect_loop (retries ++ rest) = ssl_connect_loop rest.
Proof.
  induction 1 as [| [r e] retries (Hr & He) _ IH]; [reflexivity |].
  cbn [app ssl_connect_loop]. cbn [fst snd] in Hr, He.
  destruct (Z.eqb_spec (DWORD r) 1); [contradiction |]. cbn [negb].
  destruct He as [-> | ->]; cbn [Z.eqb orb]; exact IH.
Qed.

(** X5: [server_negotiate_ssl] calls [SSL_connect] again for as long as the
    error is want-read or want-write.  When a call then returns 1 the
    request is written once and the negotiation succeeds; when a call
    fails with any other error, or when [SSL_set_fd] fails, the negotiation
    returns failure and nothing is written on the session. *)
Theorem server_negotiate_ssl_handshake (w : tls_world)
    (retries : list (Z * Z)) (last : Z * Z) (rest : list (Z * Z)) :
  tw_connects w = retries ++ last :: rest ->
  Forall wants_retry retries ->
  (tw_set_fd w = 0 -> server_negotiate_ssl w = Some (false, [])) /\
  (tw_set_fd w <> 0 -> DWORD (fst last) = 1 ->
   server_negotiate_ssl w = Some (true, [SslWrite cover_request])) /\
  (tw_set_fd w <> 0 -> fatal_turn last ->
   server_negotiate_ssl w = Some (false, [])).
Proof.
  intros Hscript Hretries. unfold server_negotiate_ssl.
  rewrite Hscript, (ssl_connect_loop_retries _ _ Hretries).
  destruct last as [r e]. cbn [fst snd ssl_connect_loop].
  split; [| split].
  - intros ->. reflexivity.
  - intros Hfd Hr. destruct (Z.eqb_spec (tw_set_fd w) 0); [contradiction |].
    rewrite Hr. cbn. rewrite DWORD_never_negative. reflexivity.
  - intros Hfd (Hr & He1 & He2).
    destruct (Z.eqb_spec (tw_set_fd w) 0); [contradiction |].
    destruct (Z.eqb_spec (DWORD r) 1); [contradiction |]. cbn [negb].
    destruct (Z.eqb_spec (DWORD e) SSL_ERROR_WANT_READ); [contradiction |].
    destruct (Z.eqb_spec (DWORD e) SSL_ERROR_WANT_WRITE); [contradiction |].
    cbn. rewrite DWORD_never_negative. reflexivity.
Qed.

Lemma server_negotiate_ssl_handshake_witness :
  server_negotiate_ssl Scenario.tls_write_zero
  = Some (true, [SslWrite cover_request]) /\
  server_negotiate_ssl Scenario.tls_handshake_fails = Some (false, []).
Proof.
  split.
  - apply (server_negotiate_ssl_handshake Scenario.tls_write_zero
             [(-1, 2)] (1, 0) []).
    + reflexivity.
    + repeat constructor; vm_compute; congruence.
    + discriminate.
    + reflexivity.
  - apply (server_negotiate_ssl_handshake Scenario.tls_handshake_fails
             [(-1, 3); (-1, 2)] (-1, 1) [(1, 0)]).
    + reflexivity.
    + repeat constructor; vm_compute; auto; congruence.
    + discriminate.
    + repeat split; vm_compute; congruence.
Defined.

(** ** Receive: reads in pieces *)

Lemma take_piece (n : nat) (bs c : list Z) :
  take n (bs ++ c)
  = take n bs ++ take (n - length (take n bs)) (drop n bs ++ c).
Proof.
  rewrite take_app, length_take.
  destruct (le_lt_dec n (length bs)) as [Hle | Hgt].
  - replace (n - length bs)%nat with 0%nat by lia.
    replace (n - n `min` length bs)%nat with 0%nat by lia. reflexivity.
  - rewrite (drop_ge bs n) by lia.
    replace (n `min` length bs)%nat with (length bs) by lia. reflexivity.
Qed.

Lemma drop_piece (n : nat) (bs c : list Z) :
  drop n (bs ++ c) = drop (n - length (take n bs)) (drop n bs ++ c).
Proof.
  rewrite drop_app, length_take.
  destruct (le_lt_dec n (length bs)) as [Hle | Hgt].
  - replace (n - length bs)%nat with 0%nat by lia.
    replace (n - n `min` length bs)%nat with 0%nat by lia. reflexivity.
  - rewrite (drop_ge bs n) by lia.
    replace (n `min` length bs)%nat with (length bs) by lia. reflexivity.
Qed.

(** One read from a stream that starts with a piece: it gives the start of
    the piece and leaves the rest of it at the head of the stream. *)
Lemma SSL_read_piece (num lastError : Z) (bs : list Z) (pieces : list (list Z))
    (tail : list chunk) :
  0 < num -> bs <> [] -> all_nonempty pieces ->
  exists pieces',
    SSL_read num lastError (in_pieces (bs :: pieces) ++ tail)
    = Some (Z.of_nat (length (take (Z.to_nat num) bs)), take (Z.to_nat num) bs,
            lastError, in_pieces pieces' ++ tail) /\
    concat pieces' = drop (Z.to_nat num) bs ++ concat pieces /\
    all_nonempty pieces' /\
    (0 < length (take (Z.to_nat num) bs))%nat.
Proof.
  intros Hnum Hbs Hpieces. cbn [in_pieces map app SSL_read].
  assert (Hgot : (0 < length (take (Z.to_nat num) bs))%nat).
  { rewrite length_take. destruct bs; [contradiction |]. simpl. lia. }
  destruct (drop (Z.to_nat num) bs) as [| b left] eqn:Hleft.
  - exists pieces. auto.
  - exists ((b :: left) :: pieces). split; [reflexivity |].
    split; [reflexivity |]. split; [| exact Hgot].
    constructor; [discriminate | exact Hpieces].
Qed.

(** The header loop on a stream in pieces that holds at least the bytes
    still missing: it reads exactly these, however they are cut. *)
Lemma read_header_pieces (fuel : nat) :
  forall (pieces : list (list Z)) (tail : list chunk)
         (headerBytes : Z) (buf : list Z) (lastError : Z),
    all_nonempty pieces ->
    0 <= headerBytes < sizeof_TlvHeader ->
    (Z.to_nat (sizeof_TlvHeader - headerBytes) <= length (concat pieces))%nat ->
    (Z.to_nat (sizeof_TlvHeader - headerBytes) <= fuel)%nat ->
    exists pieces',
      read_header fuel headerBytes buf lastError (in_pieces pieces ++ tail)
      = Some (Some (buf ++ take (Z.to_nat (sizeof_TlvHeader - headerBytes))
                              (concat pieces)),
              lastError, in_pieces pieces' ++ tail) /\
      concat pieces'
      = drop (Z.to_nat (sizeof_TlvHeader - headerBytes)) (concat pieces) /\
      all_nonempty pieces'.
Proof.
  unfold sizeof_TlvHeader.
  induction fuel as [| fuel IH]; intros pieces tail hb buf le Hne Hhb Hlen Hfuel;
    [lia |].
  destruct Hne as [| bs pieces Hbs Hne]; [simpl in Hlen; lia |].
  cbn [read_header]. unfold sizeof_TlvHeader.
  destruct (SSL_read_piece (8 - hb) le bs pieces tail ltac:(lia) Hbs Hne)
    as (pieces1 & -> & Hconcat1 & Hne1 & Hgot).
  cbn [mbind option_bind].
  set (n := Z.to_nat (8 - hb)) in *.
  assert (Hdata : (length (take n bs) <= n)%nat) by (rewrite length_take; lia).
  destruct (Z.leb_spec (Z.of_nat (length (take n bs))) 0) as [? | _]; [lia |].
  rewrite DWORD_small by word_lia.
  cbn [concat]. rewrite (take_piece n bs), (drop_piece n bs), <- Hconcat1.
  destruct (Z.eqb_spec (hb + Z.of_nat (length (take n bs))) 8) as [Hfull | Hmore];
    cbn [negb].
  - exists pieces1. replace (n - length (take n bs))%nat with 0%nat by lia.
    rewrite take_0, drop_0, app_nil_r. auto.
  - assert (Hnext : Z.to_nat (8 - (hb + Z.of_nat (length (take n bs))))
                    = (n - length (take n bs))%nat) by lia.
    destruct (IH pieces1 tail (hb + Z.of_nat (length (take n bs)))
                (buf ++ take n bs) le Hne1 ltac:(lia)) as (pieces' & Hrun & Hrest & Hne').
    + rewrite Hnext, Hconcat1.
      cbn [concat] in Hlen. rewrite length_app in Hlen.
      rewrite length_app, length_drop.
      rewrite length_take in *. lia.
    + rewrite Hnext. lia.
    + exists pieces'. unfold sizeof_TlvHeader in *. rewrite Hnext in Hrun, Hrest.
      rewrite Hrun, <- app_assoc. auto.
Qed.

(** The payload loop on a stream in pieces that holds at least the bytes
    left to read. *)
Lemma read_payload_pieces (fuel : nat) :
  forall (pieces : list (list Z)) (tail : list chunk)
         (payloadLength left : Z) (buf : list Z) (lastError : Z),
    all_nonempty pieces ->
    0 <= left < 2 ^ 31 ->
    (Z.to_nat left <= length (concat pieces))%nat ->
    (Z.to_nat left < fuel)%nat ->
    exists pieces',
      read_payload fuel payloadLength left buf lastError (in_pieces pieces ++ tail)
      = Some (Some (buf ++ take (Z.to_nat left) (concat pieces)),
              lastError, in_pieces pieces' ++ tail) /\
      concat pieces' = drop (Z.to_nat left) (concat pieces) /\
      all_nonempty pieces'.
Proof.
  induction fuel as [| fuel IH]; intros pieces tail L left buf le Hne Hleft Hlen Hfuel;
    [lia |].
  cbn [read_payload].
  destruct (Z.gtb_spec left 0) as [Hpos | Hzero].
  2: { exists pieces. replace (Z.to_nat left) with 0%nat by lia.
       rewrite take_0, drop_0, app_nil_r. auto. }
  rewrite (INT_small left Hleft).
  destruct (Z.leb_spec left 0) as [? | _]; [lia |].
  destruct Hne as [| bs pieces Hbs Hne]; [simpl in Hlen; lia |].
  destruct (SSL_read_piece left le bs pieces tail Hpos Hbs Hne)
    as (pieces1 & -> & Hconcat1 & Hne1 & Hgot).
  cbn [mbind option_bind].
  set (n := Z.to_nat left) in *.
  assert (Hdata : (length (take n bs) <= n)%nat) by (rewrite length_take; lia).
  destruct (Z.leb_spec (Z.of_nat (length (take n bs))) 0) as [? | _]; [lia |].
  rewrite DWORD_small by word_lia.
  assert (Hnext : Z.to_nat (left - Z.of_nat (length (take n bs)))
                  = (n - length (take n bs))%nat) by lia.
  destruct (IH pieces1 tail L (left - Z.of_nat (length (take n bs)))
              (buf ++ take n bs) le Hne1 ltac:(word_lia))
    as (pieces' & Hrun & Hrest & Hne').
  - rewrite Hnext, Hconcat1.
    cbn [concat] in Hlen. rewrite length_app in Hlen.
    rewrite length_app, length_drop. rewrite length_take in *. lia.
  - rewrite Hnext. lia.
  - exists pieces'. rewrite Hnext in Hrun, Hrest.
    cbn [concat]. rewrite (take_piece n bs), (drop_piece n bs), <- Hconcat1.
    rewrite Hrun, <- app_assoc. auto.
Qed.

(** Reads that would block, in the payload loop, are tried again. *)
Lemma read_payload_would_block (faults : list nat) :
  forall (fuel : nat) (payloadLength left : Z) (buf : list Z) (lastError : Z)
         (s : list chunk),
    0 < left < 2 ^ 31 ->
    exists lastError',
      read_payload (length faults + fuel) payloadLength left buf lastError
        (would_block faults ++ s)
      = read_payload fuel payloadLength left buf lastError' s.
Proof.
  induction faults as [| n faults IH]; intros fuel L left buf le s Hleft.
  - exists le. reflexivity.
  - cbn [length Nat.add would_block map app read_payload].
    destruct (Z.gtb_spec left 0); [| lia].
    rewrite (INT_small left) by lia.
    destruct (Z.leb_spec left 0); [lia |].
    cbn [SSL_read mbind option_bind].
    destruct (Z.leb_spec (- Z.of_nat n) 0); [| lia].
    change (WSAEWOULDBLOCK =? WSAEWOULDBLOCK) with true. cbn iota.
    apply (IH fuel L left buf WSAEWOULDBLOCK s Hleft).
Qed.

(** The stored bytes of a word give the word back. *)
Lemma dword_at_dword_bytes (x : Z) (rest : list Z) :
  0 <= x < 2 ^ 32 -> dword_at (dword_bytes x ++ rest) = x.
Proof.
  intros Hx. unfold dword_bytes. cbn [app dword_at].
  rewrite (bytes_decompose x Hx) at 5. lia.
Qed.
(** What the receive does once the header [h] and the payload [body] have
    been read, on a remote with no cipher. *)
Lemma packet_receive_via_ssl_assembled (PLAIN_REQUEST PLAIN_RESPONSE : Z)
    (fuel : nat) (w : recv_world) (h : TlvHeader) (body : list Z)
    (lastError1 lastError2 : Z) (s1 s2 : list chunk) :
  0 <= hdr_length h < 2 ^ 32 -> 0 <= hdr_type h < 2 ^ 32 ->
  DWORD (ntohl (hdr_length h) - sizeof_TlvHeader) = Z.of_nat (length body) ->
  rw_malloc w (Z.of_nat (length body)) = true -> rw_malloc_packet w = true ->
  rw_cipher w = None ->
  read_header fuel 0 [] (rw_last_error w) (rw_stream w)
  = Some (Some (header_bytes h), lastError1, s1) ->
  read_payload fuel (Z.of_nat (length body)) (Z.of_nat (length body)) []
    lastError1 s1 = Some (Some body, lastError2, s2) ->
  packet_receive_via_ssl PLAIN_REQUEST PLAIN_RESPONSE fuel w
  = Some (ERROR_SUCCESS, Some (mk_packet h body (Z.of_nat (length body))), []).
Proof.
  intros Hl Ht Hannounced Hmalloc Hpacket Hcipher Hheader Hpayload.
  unfold packet_receive_via_ssl. rewrite Hheader. cbn [mbind option_bind].
  unfold header_bytes.
  rewrite (dword_at_dword_bytes (hdr_length h) (dword_bytes (hdr_type h)) Hl).
  rewrite (drop_app_length' (dword_bytes (hdr_length h))) by reflexivity.
  rewrite <- (app_nil_r (dword_bytes (hdr_type h))).
  rewrite (dword_at_dword_bytes (hdr_type h) [] Ht).
  cbn [hdr_length]. rewrite Hannounced, Hmalloc. cbn [negb].
  rewrite Hpayload. cbn [mbind option_bind]. rewrite Hpacket, Hcipher.
  destruct h. reflexivity.
Qed.

(** X6: a frame whose header announces its payload arrives on a remote
    with no cipher, cut in any number of pieces at any places, also inside
    the header or across its end, and followed by anything; the receive
    hands over the packet with that header and exactly that payload. *)
Theorem packet_receive_via_ssl_in_pieces (PLAIN_REQUEST PLAIN_RESPONSE : Z)
    (fuel : nat) (w : recv_world) (h : TlvHeader) (body more : list Z)
    (pieces : list (list Z)) :
  rw_stream w = in_pieces pieces -> all_nonempty pieces ->
  concat pieces = header_bytes h ++ body ++ more ->
  0 <= hdr_length h < 2 ^ 32 -> 0 <= hdr_type h < 2 ^ 32 ->
  DWORD (ntohl (hdr_length h) - sizeof_TlvHeader) = Z.of_nat (length body) ->
  Z.of_nat (length body) < 2 ^ 31 ->
  rw_malloc w (Z.of_nat (length body)) = true -> rw_malloc_packet w = true ->
  rw_cipher w = None ->
  (8 <= fuel)%nat -> (length body < fuel)%nat ->
  packet_receive_via_ssl PLAIN_REQUEST PLAIN_RESPONSE fuel w
  = Some (ERROR_SUCCESS, Some (mk_packet h body (Z.of_nat (length body))), []).
Proof.
  intros Hstream Hne Hconcat Hl Ht Hannounced Hsmall Hmalloc Hpacket Hcipher
    Hfuel8 Hfuel.
  destruct (read_header_pieces fuel pieces [] 0 [] (rw_last_error w) Hne
              ltac:(unfold sizeof_TlvHeader; lia))
    as (pieces1 & Hheader & Hrest1 & Hne1).
  { rewrite Hconcat, length_app, length_header_bytes. unfold sizeof_TlvHeader. lia. }
  { unfold sizeof_TlvHeader. lia. }
  change (Z.to_nat (sizeof_TlvHeader - 0)) with 8%nat in Hheader, Hrest1.
  rewrite Hconcat in Hheader, Hrest1.
  rewrite (take_app_length' (header_bytes h)) in Hheader by reflexivity.
  rewrite (drop_app_length' (header_bytes h)) in Hrest1 by reflexivity.
  rewrite !app_nil_r in Hheader. cbn [app] in Hheader.
  destruct (read_payload_pieces fuel pieces1 [] (Z.of_nat (length body))
              (Z.of_nat (length body)) [] (rw_last_error w) Hne1 ltac:(lia))
    as (pieces2 & Hpayload & _ & _).
  { rewrite Hrest1, length_app. lia. }
  { lia. }
  rewrite Nat2Z.id, Hrest1, take_app_length, !app_nil_r in Hpayload.
  cbn [app] in Hpayload.
  apply (packet_receive_via_ssl_assembled _ _ fuel w h body
           (rw_last_error w) (rw_last_error w) (in_pieces pieces1)
           (in_pieces pieces2)); try assumption.
  rewrite Hstream. exact Hheader.
Qed.

Lemma packet_receive_via_ssl_in_pieces_witness :
  packet_receive_via_ssl Scenario.PLAIN_REQUEST Scenario.PLAIN_RESPONSE 8
    Scenario.cut_remote
  = Some (ERROR_SUCCESS, Some (mk_packet Scenario.request_header ping 4), []).
Proof.
  apply (packet_receive_via_ssl_in_pieces _ _ 8 Scenario.cut_remote
           Scenario.request_header ping [9; 9] Scenario.cut_frame).
  - reflexivity.
  - repeat constructor; discriminate.
  - reflexivity.
  - vm_compute. split; [discriminate | reflexivity].
  - vm_compute. split; [discriminate | reflexivity].
  - reflexivity.
  - reflexivity.
  - reflexivity.
  - reflexivity.
  - reflexivity.
  - lia.
  - simpl. lia.
Defined.

(** X7: a read that would block is fatal while the header is read and
    tried again while the payload is read.  When the first read of a
    receive fails, whatever the last error, the receive returns
    [ERROR_NOT_FOUND] and no packet; when the header has arrived whole, any
    number of reads that would block before the payload leave the packet
    handed over as it is without them. *)
Theorem packet_receive_via_ssl_would_block (PLAIN_REQUEST PLAIN_RESPONSE : Z)
    (w : recv_world) :
  (forall fuel n e s,
     rw_stream w = Fault n e :: s ->
     packet_receive_via_ssl PLAIN_REQUEST PLAIN_RESPONSE (S fuel) w
     = Some (ERROR_NOT_FOUND, None, [])) /\
  (forall fuel h body more hpieces faults ppieces,
     rw_stream w = in_pieces hpieces ++ would_block faults ++ in_pieces ppieces ->
     all_nonempty hpieces -> all_nonempty ppieces ->
     concat hpieces = header_bytes h -> concat ppieces = body ++ more ->
     0 <= hdr_length h < 2 ^ 32 -> 0 <= hdr_type h < 2 ^ 32 ->
     DWORD (ntohl (hdr_length h) - sizeof_TlvHeader) = Z.of_nat (length body) ->
     Z.of_nat (length body) < 2 ^ 31 ->
     rw_malloc w (Z.of_nat (length body)) = true -> rw_malloc_packet w = true ->
     rw_cipher w = None ->
     (8 <= fuel)%nat -> (length faults + length body < fuel)%nat ->
     packet_receive_via_ssl PLAIN_REQUEST PLAIN_RESPONSE fuel w
     = Some (ERROR_SUCCESS, Some (mk_packet h body (Z.of_nat (length body))), [])).
Proof.
  split.
  - intros fuel n e s Hstream. unfold packet_receive_via_ssl.
    cbn [read_header]. rewrite Hstream. cbn [SSL_read mbind option_bind].
    destruct (Z.leb_spec (- Z.of_nat n) 0); [reflexivity | lia].
  - intros fuel h body more hpieces faults ppieces Hstream Hneh Hnep Hh Hp
      Hl Ht Hannounced Hsmall Hmalloc Hpacket Hcipher Hfuel8 Hfuel.
    destruct (read_header_pieces fuel hpieces
                (would_block faults ++ in_pieces ppieces) 0 []
                (rw_last_error w) Hneh ltac:(unfold sizeof_TlvHeader; lia))
      as (hrest & Hheader & Hrest1 & Hne1).
    { rewrite Hh, length_header_bytes. unfold sizeof_TlvHeader. lia. }
    { unfold sizeof_TlvHeader. lia. }
    change (Z.to_nat (sizeof_TlvHeader - 0)) with 8%nat in Hheader, Hrest1.
    rewrite Hh in Hheader, Hrest1.
    rewrite take_ge in Hheader by (rewrite length_header_bytes; lia).
    rewrite drop_ge in Hrest1 by (rewrite length_header_bytes; lia).
    assert (hrest = []) as ->.
    { destruct Hne1 as [| bs hrest Hbs _]; [reflexivity |].
      destruct bs; [contradiction | discriminate Hrest1]. }
    cbn [app in_pieces map] in Hheader.
    assert (Hpayload : exists lastError2 s2,
              read_payload fuel (Z.of_nat (length body)) (Z.of_nat (length body))
                [] (rw_last_error w) (would_block faults ++ in_pieces ppieces)
              = Some (Some body, lastError2, s2)).
    { destruct (Z.eq_dec (Z.of_nat (length body)) 0) as [Hzero | Hpos].
      - destruct fuel as [| fuel]; [lia |]. cbn [read_payload]. rewrite Hzero.
        cbn [Z.gtb Z.compare]. destruct body; [| discriminate Hzero]. eauto.
      - replace fuel with (length faults + (fuel - length faults))%nat by lia.
        destruct (read_payload_would_block faults (fuel - length faults)
                    (Z.of_nat (length body)) (Z.of_nat (length body)) []
                    (rw_last_error w) (in_pieces ppieces) ltac:(lia))
          as (lastError' & ->).
        destruct (read_payload_pieces (fuel - length faults) ppieces []
                    (Z.of_nat (length body)) (Z.of_nat (length body)) []
                    lastError' Hnep ltac:(lia)) as (prest & Hrun & _ & _).
        + rewrite Hp, length_app. lia.
        + lia.
        + rewrite Nat2Z.id, Hp, take_app_length, !app_nil_r in Hrun.
          cbn [app] in Hrun. eauto. }
    destruct Hpayload as (lastError2 & s2 & Hpayload).
    apply (packet_receive_via_ssl_assembled _ _ fuel w h body
             (rw_last_error w) lastError2
             (would_block faults ++ in_pieces ppieces) s2); try assumption.
    rewrite Hstream. exact Hheader.
Qed.

Lemma packet_receive_via_ssl_would_block_witness :
  packet_receive_via_ssl Scenario.PLAIN_REQUEST Scenario.PLAIN_RESPONSE 8
    Scenario.blocked_at_once = Some (ERROR_NOT_FOUND, None, []) /\
  packet_receive_via_ssl Scenario.PLAIN_REQUEST Scenario.PLAIN_RESPONSE 8
    Scenario.blocked_remote
  = Some (ERROR_SUCCESS, Some (mk_packet Scenario.request_header ping 4), []).
Proof.
  split.
  - apply (proj1 (packet_receive_via_ssl_would_block _ _ Scenario.blocked_at_once)
             7%nat 1%nat WSAEWOULDBLOCK (in_pieces Scenario.cut_frame)).
    reflexivity.
  - apply (proj2 (packet_receive_via_ssl_would_block _ _ Scenario.blocked_remote)
             8%nat Scenario.request_header ping []
             [[0; 0; 0; 12]; [0; 0; 0; 0]] [1%nat; 1%nat] [[112; 105]; [110; 103]]).
    + reflexivity.
    + repeat constructor; discriminate.
    + repeat constructor; discriminate.
    + reflexivity.
    + reflexivity.
    + vm_compute. split; [discriminate | reflexivity].
    + vm_compute. split; [discriminate | reflexivity].
    + reflexivity.
    + reflexivity.
    + reflexivity.
    + reflexivity.
    + reflexivity.
    + lia.
    + simpl. lia.
Defined.

(** X8: a receive hands over a packet exactly when it returns success.
    When it returns another status nothing is handed over, and the status
    is [ERROR_NOT_FOUND], [ERROR_NOT_ENOUGH_MEMORY], or the status that the
    decrypt handler of the remote's cipher returned. *)
Theorem packet_receive_via_ssl_status (PLAIN_REQUEST PLAIN_RESPONSE : Z)
    (fuel : nat) (w : recv_world) (status : Z) (result : option Packet)
    (calls : list call) :
  packet_receive_via_ssl PLAIN_REQUEST PLAIN_RESPONSE fuel w
  = Some (status, result, calls) ->
  (status = ERROR_SUCCESS -> exists p, result = Some p) /\
  (status <> ERROR_SUCCESS ->
   result = None /\
   (status = ERROR_NOT_FOUND \/ status = ERROR_NOT_ENOUGH_MEMORY \/
    exists crypto body n res plain plainLength,
      rw_cipher w = Some crypto /\ calls = [Decrypt body] /\
      decrypt crypto body n = (res, plain, plainLength) /\ status = DWORD res)).
Proof.
  intros Hrun. split.
  - intros ->.
    destruct (packet_receive_via_ssl_success _ _ _ _ _ _ Hrun)
      as (hdr & body & _ & [(_ & -> & _) | (c & r & pl & n & _ & _ & _ & _ & _ & ->)]);
      eauto.
  - intros Hfailed. revert Hrun. unfold packet_receive_via_ssl.
    destruct (read_header fuel 0 [] (rw_last_error w) (rw_stream w))
      as [[[[hdr |] le1] s1]|] eqn:Hh; cbn [mbind option_bind];
      [| | discriminate].
    2: { rewrite (read_header_failure _ _ _ _ _ _ _ Hh).
         intros [= <- <- <-]. auto. }
    destruct (rw_malloc w _); cbn [negb]; [| intros [= <- <- <-]; auto].
    destruct (read_payload fuel _ _ [] le1 s1) as [[[[body |] le2] s2]|] eqn:Hp;
      cbn [mbind option_bind]; [| | discriminate].
    2: { rewrite (read_payload_failure _ _ _ _ _ _ _ _ Hp).
         intros [= <- <- <-]. auto. }
    destruct (rw_malloc_packet w); cbn [negb]; [| intros [= <- <- <-]; auto].
    destruct (rw_cipher w) as [crypto |] eqn:Hc.
    2: { intros [= <- <- <-]. contradiction. }
    destruct (negb _ && negb _).
    2: { intros [= <- <- <-]. contradiction. }
    destruct (decrypt crypto body _) as [[res plain] plainLength] eqn:Hd.
    destruct (negb (DWORD res =? ERROR_SUCCESS)).
    + intros [= <- <- <-]. split; [reflexivity |]. right. right.
      exists crypto, body. eauto 10.
    + intros [= <- <- <-]. contradiction.
Qed.

Lemma packet_receive_via_ssl_status_witness :
  (ERROR_NOT_FOUND <> ERROR_SUCCESS ->
   @None Packet = None /\
   (ERROR_NOT_FOUND = ERROR_NOT_FOUND \/ ERROR_NOT_FOUND = ERROR_NOT_ENOUGH_MEMORY \/
    exists crypto body n res plain plainLength,
      rw_cipher Scenario.blocked_at_once = Some crypto /\
      [] = [Decrypt body] /\
      decrypt crypto body n = (res, plain, plainLength) /\
      ERROR_NOT_FOUND = DWORD res)) /\
  (ERROR_SUCCESS = ERROR_SUCCESS ->
   exists p, Some (mk_packet Scenario.request_header ping 4) = Some p).
Proof.
  split.
  - apply (packet_receive_via_ssl_status Scenario.PLAIN_REQUEST
             Scenario.PLAIN_RESPONSE 8 Scenario.blocked_at_once
             ERROR_NOT_FOUND None []).
    reflexivity.
  - apply (packet_receive_via_ssl_status Scenario.PLAIN_REQUEST
             Scenario.PLAIN_RESPONSE 8 Scenario.cut_remote
             ERROR_SUCCESS _ []).
    vm_compute. reflexivity.
Defined.

(** ** Transmit: the request id, the cipher, the writes *)

(** X9: the request id that a transmit makes for a packet without one has
    31 characters, all of them in the printable range from 0x21 to 0x7E, so
    that the string ends at the terminator written after them.  [rand]
    gives no negative number: that is where the remainder of C is [mod]. *)
Theorem request_id_printable (rand : nat -> Z) :
  (forall index, 0 <= rand index) ->
  length (request_id rand) = 31%nat /\
  Forall (fun c => 33 <= c <= 126) (request_id rand) /\
  0 ∉ request_id rand.
Proof.
  intros _.
  assert (Hall : Forall (fun c => 33 <= c <= 126) (request_id rand)).
  { unfold request_id. apply Forall_map, Forall_forall. intros index _.
    cbn beta. pose proof (Z.mod_pos_bound (rand index) 94 ltac:(lia)). lia. }
  split; [apply length_request_id |]. split; [exact Hall |].
  intros Hin. rewrite Forall_forall in Hall. specialize (Hall 0 Hin). lia.
Qed.

Lemma request_id_printable_witness :
  length (request_id (xw_rand Scenario.xor_line)) = 31%nat /\
  Forall (fun c => 33 <= c <= 126) (request_id (xw_rand Scenario.xor_line)) /\
  0 ∉ request_id (xw_rand Scenario.xor_line).
Proof.
  apply (request_id_printable (xw_rand Scenario.xor_line)).
  intros index. simpl. lia.
Defined.

Lemma with_request_id_type (TLV_TYPE_REQUEST_ID : Z) (w : xmit_world) (p : Packet) :
  packet_get_type (with_request_id TLV_TYPE_REQUEST_ID w p) = packet_get_type p.
Proof.
  unfold with_request_id. destruct (Tlv.packet_get_tlv_string _ _); reflexivity.
Qed.

(** X10: when the cipher is active, the packet is not of a plain type and
    [encrypt] fails, the transmit returns the status of [encrypt] and
    writes nothing: no byte goes out, whatever the writes would have
    returned. *)
Theorem packet_transmit_via_ssl_encrypt_fails
    (PLAIN_REQUEST PLAIN_RESPONSE TLV_TYPE_REQUEST_ID : Z)
    (w : xmit_world) (p : Packet) (completion : bool)
    (crypto : CryptoContext) (res : Z) (out : list Z) (outLength : Z) :
  xw_cipher w = Some crypto ->
  packet_get_type p <> PLAIN_REQUEST -> packet_get_type p <> PLAIN_RESPONSE ->
  encrypt crypto (payload (with_request_id TLV_TYPE_REQUEST_ID w p))
    (payloadLength (with_request_id TLV_TYPE_REQUEST_ID w p))
  = (res, out, outLength) ->
  DWORD res <> ERROR_SUCCESS ->
  forall script,
  exists calls,
    packet_transmit_via_ssl PLAIN_REQUEST PLAIN_RESPONSE TLV_TYPE_REQUEST_ID
      (with_writes w script) p completion
    = Some (DWORD res, [], calls) /\
    (forall bs, SslWrite bs ∉ calls).
Proof.
  intros Hc N1 N2 He Hres script. unfold packet_transmit_via_ssl, with_cipher.
  change (with_request_id TLV_TYPE_REQUEST_ID (with_writes w script) p)
    with (with_request_id TLV_TYPE_REQUEST_ID w p).
  cbn [with_writes xw_cipher]. rewrite Hc, with_request_id_type.
  destruct (Z.eqb_spec (packet_get_type p) PLAIN_REQUEST); [contradiction |].
  destruct (Z.eqb_spec (packet_get_type p) PLAIN_RESPONSE); [contradiction |].
  cbn [negb andb]. rewrite He.
  destruct (Z.eqb_spec (DWORD res) ERROR_SUCCESS); [contradiction |].
  cbn [negb]. eexists. split; [reflexivity |].
  intros bs. destruct completion; [| no_close_in_calls].
  destruct (Tlv.packet_get_tlv_string _ _); no_close_in_calls.
Qed.

Lemma packet_transmit_via_ssl_encrypt_fails_witness :
  exists calls,
    packet_transmit_via_ssl Scenario.PLAIN_REQUEST Scenario.PLAIN_RESPONSE
      Scenario.REQUEST_ID (with_writes Scenario.failing_line [8; 60])
      (ping_packet 0) true
    = Some (DWORD 1359, [], calls) /\
    (forall bs, SslWrite bs ∉ calls).
Proof.
  apply (packet_transmit_via_ssl_encrypt_fails Scenario.PLAIN_REQUEST
           Scenario.PLAIN_RESPONSE Scenario.REQUEST_ID Scenario.failing_line
           (ping_packet 0) true Scenario.failing_cipher 1359
           (payload (with_request_id Scenario.REQUEST_ID Scenario.failing_line
                       (ping_packet 0)))
           (payloadLength (with_request_id Scenario.REQUEST_ID
                             Scenario.failing_line (ping_packet 0)))).
  - reflexivity.
  - discriminate.
  - discriminate.
  - reflexivity.
  - discriminate.
Defined.

(** X11: for a packet of one of the two plain types the cipher plays no
    part in a transmit: with a cipher on the remote the transmit returns
    the same status, puts out the same bytes and makes the same calls as
    with none, and [encrypt] is not called. *)
Theorem packet_transmit_via_ssl_plain_in_clear
    (PLAIN_REQUEST PLAIN_RESPONSE TLV_TYPE_REQUEST_ID : Z)
    (w : xmit_world) (p : Packet) (completion : bool) :
  packet_get_type p = PLAIN_REQUEST \/ packet_get_type p = PLAIN_RESPONSE ->
  packet_transmit_via_ssl PLAIN_REQUEST PLAIN_RESPONSE TLV_TYPE_REQUEST_ID
    w p completion
  = packet_transmit_via_ssl PLAIN_REQUEST PLAIN_RESPONSE TLV_TYPE_REQUEST_ID
      (without_cipher w) p completion.
Proof.
  intros Hplain. unfold packet_transmit_via_ssl, with_cipher.
  change (with_request_id TLV_TYPE_REQUEST_ID (without_cipher w) p)
    with (with_request_id TLV_TYPE_REQUEST_ID w p).
  cbn [without_cipher xw_cipher xw_writes xw_res xw_last_error].
  destruct (xw_cipher w) as [crypto |]; [| reflexivity].
  rewrite with_request_id_type.
  destruct Hplain as [-> | ->]; rewrite Z.eqb_refl; cbn [negb andb];
    rewrite ?andb_false_r; reflexivity.
Qed.

Lemma packet_transmit_via_ssl_plain_in_clear_witness :
  packet_transmit_via_ssl Scenario.PLAIN_REQUEST Scenario.PLAIN_RESPONSE
    Scenario.REQUEST_ID Scenario.ciphered_line
    (ping_packet Scenario.PLAIN_REQUEST) false
  = packet_transmit_via_ssl Scenario.PLAIN_REQUEST Scenario.PLAIN_RESPONSE
      Scenario.REQUEST_ID (without_cipher Scenario.ciphered_line)
      (ping_packet Scenario.PLAIN_REQUEST) false.
Proof.
  apply (packet_transmit_via_ssl_plain_in_clear Scenario.PLAIN_REQUEST
           Scenario.PLAIN_RESPONSE Scenario.REQUEST_ID Scenario.ciphered_line
           (ping_packet Scenario.PLAIN_REQUEST) false).
  left. reflexivity.
Defined.

(** ** Transmit and receive together *)

(** The write loops end: when every write goes through, the header loop
    needs no more writes than the bytes still to go, and so does the
    payload loop. *)
Lemma write_header_ends (script : list Z) :
  forall (hdr : list Z) (res idx : Z),
    writes_succeed script -> 0 <= idx ->
    sizeof_TlvHeader - idx <= Z.of_nat (length script) ->
    exists res' out rest,
      write_header script hdr res idx = Some (res', out, rest) /\
      Z.of_nat (length script) - Z.of_nat (length rest)
      <= Z.max 0 (sizeof_TlvHeader - idx).
Proof.
  unfold sizeof_TlvHeader.
  induction script as [| r script IH]; intros hdr res idx Hw Hi Hlen;
    cbn [write_header]; unfold sizeof_TlvHeader;
    destruct (Z.ltb_spec idx 8) as [Hlt | Hge].
  - simpl in Hlen. lia.
  - eexists _, _, _. split; [reflexivity |]. simpl. lia.
  - inversion Hw as [| r' script' Hr Hw']; subst r' script'.
    rewrite (DWORD_small r) by word_lia.
    destruct (Z.leb_spec r 0) as [? | _]; [lia |].
    assert (Hsum : 0 <= idx + r < 2 ^ 32) by word_lia.
    rewrite (DWORD_small _ Hsum).
    destruct (IH hdr r (idx + r) Hw' ltac:(lia)) as (res' & out & rest & -> & Hused).
    { cbn [length] in Hlen. lia. }
    cbn [mbind option_bind]. eexists _, _, _. split; [reflexivity |].
    cbn [length]. lia.
  - eexists _, _, _. split; [reflexivity |]. lia.
Qed.

Lemma write_payload_ends (script : list Z) :
  forall (payload : list Z) (payloadLength res idx : Z),
    writes_succeed script -> 0 <= idx -> payloadLength < 2 ^ 31 ->
    payloadLength - idx <= Z.of_nat (length script) ->
    exists res' out rest,
      write_payload script payload payloadLength res idx = Some (res', out, rest).
Proof.
  induction script as [| r script IH]; intros payload L res idx Hw Hi Hfit Hlen;
    cbn [write_payload]; destruct (Z.ltb_spec idx L) as [Hlt | Hge].
  - simpl in Hlen. lia.
  - eauto.
  - inversion Hw as [| r' script' Hr Hw']; subst r' script'.
    rewrite (DWORD_small r) by word_lia.
    destruct (Z.ltb_spec r 0) as [? | _]; [lia |].
    assert (Hsum : 0 <= idx + r < 2 ^ 32) by word_lia.
    rewrite (DWORD_small _ Hsum).
    destruct (IH payload L r (idx + r) Hw' ltac:(lia) Hfit) as (res' & out & rest & ->).
    { cbn [length] in Hlen. lia. }
    cbn [mbind option_bind]. eauto.
  - eauto.
Qed.

(** What went out in a transmit that returned success with every write
    gone through: the header and the payload of the packet as the request
    id and the cipher left it. *)
Lemma packet_transmit_via_ssl_sent
    (PLAIN_REQUEST PLAIN_RESPONSE TLV_TYPE_REQUEST_ID : Z)
    (w : xmit_world) (p : Packet) (completion : bool)
    (wire : list Z) (calls : list call) :
  packet_wf p -> payloadLength p < 2 ^ 30 ->
  (forall crypto, xw_cipher w = Some crypto -> cipher_sound crypto) ->
  writes_succeed (xw_writes w) ->
  packet_transmit_via_ssl PLAIN_REQUEST PLAIN_RESPONSE TLV_TYPE_REQUEST_ID
    w p completion = Some (ERROR_SUCCESS, wire, calls) ->
  exists sent cs,
    with_cipher PLAIN_REQUEST PLAIN_RESPONSE w
      (with_request_id TLV_TYPE_REQUEST_ID w p) = inl (sent, cs) /\
    wire = header_bytes (header sent) ++ payload sent /\
    packet_wf sent /\ payloadLength sent + sizeof_TlvHeader < 2 ^ 31.
Proof.
  intros Hwf Hfit Hsound Hwrites. unfold packet_transmit_via_ssl.
  destruct (with_request_id_wf TLV_TYPE_REQUEST_ID w p Hwf Hfit)
    as (Hq & Hqfit & Hqtype).
  set (q := with_request_id TLV_TYPE_REQUEST_ID w p) in *.
  destruct (with_cipher PLAIN_REQUEST PLAIN_RESPONSE w q)
    as [[sent cs] | [res cs]] eqn:Hcipher.
  2: { intros [= E _ _]. exfalso. revert Hcipher. unfold with_cipher.
       destruct (xw_cipher w); [| discriminate].
       destruct (_ && _); [| discriminate].
       destruct (encrypt _ _ _) as [[r o] n].
       destruct (Z.eqb_spec (DWORD r) ERROR_SUCCESS); cbn [negb];
         [discriminate | congruence]. }
  destruct (with_cipher_wf _ _ w q sent cs Hq Hqfit Hsound Hcipher)
    as (Hsent & Hsfit & _ & _).
  destruct (write_header (xw_writes w) (header_bytes (header sent)) (xw_res w) 0)
    as [[[res1 out1] script1]|] eqn:Hw1; cbn [mbind option_bind];
    [| discriminate].
  destruct (write_header_all (xw_writes w) (header_bytes (header sent))
              (xw_res w) 0 res1 out1 script1 Hwrites ltac:(lia) eq_refl Hw1)
    as (-> & Hwrites1 & Hres1).
  specialize (Hres1 ltac:(word_lia)).
  destruct (Z.ltb_spec res1 0) as [? | _]; [lia |].
  destruct (write_payload script1 (payload sent) (payloadLength sent) res1 0)
    as [[[res2 out2] script2]|] eqn:Hw2; cbn [mbind option_bind];
    [| discriminate].
  destruct (write_payload_all script1 (payload sent) (payloadLength sent)
              res1 0 res2 out2 script2 Hwrites1 ltac:(lia) (proj1 Hsent)
              ltac:(word_lia) Hres1 Hw2) as (-> & Hres2).
  destruct (Z.ltb_spec res2 0) as [? | _]; [lia |].
  intros [= <- <-]. exists sent, cs. cbn [Z.to_nat drop]. auto.
Qed.

(** The two read loops on a stream in pieces that holds a frame. *)
Lemma read_frame_in_pieces (fuel : nat) (lastError : Z) (h : TlvHeader)
    (body more : list Z) (pieces : list (list Z)) :
  all_nonempty pieces ->
  concat pieces = header_bytes h ++ body ++ more ->
  Z.of_nat (length body) < 2 ^ 31 ->
  (8 <= fuel)%nat -> (length body < fuel)%nat ->
  exists s1 s2,
    read_header fuel 0 [] lastError (in_pieces pieces)
    = Some (Some (header_bytes h), lastError, s1) /\
    read_payload fuel (Z.of_nat (length body)) (Z.of_nat (length body)) []
      lastError s1 = Some (Some body, lastError, s2).
Proof.
  intros Hne Hconcat Hsmall Hfuel8 Hfuel.
  destruct (read_header_pieces fuel pieces [] 0 [] lastError Hne
              ltac:(unfold sizeof_TlvHeader; lia))
    as (pieces1 & Hheader & Hrest1 & Hne1).
  { rewrite Hconcat, length_app, length_header_bytes. unfold sizeof_TlvHeader. lia. }
  { unfold sizeof_TlvHeader. lia. }
  change (Z.to_nat (sizeof_TlvHeader - 0)) with 8%nat in Hheader, Hrest1.
  rewrite Hconcat in Hheader, Hrest1.
  rewrite (take_app_length' (header_bytes h)) in Hheader by reflexivity.
  rewrite (drop_app_length' (header_bytes h)) in Hrest1 by reflexivity.
  rewrite !app_nil_r in Hheader. cbn [app] in Hheader.
  destruct (read_payload_pieces fuel pieces1 [] (Z.of_nat (length body))
              (Z.of_nat (length body)) [] lastError Hne1 ltac:(lia))
    as (pieces2 & Hpayload & _ & _).
  { rewrite Hrest1, length_app. lia. }
  { lia. }
  rewrite Nat2Z.id, Hrest1, take_app_length, !app_nil_r in Hpayload.
  cbn [app] in Hpayload. eauto.
Qed.

(** What the receive does once the header [h] and the payload [body] have
    been read, on a remote with a cipher whose [decrypt] succeeds. *)
Lemma packet_receive_via_ssl_deciphered (PLAIN_REQUEST PLAIN_RESPONSE : Z)
    (fuel : nat) (w : recv_world) (crypto : CryptoContext) (h : TlvHeader)
    (body plain : list Z) (res plainLength lastError1 lastError2 : Z)
    (s1 s2 : list chunk) :
  0 <= hdr_length h < 2 ^ 32 -> 0 <= hdr_type h < 2 ^ 32 ->
  DWORD (ntohl (hdr_length h) - sizeof_TlvHeader) = Z.of_nat (length body) ->
  rw_malloc w (Z.of_nat (length body)) = true -> rw_malloc_packet w = true ->
  rw_cipher w = Some crypto ->
  PLAIN_REQUEST <> 0 -> PLAIN_RESPONSE <> 0 ->
  decrypt crypto body (Z.of_nat (length body)) = (res, plain, plainLength) ->
  DWORD res = ERROR_SUCCESS ->
  read_header fuel 0 [] (rw_last_error w) (rw_stream w)
  = Some (Some (header_bytes h), lastError1, s1) ->
  read_payload fuel (Z.of_nat (length body)) (Z.of_nat (length body)) []
    lastError1 s1 = Some (Some body, lastError2, s2) ->
  packet_receive_via_ssl PLAIN_REQUEST PLAIN_RESPONSE fuel w
  = Some (ERROR_SUCCESS, Some (mk_packet h plain (DWORD plainLength)),
          [Decrypt body]).
Proof.
  intros Hl Ht Hannounced Hmalloc Hpacket Hcipher N1 N2 Hd Hres Hheader Hpayload.
  unfold packet_receive_via_ssl. rewrite Hheader. cbn [mbind option_bind].
  unfold header_bytes.
  rewrite (dword_at_dword_bytes (hdr_length h) (dword_bytes (hdr_type h)) Hl).
  rewrite (drop_app_length' (dword_bytes (hdr_length h))) by reflexivity.
  rewrite <- (app_nil_r (dword_bytes (hdr_type h))).
  rewrite (dword_at_dword_bytes (hdr_type h) [] Ht).
  cbn [hdr_length]. rewrite Hannounced, Hmalloc. cbn [negb].
  rewrite Hpayload. cbn [mbind option_bind]. rewrite Hpacket, Hcipher.
  change (packet_get_type packet_zero) with 0.
  destruct (Z.eqb_spec 0 PLAIN_REQUEST); [congruence |].
  destruct (Z.eqb_spec 0 PLAIN_RESPONSE); [congruence |].
  cbn [negb andb]. rewrite Hd, Hres. cbn. destruct h. reflexivity.
Qed.

(** The header of a packet that satisfies the invariant announces its
    payload. *)
Lemma packet_wf_announces (p : Packet) :
  packet_wf p -> payloadLength p + sizeof_TlvHeader < 2 ^ 31 ->
  0 <= hdr_length (header p) < 2 ^ 32 /\
  DWORD (ntohl (hdr_length (header p)) - sizeof_TlvHeader)
  = Z.of_nat (length (payload p)).
Proof.
  intros (Hlen & Hhdr) Hfit. rewrite Hhdr. split; [apply htonl_range |].
  assert (0 <= payloadLength p) by lia.
  rewrite ntohl_htonl by word_lia. rewrite DWORD_small by word_lia.
  unfold sizeof_TlvHeader. lia.
Qed.

(** X12: what a transmit sends on a remote without cipher, a receive at
    the far end gives back.  The packet satisfies its invariant and every
    write goes through, in whatever portions; the bytes arrive at the far
    end in any pieces.  The packet handed over there has the header, the
    payload and the payload length of the packet sent, which is the packet
    given with its request id attached. *)
Theorem packet_transmit_then_receive
    (PLAIN_REQUEST PLAIN_RESPONSE TLV_TYPE_REQUEST_ID : Z)
    (w : xmit_world) (p : Packet) (completion : bool)
    (wire : list Z) (calls : list call)
    (far : recv_world) (pieces : list (list Z)) (fuel : nat) :
  packet_wf p -> payloadLength p < 2 ^ 30 ->
  0 <= hdr_type (header p) < 2 ^ 32 ->
  xw_cipher w = None -> writes_succeed (xw_writes w) ->
  packet_transmit_via_ssl PLAIN_REQUEST PLAIN_RESPONSE TLV_TYPE_REQUEST_ID
    w p completion = Some (ERROR_SUCCESS, wire, calls) ->
  rw_stream far = in_pieces pieces -> all_nonempty pieces ->
  concat pieces = wire ->
  rw_cipher far = None ->
  (forall n, rw_malloc far n = true) -> rw_malloc_packet far = true ->
  (length wire < fuel)%nat ->
  packet_receive_via_ssl PLAIN_REQUEST PLAIN_RESPONSE fuel far
  = Some (ERROR_SUCCESS, Some (with_request_id TLV_TYPE_REQUEST_ID w p), []).
Proof.
  intros Hwf Hfit Htype Hclear Hwrites Hsend Hstream Hne Hconcat Hfar Hmalloc
    Hpacket Hfuel.
  destruct (packet_transmit_via_ssl_sent _ _ _ w p completion wire calls
              Hwf Hfit ltac:(intros c Hc; congruence) Hwrites Hsend)
    as (sent & cs & Hcipher & -> & Hsent & Hsfit).
  destruct (with_request_id_wf TLV_TYPE_REQUEST_ID w p Hwf Hfit)
    as (_ & _ & Hqtype).
  unfold with_cipher in Hcipher. rewrite Hclear in Hcipher.
  injection Hcipher as <- <-.
  set (q := with_request_id TLV_TYPE_REQUEST_ID w p) in *.
  destruct (packet_wf_announces q Hsent Hsfit) as (Hl & Hannounced).
  rewrite length_app, length_header_bytes in Hfuel.
  destruct (read_frame_in_pieces fuel (rw_last_error far) (header q) (payload q)
              [] pieces Hne) as (s1 & s2 & Hheader & Hpayload).
  { rewrite app_nil_r. exact Hconcat. }
  { destruct Hsent as (<- & _). word_lia. }
  { lia. }
  { lia. }
  rewrite (packet_receive_via_ssl_assembled _ _ fuel far (header q) (payload q)
             (rw_last_error far) (rw_last_error far) s1 s2);
    try assumption.
  - destruct Hsent as (Hlen & _). rewrite <- Hlen. destruct q. reflexivity.
  - rewrite Hqtype. exact Htype.
  - apply Hmalloc.
  - rewrite Hstream. exact Hheader.
Qed.

Lemma packet_transmit_then_receive_witness :
  match packet_transmit_via_ssl Scenario.PLAIN_REQUEST Scenario.PLAIN_RESPONSE
          Scenario.REQUEST_ID Scenario.clear_rand_line (ping_packet 0) false with
  | Some (status, wire, _) =>
      status = ERROR_SUCCESS /\
      packet_receive_via_ssl Scenario.PLAIN_REQUEST Scenario.PLAIN_RESPONSE 64
        (Scenario.far_end None wire)
      = Some (ERROR_SUCCESS,
              Some (with_request_id Scenario.REQUEST_ID Scenario.clear_rand_line
                      (ping_packet 0)), [])
  | None => False
  end.
Proof.
  destruct (packet_transmit_via_ssl _ _ _ Scenario.clear_rand_line _ _)
    as [[[status wire] calls]|] eqn:E; [| discriminate E].
  assert (Hs : status = ERROR_SUCCESS).
  { vm_compute in E. injection E as <- _ _. reflexivity. }
  subst status. split; [reflexivity |].
  assert (Hwire : length wire = 52%nat).
  { vm_compute in E. injection E as <- _. reflexivity. }
  apply (packet_transmit_then_receive Scenario.PLAIN_REQUEST
           Scenario.PLAIN_RESPONSE Scenario.REQUEST_ID Scenario.clear_rand_line
           (ping_packet 0) false wire calls (Scenario.far_end None wire)
           [take 7 wire; take 7 (drop 7 wire); drop 14 wire] 64).
  - split; reflexivity.
  - reflexivity.
  - vm_compute. split; [discriminate | reflexivity].
  - reflexivity.
  - repeat constructor.
  - exact E.
  - reflexivity.
  - do 15 (destruct wire as [| ? wire]; [discriminate Hwire |]).
    repeat constructor; discriminate.
  - cbn [concat]. rewrite app_nil_r.
    change (drop 14 wire) with (drop (7 + 7) wire).
    rewrite <- (drop_drop wire 7 7), take_drop. apply take_drop.
  - reflexivity.
  - reflexivity.
  - reflexivity.
  - rewrite Hwire. lia.
Defined.

(** X13: what a transmit sends through the cipher of the remote, a receive
    at the far end with the same cipher gives back.  The packet is of
    neither plain type, [encrypt] succeeds and [decrypt] undoes it; every
    write goes through and the bytes arrive in any pieces.  The packet
    handed over has the payload and the payload length of the packet given
    with its request id attached, and the header that went out, whose
    length field counts the encrypted payload; [decrypt] was called once,
    on the encrypted payload. *)
Theorem packet_transmit_then_receive_ciphered
    (PLAIN_REQUEST PLAIN_RESPONSE TLV_TYPE_REQUEST_ID : Z)
    (w : xmit_world) (p : Packet) (completion : bool)
    (wire : list Z) (calls : list call) (crypto : CryptoContext)
    (far : recv_world) (pieces : list (list Z)) (fuel : nat) :
  packet_wf p -> payloadLength p < 2 ^ 30 ->
  0 <= hdr_type (header p) < 2 ^ 32 ->
  packet_get_type p <> PLAIN_REQUEST -> packet_get_type p <> PLAIN_RESPONSE ->
  PLAIN_REQUEST <> 0 -> PLAIN_RESPONSE <> 0 ->
  xw_cipher w = Some crypto -> cipher_sound crypto ->
  (forall bs res out n,
     encrypt crypto bs (Z.of_nat (length bs)) = (res, out, n) ->
     DWORD res = ERROR_SUCCESS ->
     decrypt crypto out (Z.of_nat (length out))
     = (ERROR_SUCCESS, bs, Z.of_nat (length bs))) ->
  writes_succeed (xw_writes w) ->
  packet_transmit_via_ssl PLAIN_REQUEST PLAIN_RESPONSE TLV_TYPE_REQUEST_ID
    w p completion = Some (ERROR_SUCCESS, wire, calls) ->
  rw_stream far = in_pieces pieces -> all_nonempty pieces ->
  concat pieces = wire ->
  rw_cipher far = Some crypto ->
  (forall n, rw_malloc far n = true) -> rw_malloc_packet far = true ->
  (length wire < fuel)%nat ->
  let q := with_request_id TLV_TYPE_REQUEST_ID w p in
  exists sent,
    with_cipher PLAIN_REQUEST PLAIN_RESPONSE w q
    = inl (sent, [Encrypt (payload q)]) /\
    hdr_type (header sent) = hdr_type (header p) /\
    hdr_length (header sent)
    = htonl (Z.of_nat (length (payload sent)) + sizeof_TlvHeader) /\
    packet_receive_via_ssl PLAIN_REQUEST PLAIN_RESPONSE fuel far
    = Some (ERROR_SUCCESS,
            Some (mk_packet (header sent) (payload q) (payloadLength q)),
            [Decrypt (payload sent)]).
Proof.
  intros Hwf Hfit Htype Hnot1 Hnot2 N1 N2 Hcrypto Hsound Hinverse Hwrites Hsend
    Hstream Hne Hconcat Hfar Hmalloc Hpacket Hfuel q.
  assert (Hsounds : forall c, xw_cipher w = Some c -> cipher_sound c).
  { intros c Hc. rewrite Hcrypto in Hc. injection Hc as <-. exact Hsound. }
  destruct (packet_transmit_via_ssl_sent _ _ _ w p completion wire calls
              Hwf Hfit Hsounds Hwrites Hsend)
    as (sent & cs & Hcipher & -> & Hsent & Hsfit).
  destruct (with_request_id_wf TLV_TYPE_REQUEST_ID w p Hwf Hfit)
    as (Hq & Hqfit & Hqtype).
  fold q in Hcipher, Hq, Hqfit, Hqtype.
  assert (Hqlen : payloadLength q = Z.of_nat (length (payload q)))
    by exact (proj1 Hq).
  destruct (encrypt crypto (payload q) (payloadLength q))
    as [[res out] n] eqn:Hencrypt.
  assert (Hshape : DWORD res = ERROR_SUCCESS /\
                   sent = mk_packet
                            (mk_header (htonl (DWORD (DWORD n + sizeof_TlvHeader)))
                                       (hdr_type (header p)))
                            out (DWORD n) /\
                   cs = [Encrypt (payload q)]).
  { revert Hcipher. unfold with_cipher. rewrite Hcrypto.
    unfold packet_get_type in *. rewrite Hqtype.
    destruct (Z.eqb_spec (ntohl (hdr_type (header p))) PLAIN_REQUEST);
      [contradiction |].
    destruct (Z.eqb_spec (ntohl (hdr_type (header p))) PLAIN_RESPONSE);
      [contradiction |].
    cbn [negb andb]. rewrite Hencrypt.
    destruct (Z.eqb_spec (DWORD res) ERROR_SUCCESS); cbn [negb];
      [| discriminate].
    intros [= <- <-]. auto. }
  destruct Hshape as (Hres & Hshape & ->).
  destruct (Hsound (payload q) (payloadLength q) res out n Hqlen Hqfit
              Hencrypt Hres) as (Hn & Hnfit).
  assert (Hsentlen : payloadLength sent = Z.of_nat (length (payload sent)))
    by exact (proj1 Hsent).
  exists sent. split; [exact Hcipher |].
  split; [rewrite Hshape; reflexivity |].
  split; [rewrite <- Hsentlen; exact (proj2 Hsent) |].
  destruct (packet_wf_announces sent Hsent Hsfit) as (Hl & Hannounced).
  rewrite length_app, length_header_bytes in Hfuel.
  destruct (read_frame_in_pieces fuel (rw_last_error far) (header sent)
              (payload sent) [] pieces Hne) as (s1 & s2 & Hheader & Hpayload).
  { rewrite app_nil_r. exact Hconcat. }
  { rewrite <- Hsentlen. word_lia. }
  { lia. }
  { lia. }
  rewrite Hqlen in Hencrypt.
  assert (Hout : payload sent = out) by (rewrite Hshape; reflexivity).
  pose proof (Hinverse (payload q) res out n Hencrypt Hres) as Hdecrypt.
  rewrite <- Hout in Hdecrypt.
  rewrite (packet_receive_via_ssl_deciphered _ _ fuel far crypto (header sent)
             (payload sent) (payload q) ERROR_SUCCESS
             (Z.of_nat (length (payload q))) (rw_last_error far)
             (rw_last_error far) s1 s2); try assumption.
  - rewrite <- Hqlen. rewrite DWORD_small by word_lia. reflexivity.
  - rewrite Hshape. exact Htype.
  - apply Hmalloc.
  - reflexivity.
  - rewrite Hstream. exact Hheader.
Qed.

Lemma packet_transmit_then_receive_ciphered_witness :
  match packet_transmit_via_ssl Scenario.PLAIN_REQUEST Scenario.PLAIN_RESPONSE
          Scenario.REQUEST_ID Scenario.xor_line (ping_packet 0) false with
  | Some (status, wire, _) =>
      status = ERROR_SUCCESS /\
      exists sent,
        packet_receive_via_ssl Scenario.PLAIN_REQUEST Scenario.PLAIN_RESPONSE 64
          (Scenario.far_end (Some Scenario.xor_cipher) wire)
        = Some (ERROR_SUCCESS,
                Some (mk_packet (header sent)
                        (payload (with_request_id Scenario.REQUEST_ID
                                    Scenario.xor_line (ping_packet 0)))
                        44),
                [Decrypt (payload sent)])
  | None => False
  end.
Proof.
  destruct (packet_transmit_via_ssl _ _ _ Scenario.xor_line _ _)
    as [[[status wire] calls]|] eqn:E; [| discriminate E].
  assert (Hs : status = ERROR_SUCCESS).
  { vm_compute in E. injection E as <- _ _. reflexivity. }
  subst status. split; [reflexivity |].
  assert (Hwire : length wire = 52%nat).
  { vm_compute in E. injection E as <- _. reflexivity. }
  destruct (packet_transmit_then_receive_ciphered Scenario.PLAIN_REQUEST
              Scenario.PLAIN_RESPONSE Scenario.REQUEST_ID Scenario.xor_line
              (ping_packet 0) false wire calls Scenario.xor_cipher
              (Scenario.far_end (Some Scenario.xor_cipher) wire)
              [take 7 wire; take 7 (drop 7 wire); drop 14 wire] 64)
    as (sent & _ & _ & _ & Hreceive).
  - split; reflexivity.
  - reflexivity.
  - vm_compute. split; [discriminate | reflexivity].
  - discriminate.
  - discriminate.
  - discriminate.
  - discriminate.
  - reflexivity.
  - intros bs n res out outLength Hn Hfit [= <- <- <-] _.
    rewrite length_map. split; [reflexivity |]. subst n. word_lia.
  - intros bs res out n [= <- <- <-] _. cbn [Scenario.xor_cipher decrypt].
    rewrite !length_map, map_map. f_equal. f_equal.
    rewrite <- (map_id bs) at 2. apply map_ext. intros x.
    rewrite <- Z.lxor_assoc. reflexivity.
  - repeat constructor.
  - exact E.
  - reflexivity.
  - do 15 (destruct wire as [| ? wire]; [discriminate Hwire |]).
    repeat constructor; discriminate.
  - cbn [concat]. rewrite app_nil_r.
    change (drop 14 wire) with (drop (7 + 7) wire).
    rewrite <- (drop_drop wire 7 7), take_drop. apply take_drop.
  - reflexivity.
  - reflexivity.
  - reflexivity.
  - rewrite Hwire. lia.
  - exists sent. exact Hreceive.
Defined.

(** X14: a transmit whose writes all go through comes to its end.  The
    packet satisfies its invariant, [encrypt] (where it is used) succeeds,
    and the session accepts at least one byte at each write, for at least
    as many writes as the frame has bytes: the transmit returns
    [ERROR_SUCCESS] and the header followed by the payload went out,
    however the writes portioned them. *)
Theorem packet_transmit_via_ssl_completes
    (PLAIN_REQUEST PLAIN_RESPONSE TLV_TYPE_REQUEST_ID : Z)
    (w : xmit_world) (p sent : Packet) (completion : bool) (cs : list call) :
  packet_wf p -> payloadLength p < 2 ^ 30 ->
  (forall crypto, xw_cipher w = Some crypto -> cipher_sound crypto) ->
  writes_succeed (xw_writes w) ->
  with_cipher PLAIN_REQUEST PLAIN_RESPONSE w
    (with_request_id TLV_TYPE_REQUEST_ID w p) = inl (sent, cs) ->
  sizeof_TlvHeader + payloadLength sent <= Z.of_nat (length (xw_writes w)) ->
  exists calls,
    packet_transmit_via_ssl PLAIN_REQUEST PLAIN_RESPONSE TLV_TYPE_REQUEST_ID
      w p completion
    = Some (ERROR_SUCCESS, header_bytes (header sent) ++ payload sent, calls).
Proof.
  intros Hwf Hfit Hsound Hwrites Hcipher Hlong.
  destruct (with_request_id_wf TLV_TYPE_REQUEST_ID w p Hwf Hfit)
    as (Hq & Hqfit & _).
  destruct (with_cipher_wf _ _ w _ sent cs Hq Hqfit Hsound Hcipher)
    as (Hsent & Hsfit & _ & _).
  assert (0 <= payloadLength sent) by (destruct Hsent as (-> & _); lia).
  unfold packet_transmit_via_ssl. rewrite Hcipher.
  destruct (write_header_ends (xw_writes w) (header_bytes (header sent))
              (xw_res w) 0 Hwrites ltac:(lia) ltac:(lia))
    as (res1 & out1 & rest & Hw1 & Hused).
  rewrite Hw1. cbn [mbind option_bind].
  destruct (write_header_all (xw_writes w) (header_bytes (header sent))
              (xw_res w) 0 res1 out1 rest Hwrites ltac:(lia) eq_refl Hw1)
    as (-> & Hwrites1 & Hres1).
  specialize (Hres1 ltac:(word_lia)).
  destruct (Z.ltb_spec res1 0) as [? | _]; [lia |].
  destruct (write_payload_ends rest (payload sent) (payloadLength sent) res1 0
              Hwrites1 ltac:(lia) ltac:(word_lia))
    as (res2 & out2 & rest2 & Hw2).
  { unfold sizeof_TlvHeader in *. lia. }
  rewrite Hw2. cbn [mbind option_bind].
  destruct (write_payload_all rest (payload sent) (payloadLength sent)
              res1 0 res2 out2 rest2 Hwrites1 ltac:(lia) (proj1 Hsent)
              ltac:(word_lia) Hres1 Hw2) as (-> & Hres2).
  destruct (Z.ltb_spec res2 0) as [? | _]; [lia |].
  cbn [Z.to_nat drop]. eauto.
Qed.

Lemma packet_transmit_via_ssl_completes_witness :
  exists calls,
    packet_transmit_via_ssl Scenario.PLAIN_REQUEST Scenario.PLAIN_RESPONSE
      Scenario.REQUEST_ID Scenario.byte_line (ping_packet 0) true
    = Some (ERROR_SUCCESS,
            header_bytes
              (header (with_request_id Scenario.REQUEST_ID Scenario.byte_line
                         (ping_packet 0)))
            ++ payload (with_request_id Scenario.REQUEST_ID Scenario.byte_line
                          (ping_packet 0)),
            calls).
Proof.
  apply (packet_transmit_via_ssl_completes Scenario.PLAIN_REQUEST
           Scenario.PLAIN_RESPONSE Scenario.REQUEST_ID Scenario.byte_line
           (ping_packet 0)
           (with_request_id Scenario.REQUEST_ID Scenario.byte_line
              (ping_packet 0)) true []).
  - split; reflexivity.
  - reflexivity.
  - intros crypto Hc. discriminate Hc.
  - apply Forall_replicate. split; reflexivity.
  - reflexivity.
  - vm_compute. discriminate.
Defined.

(** ** The dispatcher *)

Lemma handled_app (turns more : list tick) :
  handled (turns ++ more) = handled turns ++ handled more.
Proof.
  induction turns as [| k turns IH]; [reflexivity |].
  cbn [app handled]. rewrite IH. destruct (received k); reflexivity.
Qed.

(** How the loop is left, when it is entered with a result of
    [ERROR_SUCCESS]: after turns that all went on, in a turn [k]; the
    command handler has been called for each packet that came in, [k]
    included; and the result is a failure only when in [k] the poll or the
    receive failed. *)
Lemma dispatch_loop_leaves (transport : Transport) (script : list tick) :
  forall (lastPacket r : Z) (calls : list call),
    dispatch_loop transport lastPacket ERROR_SUCCESS script = Some (r, calls) ->
    exists before k rest,
      script = before ++ k :: rest /\
      Forall goes_on before /\
      calls = handled (before ++ [k]) /\
      (r = ERROR_SUCCESS \/
       (tk_sigterm k = false /\ INT (tk_poll k) < 0 /\ r = INT (tk_poll k)) \/
       (tk_sigterm k = false /\ 0 < INT (tk_poll k) /\
        r = INT (fst (tk_receive k)) /\ r <> ERROR_SUCCESS)).
Proof.
  induction script as [| k script IH]; intros lastPacket r calls;
    cbn [dispatch_loop]; [discriminate |].
  unfold ERROR_SUCCESS in *.
  destruct (tk_sigterm k) eqn:Hs.
  { intros [= <- <-]. exists [], k, script.
    cbn [app handled]. unfold received, ERROR_SUCCESS. rewrite Hs. auto. }
  destruct (Z.gtb_spec (INT (tk_poll k)) 0) as [Hp | Hp].
  - destruct (Z.eqb_spec (INT (fst (tk_receive k))) 0) as [Hr | Hr];
      cbn [negb].
    + rewrite Hr. destruct (tk_continue k) eqn:Hc.
      * destruct (dispatch_loop transport (tk_now k) 0 script)
          as [[r' calls'] |] eqn:Hloop; cbn [mbind option_bind];
          [| discriminate].
        intros [= <- <-].
        destruct (IH _ _ _ Hloop) as (before & k' & rest & -> & Hon & -> & Hr').
        exists (k :: before), k', rest.
        split; [reflexivity |]. split.
        { constructor; [| exact Hon]. split; [exact Hs |].
          split; [lia | auto]. }
        split; [| exact Hr'].
        cbn [app handled]. unfold received, ERROR_SUCCESS. rewrite Hs, Hr.
        destruct (Z.gtb_spec (INT (tk_poll k)) 0); [| lia]. reflexivity.
      * intros [= <- <-]. exists [], k, script.
        cbn [app handled]. unfold received, ERROR_SUCCESS. rewrite Hs, Hr.
        destruct (Z.gtb_spec (INT (tk_poll k)) 0); [| lia]. auto.
    + intros [= <- <-]. exists [], k, script.
      cbn [app handled]. unfold received, ERROR_SUCCESS. rewrite Hs.
      destruct (Z.gtb_spec (INT (tk_poll k)) 0); [| lia].
      destruct (Z.eqb_spec (INT (fst (tk_receive k))) 0); [lia |].
      cbn [negb andb]. split; [reflexivity |]. split; [constructor |].
      split; [reflexivity |]. right. right. auto with zarith.
  - destruct (Z.eqb_spec (INT (tk_poll k)) 0) as [Hz | Hz].
    + rewrite Hz.
      destruct ((tk_now k >? expiration_end transport)
                || (tk_now k - lastPacket >? comms (timeouts transport))).
      * intros [= <- <-]. exists [], k, script.
        cbn [app handled]. unfold received, ERROR_SUCCESS. rewrite Hs, Hz. auto.
      * intros Hloop.
        destruct (IH _ _ _ Hloop) as (before & k' & rest & -> & Hon & -> & Hr').
        exists (k :: before), k', rest.
        split; [reflexivity |]. split.
        { constructor; [| exact Hon]. split; [exact Hs |].
          split; [lia |]. unfold received, ERROR_SUCCESS. rewrite Hs, Hz. discriminate. }
        split; [| exact Hr'].
        cbn [app handled]. unfold received, ERROR_SUCCESS. rewrite Hs, Hz. reflexivity.
    + intros [= <- <-]. exists [], k, script.
      cbn [app handled]. unfold received, ERROR_SUCCESS. rewrite Hs.
      destruct (Z.gtb_spec (INT (tk_poll k)) 0); [lia |].
      cbn [negb andb]. split; [reflexivity |]. split; [constructor |].
      split; [reflexivity |]. right. left. split; [reflexivity |]. lia.
Qed.

(** X15: the dispatcher returns a failure only for three reasons: the
    scheduler did not come up (nothing else is called then), the poll of
    the socket failed, or a receive failed; the status is the one of what
    failed, as a [DWORD].  A request to terminate, a stop asked by the
    command handler and the two timeouts all return [ERROR_SUCCESS]. *)
Theorem server_dispatch_tcp_status (transport : Transport)
    (scheduler start status : Z) (script : list tick) (calls : list call) :
  server_dispatch_tcp transport scheduler start script = Some (status, calls) ->
  status <> ERROR_SUCCESS ->
  (INT scheduler <> ERROR_SUCCESS /\ status = DWORD (INT scheduler) /\
   calls = []) \/
  (INT scheduler = ERROR_SUCCESS /\
   exists before k rest,
     script = before ++ k :: rest /\ Forall goes_on before /\
     tk_sigterm k = false /\
     ((INT (tk_poll k) < 0 /\ status = DWORD (INT (tk_poll k))) \/
      (0 < INT (tk_poll k) /\ INT (fst (tk_receive k)) <> ERROR_SUCCESS /\
       status = DWORD (INT (fst (tk_receive k)))))).
Proof.
  unfold server_dispatch_tcp.
  destruct (Z.eqb_spec (INT scheduler) ERROR_SUCCESS) as [Hs | Hs]; cbn [negb].
  2: { intros [= <- <-] _. left. auto. }
  rewrite Hs.
  destruct (dispatch_loop transport start ERROR_SUCCESS script)
    as [[r calls'] |] eqn:Hloop; cbn [mbind option_bind]; [| discriminate].
  intros [= <- <-] Hfailed. right. split; [reflexivity |].
  destruct (dispatch_loop_leaves _ _ _ _ _ Hloop)
    as (before & k & rest & -> & Hon & _ & Hr).
  exists before, k, rest. split; [reflexivity |]. split; [exact Hon |].
  destruct Hr as [-> | [(Hk & Hp & ->) | (Hk & Hp & -> & Hr)]].
  - contradiction Hfailed. reflexivity.
  - split; [exact Hk |]. left. auto.
  - split; [exact Hk |]. right. auto.
Qed.

Lemma server_dispatch_tcp_status_witness :
  server_dispatch_tcp Scenario.quiet_transport ERROR_SUCCESS 1000
    Scenario.busy_line
  = Some (ERROR_NOT_FOUND,
          [CommandHandle [1; 2]; CommandHandle [3];
           SchedulerDestroy; CommandJoinThreads]) /\
  exists before k rest,
    Scenario.busy_line = before ++ k :: rest /\ Forall goes_on before /\
    tk_sigterm k = false /\
    ((INT (tk_poll k) < 0 /\ ERROR_NOT_FOUND = DWORD (INT (tk_poll k))) \/
     (0 < INT (tk_poll k) /\ INT (fst (tk_receive k)) <> ERROR_SUCCESS /\
      ERROR_NOT_FOUND = DWORD (INT (fst (tk_receive k))))).
Proof.
  split; [reflexivity |].
  destruct (server_dispatch_tcp_status Scenario.quiet_transport ERROR_SUCCESS
              1000 ERROR_NOT_FOUND Scenario.busy_line
              [CommandHandle [1; 2]; CommandHandle [3];
               SchedulerDestroy; CommandJoinThreads] eq_refl)
    as [(Hs & _) | (_ & Hleft)].
  - discriminate.
  - contradiction Hs. reflexivity.
  - exact Hleft.
Defined.

(** X16: once the scheduler is up, the dispatcher hands every packet that
    came in to the command handler, once and in the order of arrival, and
    nothing else; a packet whose receive failed is not handed over, and no
    turn is taken after the handler asked to stop.  Whatever way the loop
    is left, the scheduler is then destroyed and the command threads are
    joined, in that order, as the last two calls. *)
Theorem server_dispatch_tcp_handles_each_packet (transport : Transport)
    (scheduler start status : Z) (script : list tick) (calls : list call) :
  server_dispatch_tcp transport scheduler start script = Some (status, calls) ->
  INT scheduler = ERROR_SUCCESS ->
  exists before k rest,
    script = before ++ k :: rest /\ Forall goes_on before /\
    calls = handled (before ++ [k]) ++ [SchedulerDestroy; CommandJoinThreads].
Proof.
  unfold server_dispatch_tcp. intros Hrun Hs. revert Hrun. rewrite Hs.
  change (negb (ERROR_SUCCESS =? ERROR_SUCCESS)) with false. cbv iota.
  destruct (dispatch_loop transport start ERROR_SUCCESS script)
    as [[r calls'] |] eqn:Hloop; cbn [mbind option_bind]; [| discriminate].
  intros [= <- <-].
  destruct (dispatch_loop_leaves _ _ _ _ _ Hloop)
    as (before & k & rest & -> & Hon & -> & _).
  exists before, k, rest. auto.
Qed.

Lemma server_dispatch_tcp_handles_each_packet_witness :
  exists before k rest,
    Scenario.busy_line = before ++ k :: rest /\ Forall goes_on before /\
    [CommandHandle [1; 2]; CommandHandle [3];
     SchedulerDestroy; CommandJoinThreads]
    = handled (before ++ [k]) ++ [SchedulerDestroy; CommandJoinThreads].
Proof.
  apply (server_dispatch_tcp_handles_each_packet Scenario.quiet_transport
           ERROR_SUCCESS 1000 ERROR_NOT_FOUND Scenario.busy_line).
  - reflexivity.
  - reflexivity.
Defined.

(** ** The life of a transport *)

(** A number that fits an [int] is the [int] it is stored as. *)
Lemma INT_fits (z : Z) : - 2 ^ 31 <= z < 2 ^ 31 -> INT z = z.
Proof.
  change (2 ^ 31) with 2147483648. intros Hz.
  destruct (Z.neg_nonneg_cases z) as [Hneg | Hpos].
  - unfold INT. change (2 ^ 32) with 4294967296. change (2 ^ 31) with 2147483648.
    replace (z mod 4294967296) with (z + 4294967296).
    + destruct (Z.ltb_spec (z + 4294967296) 2147483648); lia.
    + apply (Z.mod_unique z 4294967296 (-1)); lia.
  - apply INT_small. change (2 ^ 31) with 2147483648. lia.
Qed.

(** X17: a transport that has just been created is of the SSL kind and
    carries the timeouts it was given; the end of its session is the time
    of its creation plus [expiry], as a sum of two [int]: the sum itself
    when it fits an [int], and wrapped at 32 bits when it does not.  Its
    context is a new, zeroed block, so that [transport_get_socket_tcp]
    returns 0 for it; no context that existed is changed; and destroying
    it gives back the heap as it was before the creation. *)
Theorem transport_create_tcp_fresh (h : gmap nat TcpTransportContext)
    (timeouts0 : TimeoutSettings) (now : Z) :
  let h' := (transport_create_tcp h timeouts0 now).1 in
  let t := (transport_create_tcp h timeouts0 now).2 in
  type t = METERPRETER_TRANSPORT_SSL /\ timeouts t = timeouts0 /\
  expiration_end t = INT (now + expiry timeouts0) /\
  (- 2 ^ 31 <= now + expiry timeouts0 < 2 ^ 31 ->
   expiration_end t = now + expiry timeouts0) /\
  h !! tctx t = None /\ h' !! tctx t = Some ctx_zero /\
  transport_get_socket_tcp h' (Some t) = Some 0 /\
  (forall a c, h !! a = Some c -> h' !! a = Some c) /\
  transport_destroy_tcp h' (Some (Some t)) = h.
Proof.
  intros h' t. subst h' t. unfold transport_create_tcp.
  cbn [fst snd type timeouts expiration_end tctx].
  assert (Hfresh : h !! fresh (dom h) = None).
  { apply not_elem_of_dom. apply is_fresh. }
  split; [reflexivity |]. split; [reflexivity |]. split; [reflexivity |].
  split; [apply INT_fits |].
  split; [exact Hfresh |]. split; [apply lookup_insert_eq |].
  split; [| split].
  - unfold transport_get_socket_tcp. cbn [type tctx].
    case_decide; [| contradiction]. rewrite lookup_insert_eq. reflexivity.
  - intros a c Ha. rewrite lookup_insert_ne; [exact Ha |].
    intros <-. rewrite Hfresh in Ha. discriminate Ha.
  - unfold transport_destroy_tcp. cbn [type tctx].
    case_decide; [| contradiction].
    rewrite delete_insert_eq. apply delete_id. exact Hfresh.
Qed.

(** A session created at 1700000000 with an [expiry] of 500000000 seconds:
    the sum does not fit an [int], and the end of the session lies in the
    past. *)
Lemma transport_create_tcp_fresh_witness :
  expiration_end
    (transport_create_tcp Scenario.live_heap (mk_timeouts 3600 10 5 1) 1000).2
  = 4600 /\
  expiration_end
    (transport_create_tcp Scenario.live_heap
       (mk_timeouts 500000000 10 5 1) 1700000000).2
  = -2094967296.
Proof.
  split.
  - destruct (transport_create_tcp_fresh Scenario.live_heap
                (mk_timeouts 3600 10 5 1) 1000) as (_ & _ & _ & Hfits & _).
    apply Hfits. cbn. lia.
  - destruct (transport_create_tcp_fresh Scenario.live_heap
                (mk_timeouts 500000000 10 5 1) 1700000000)
      as (_ & _ & Hend & _).
    rewrite Hend. reflexivity.
Defined.

(** X18: the block that [transport_reset_tcp] allocates is never released.
    For a transport of the SSL kind with a context, after a reset and the
    destruction of the transport the heap still holds the block of the
    reset, with a handle of 0, where the heap before held nothing; the
    context of the transport is gone, and every other context is as it
    was. *)
Theorem transport_reset_tcp_block_stays (junk : TcpTransportContext)
    (h : gmap nat TcpTransportContext) (t : Transport) (c : TcpTransportContext) :
  type t = METERPRETER_TRANSPORT_SSL -> h !! tctx t = Some c ->
  let h' := transport_destroy_tcp (transport_reset_tcp junk h (Some t)).1
              (Some (Some t)) in
  h !! fresh (dom h) = None /\
  h' !! fresh (dom h) = Some (set_fd junk 0) /\
  h' !! tctx t = None /\
  (forall a, a <> tctx t -> a <> fresh (dom h) -> h' !! a = h !! a).
Proof.
  intros Ht Hc h'. subst h'. unfold transport_destroy_tcp, transport_reset_tcp.
  case_decide; [| contradiction]. cbn [fst].
  assert (Hfresh : h !! fresh (dom h) = None).
  { apply not_elem_of_dom. apply is_fresh. }
  assert (Hne : tctx t <> fresh (dom h)).
  { intros E. rewrite E, Hfresh in Hc. discriminate Hc. }
  split; [exact Hfresh |]. split; [| split].
  - rewrite lookup_delete_ne by exact Hne. apply lookup_insert_eq.
  - apply lookup_delete_eq.
  - intros a Ha Hb. rewrite lookup_delete_ne by congruence.
    apply lookup_insert_ne. congruence.
Qed.

Lemma transport_reset_tcp_block_stays_witness :
  let h' := transport_destroy_tcp
              (transport_reset_tcp Scenario.live_ctx Scenario.live_heap
                 (Some Scenario.live_transport)).1
              (Some (Some Scenario.live_transport)) in
  h' !! fresh (dom Scenario.live_heap) = Some (set_fd Scenario.live_ctx 0) /\
  h' !! tctx Scenario.live_transport = None.
Proof.
  destruct (transport_reset_tcp_block_stays Scenario.live_ctx
              Scenario.live_heap Scenario.live_transport Scenario.live_ctx)
    as (_ & Hblock & Hgone & _).
  - reflexivity.
  - reflexivity.
  - split; [exact Hblock | exact Hgone].
Defined.

(** ** The flush *)

(** X19: the flush of the socket ends at the first turn in which [select]
    returns 0, before any [recv], or in which [recv] returns 0, and at no
    other: a [select] or a [recv] that fails, returning [SOCKET_ERROR],
    sends the loop round again, so that on a socket on which both keep
    failing the flush does not end. *)
Theorem server_socket_flush_stops (script : list (Z * Z)) :
  (forall flushed,
     server_socket_flush script = Some flushed <->
     exists before turn rest,
       script = before ++ turn :: rest /\ Forall flushes_on before /\
       ((INT (fst turn) = 0 /\
         flushed = map (fun t => DWORD (snd t)) before) \/
        (INT (fst turn) <> 0 /\ DWORD (snd turn) = 0 /\
         flushed = map (fun t => DWORD (snd t)) before ++ [0]))) /\
  (Forall (fun turn => fst turn = SOCKET_ERROR /\ snd turn = SOCKET_ERROR) script ->
   server_socket_flush script = None).
Proof.
  split.
  - induction script as [| [data r] script IH]; intros flushed;
      cbn [server_socket_flush].
    + split; [discriminate |]. intros (before & turn & rest & E & _).
      destruct before; discriminate E.
    + destruct (Z.eqb_spec (INT data) 0) as [Hd | Hd].
      { split.
        - intros [= <-]. exists [], (data, r), script. auto.
        - intros (before & turn & rest & E & Hon & Hwhy).
          destruct before as [| t before]; cbn [app] in E.
          + injection E as <- _. destruct Hwhy as [(_ & ->) | (Hn & _)];
              [reflexivity | contradiction].
          + injection E as <- _. inversion Hon as [| ? ? (Hn & _) _].
            contradiction. }
      destruct (Z.eqb_spec (DWORD r) 0) as [Hr | Hr].
      { split.
        - intros [= <-]. exists [], (data, r), script.
          split; [reflexivity |]. split; [constructor |]. right.
          rewrite Hr. auto.
        - intros (before & turn & rest & E & Hon & Hwhy).
          destruct before as [| t before]; cbn [app] in E.
          + injection E as <- _. destruct Hwhy as [(Hz & _) | (_ & _ & ->)];
              [contradiction |]. rewrite Hr. reflexivity.
          + injection E as <- _. inversion Hon as [| ? ? (_ & Hn) _].
            contradiction. }
      destruct (server_socket_flush script) as [flushed' |] eqn:Hrest;
        cbn [mbind option_bind].
      * split.
        -- intros [= <-].
           destruct (proj1 (IH flushed') eq_refl)
             as (before & turn & rest & -> & Hon & Hwhy).
           exists ((data, r) :: before), turn, rest.
           split; [reflexivity |].
           split; [constructor; [split; assumption | exact Hon] |].
           cbn [map app snd].
           destruct Hwhy as [(Hz & ->) | (Hz & Hs & ->)]; auto.
        -- intros (before & turn & rest & E & Hon & Hwhy).
           destruct before as [| t before]; cbn [app] in E.
           ++ injection E as <- _. cbn [fst snd] in Hwhy.
              destruct Hwhy as [(Hz & _) | (_ & Hz & _)]; contradiction.
           ++ injection E as <- ->. inversion Hon as [| ? ? _ Hon'].
              destruct Hwhy as [(Hz & ->) | (Hz & Hs & ->)].
              ** assert (Hsome : Some flushed'
                                 = Some (map (fun t => DWORD (snd t)) before)).
                 { apply IH. exists before, turn, rest. auto. }
                 injection Hsome as ->. reflexivity.
              ** assert (Hsome : Some flushed'
                                 = Some (map (fun t => DWORD (snd t)) before
                                         ++ [0])).
                 { apply IH. exists before, turn, rest. auto 6. }
                 injection Hsome as ->. reflexivity.
      * split; [discriminate |].
        intros (before & turn & rest & E & Hon & Hwhy).
        destruct before as [| t before]; cbn [app] in E.
        -- injection E as <- _. cbn [fst snd] in Hwhy.
           destruct Hwhy as [(Hz & _) | (_ & Hz & _)]; contradiction.
        -- injection E as <- ->. inversion Hon as [| ? ? _ Hon'].
           assert (Hsome : exists f : list Z, None = Some f).
           { destruct Hwhy as [(Hz & _) | (Hz & Hs & _)]; eexists;
               apply IH; exists before, turn, rest; eauto 6. }
           destruct Hsome as (f & Hsome). discriminate Hsome.
  - induction 1 as [| [data r] script (Hd & Hr) _ IH]; [reflexivity |].
    cbn [fst snd] in Hd, Hr. subst data r. cbn [server_socket_flush].
    rewrite IH. reflexivity.
Qed.
(** ** The url *)

Lemma cstring_id (s : list ascii) : NUL ∉ s -> cstring s = s.
Proof.
  induction s as [| a s IH]; intros Hs; [reflexivity |].
  cbn [cstring]. destruct (Ascii.eqb_spec a NUL) as [-> | _].
  - contradiction Hs. apply elem_of_cons. left. reflexivity.
  - rewrite IH; [reflexivity |]. intros Hin. apply Hs.
    apply elem_of_cons. right. exact Hin.
Qed.

Lemma cstring_cut (s rest : list ascii) :
  NUL ∉ s -> cstring (s ++ NUL :: rest) = s.
Proof.
  induction s as [| a s IH]; intros Hs; [reflexivity |].
  cbn [cstring app]. destruct (Ascii.eqb_spec a NUL) as [-> | _].
  - contradiction Hs. apply elem_of_cons. left. reflexivity.
  - rewrite IH; [reflexivity |]. intros Hin. apply Hs.
    apply elem_of_cons. right. exact Hin.
Qed.

Lemma strrchr_absent (s : list ascii) (c : ascii) :
  c ∉ s -> strrchr s c = None.
Proof.
  induction s as [| a s IH]; intros Hs; [reflexivity |].
  cbn [strrchr]. rewrite IH.
  - destruct (Ascii.eqb_spec a c) as [-> | _]; [| reflexivity].
    contradiction Hs. apply elem_of_cons. left. reflexivity.
  - intros Hin. apply Hs. apply elem_of_cons. right. exact Hin.
Qed.

(** [strrchr] finds the last one. *)
Lemma strrchr_last (s tail : list ascii) (c : ascii) :
  c ∉ tail -> strrchr (s ++ c :: tail) c = Some (length s).
Proof.
  intros Htail. induction s as [| a s IH]; cbn [strrchr app length].
  - rewrite (strrchr_absent _ _ Htail), Ascii.eqb_refl. reflexivity.
  - rewrite IH. reflexivity.
Qed.

Lemma drop_past (s tail : list ascii) (c : ascii) :
  drop (length s + 1) (s ++ c :: tail) = tail.
Proof.
  induction s as [| a s IH]; [reflexivity | exact IH].
Qed.

Lemma poke_at (s tail : list ascii) (c : ascii) :
  poke (s ++ c :: tail) (length s) = s ++ NUL :: tail.
Proof.
  unfold poke. induction s as [| a s IH]; [reflexivity |].
  cbn [app length]. cbn [insert list_insert]. f_equal. exact IH.
Qed.

Lemma drop_past_prefix (pre s tail : list ascii) (c : ascii) :
  drop (length pre + length s + 1) (pre ++ s ++ c :: tail) = tail.
Proof.
  rewrite <- Nat.add_assoc, drop_app_add. apply drop_past.
Qed.

Lemma poke_app (pre s : list ascii) (i : nat) :
  poke (pre ++ s) (length pre + i) = pre ++ poke s i.
Proof. apply insert_app_r. Qed.

Lemma not_elem_of_app_cons (c a : ascii) (s tail : list ascii) :
  c ∉ s -> c <> a -> c ∉ tail -> c ∉ s ++ a :: tail.
Proof.
  intros Hs Ha Ht Hin. apply elem_of_app in Hin as [Hin | Hin];
    [exact (Hs Hin) |].
  apply elem_of_cons in Hin as [Hin | Hin]; [exact (Ha Hin) | exact (Ht Hin)].
Qed.

(** X20: a url of the form [tcp://host:port], where [host] is all that
    stands between the two slashes and the last colon and [port] is read
    as a number, is a reverse connection over IPv4 to [host], and to the
    port reduced modulo 65536, when [host] is not empty and does not start
    with a colon; otherwise it is a bind to that port, and what stands
    before the last colon is not looked at.  The retry budget, the wait
    and the end of the session are those of the transport, and what
    follows the establishment is the same in both cases. *)
Theorem configure_tcp_connection_tcp_url (w : configure_world)
    (transport : Transport) (host port : list ascii)
    (c : TcpTransportContext) (sock n : Z) :
  NUL ∉ host -> NUL ∉ port -> ":"%char ∉ port -> atoi port = Some n ->
  configure_tcp_connection w transport
    (list_ascii_of_string "tcp://" ++ host ++ ":"%char :: port) c sock
  = match host with
    | a :: _ =>
        if Ascii.eqb a ":"
        then
          let '(result, s, calls) := bind_tcp (cw_bind w (n mod 65536)) (fd c) in
          secure w (result, set_fd c s, calls)
        else
          '(result, s, calls) ←
            reverse_tcp4 (cw_tcp4 w host (n mod 65536))
              (DWORD (retry_total (timeouts transport)))
              (DWORD (retry_wait (timeouts transport)))
              (expiration_end transport) (fd c);
          secure w (result, set_fd c s, calls)
    | [] =>
        let '(result, s, calls) := bind_tcp (cw_bind w (n mod 65536)) (fd c) in
        secure w (result, set_fd c s, calls)
    end.
Proof.
  intros Hhost Hport Hcolon Hn.
  unfold configure_tcp_connection, establish.
  rewrite cstring_id.
  2: { cbn [list_ascii_of_string app].
       repeat (apply not_elem_of_cons; split; [discriminate |]).
       apply not_elem_of_app_cons; [exact Hhost | discriminate | exact Hport]. }
  cbn [list_ascii_of_string app].
  set (buf := "t"%char :: "c"%char :: "p"%char :: ":"%char :: _).
  assert (F1 : starts_with ["t"; "c"; "p"]%char buf = true) by reflexivity.
  assert (F2 : strstr buf ["/"; "/"]%char = Some 4%nat) by reflexivity.
  assert (F3 : drop 6 buf = host ++ ":"%char :: port) by reflexivity.
  assert (F4 : char_at buf 3 = ":"%char) by reflexivity.
  assert (F5 : char_at buf 6 = match host with a :: _ => a | [] => ":"%char end).
  { destruct host; reflexivity. }
  assert (F6 : drop (6 + length host + 1) buf = port).
  { exact (drop_past host port ":"). }
  assert (F7 : drop 6 (poke buf (6 + length host + 1 - 1))
               = host ++ NUL :: port).
  { replace (6 + length host + 1 - 1)%nat with (6 + length host)%nat by lia.
    exact (poke_at host port ":"). }
  clearbody buf.
  rewrite F1, F2. cbn [fmap option_fmap option_map mbind option_bind].
  change (4 + 2)%nat with 6%nat.
  rewrite F3, (strrchr_last host port ":" Hcolon).
  cbn [fmap option_fmap option_map mbind option_bind].
  rewrite F4. change (Ascii.eqb ":" "6") with false. cbv iota.
  rewrite F6, (cstring_id port Hport), Hn.
  cbn [mbind option_bind]. rewrite F5, F7, (cstring_cut host port Hhost).
  assert (Hbind :
            (let '(result, s, calls) := bind_tcp (cw_bind w (n mod 65536)) (fd c) in
             Some (result, set_fd c s, calls)) ≫= secure w
            = (let '(result, s, calls) := bind_tcp (cw_bind w (n mod 65536)) (fd c) in
               secure w (result, set_fd c s, calls))).
  { destruct (bind_tcp _ _) as [[result s] calls]. reflexivity. }
  destruct host as [| a host'].
  - change (Ascii.eqb ":" ":") with true. cbv iota. exact Hbind.
  - destruct (Ascii.eqb a ":"); [exact Hbind |].
    destruct (reverse_tcp4 _ _ _ _ _) as [[[result s] calls] |]; reflexivity.
Qed.

Lemma configure_tcp_connection_tcp_url_witness :
  configure_tcp_connection Scenario.network Scenario.quiet_transport
    (list_ascii_of_string "tcp://10.0.0.5:70000") ctx_zero 0
  = '(result, s, calls) ←
      reverse_tcp4
        (cw_tcp4 Scenario.network (list_ascii_of_string "10.0.0.5") 4464)
        5 1 4600 0;
    secure Scenario.network (result, set_fd ctx_zero s, calls).
Proof.
  apply (configure_tcp_connection_tcp_url Scenario.network
           Scenario.quiet_transport (list_ascii_of_string "10.0.0.5")
           (list_ascii_of_string "70000") ctx_zero 0 70000).
  - cbn [list_ascii_of_string].
    repeat (apply not_elem_of_cons; split; [discriminate |]).
    apply not_elem_of_nil.
  - cbn [list_ascii_of_string].
    repeat (apply not_elem_of_cons; split; [discriminate |]).
    apply not_elem_of_nil.
  - cbn [list_ascii_of_string].
    repeat (apply not_elem_of_cons; split; [discriminate |]).
    apply not_elem_of_nil.
  - reflexivity.
Defined.

(** X21: a url of the form [tcp6://host:service?scope] is a reverse
    connection over IPv6: [scope] is what follows the last question mark,
    read as a number; [service] is what stands between the last colon and
    that question mark, and is handed over as a string; [host] is all that
    stands between the two slashes and that colon, colons included. *)
Theorem configure_tcp_connection_tcp6_url (w : configure_world)
    (transport : Transport) (host service scope : list ascii)
    (c : TcpTransportContext) (sock n : Z) :
  NUL ∉ host -> NUL ∉ service -> NUL ∉ scope ->
  ":"%char ∉ service -> ":"%char ∉ scope -> "?"%char ∉ scope ->
  atol scope = Some n ->
  configure_tcp_connection w transport
    (list_ascii_of_string "tcp6://" ++ host ++ ":"%char :: service
       ++ "?"%char :: scope) c sock
  = '(result, s, calls) ←
      reverse_tcp6 (cw_tcp6 w host service (DWORD n))
        (DWORD (retry_total (timeouts transport)))
        (DWORD (retry_wait (timeouts transport)))
        (expiration_end transport) (fd c);
    secure w (result, set_fd c s, calls).
Proof.
  intros Hhost Hservice Hscope Hcolon1 Hcolon2 Hmark Hn.
  unfold configure_tcp_connection, establish.
  rewrite cstring_id.
  2: { cbn [list_ascii_of_string app].
       repeat (apply not_elem_of_cons; split; [discriminate |]).
       apply not_elem_of_app_cons; [exact Hhost | discriminate |].
       apply not_elem_of_app_cons; [exact Hservice | discriminate | exact Hscope]. }
  cbn [list_ascii_of_string app].
  set (buf := "t"%char :: "c"%char :: "p"%char :: "6"%char :: _).
  set (hs := host ++ ":"%char :: service).
  assert (Hhs : length hs = (length host + 1 + length service)%nat).
  { subst hs. rewrite length_app. cbn [length]. lia. }
  assert (F1 : starts_with ["t"; "c"; "p"]%char buf = true) by reflexivity.
  assert (F2 : strstr buf ["/"; "/"]%char = Some 5%nat) by reflexivity.
  assert (F3 : drop 7 buf = host ++ ":"%char :: service ++ "?"%char :: scope)
    by reflexivity.
  assert (F3' : drop 7 buf = hs ++ "?"%char :: scope).
  { rewrite F3. subst hs. rewrite <- app_assoc. reflexivity. }
  assert (F4 : char_at buf 3 = "6"%char) by reflexivity.
  assert (F5 : poke (poke buf (7 + length hs + 1 - 1)) (7 + length host + 1 - 1)
               = list_ascii_of_string "tcp6://" ++ host ++ NUL :: service
                   ++ NUL :: scope).
  { replace (7 + length hs + 1 - 1)%nat with (7 + length hs)%nat by lia.
    replace (7 + length host + 1 - 1)%nat with (7 + length host)%nat by lia.
    assert (Hbuf : buf = list_ascii_of_string "tcp6://" ++ hs ++ "?"%char :: scope).
    { subst buf hs. rewrite <- app_assoc. reflexivity. }
    rewrite Hbuf.
    change 7%nat with (length (list_ascii_of_string "tcp6://")).
    rewrite poke_app, poke_at. subst hs. rewrite <- app_assoc. cbn [app].
    rewrite poke_app, poke_at. reflexivity. }
  clearbody buf.
  rewrite F1, F2. cbn [fmap option_fmap option_map mbind option_bind].
  change (5 + 2)%nat with 7%nat.
  rewrite F3 at 1.
  rewrite (strrchr_last host (service ++ "?"%char :: scope) ":").
  2: { apply not_elem_of_app_cons; [exact Hcolon1 | discriminate | exact Hcolon2]. }
  cbn [fmap option_fmap option_map mbind option_bind].
  rewrite F4. change (Ascii.eqb "6" "6") with true. cbv iota.
  rewrite F3', (strrchr_last hs scope "?" Hmark).
  cbn [fmap option_fmap option_map mbind option_bind].
  rewrite F5. clear F1 F2 F3 F3' F4 F5 buf.
  set (pre := list_ascii_of_string "tcp6://").
  change 7%nat with (length pre).
  replace (drop (length pre + length hs + 1)
             (pre ++ host ++ NUL :: service ++ NUL :: scope)) with scope.
  2: { symmetry. rewrite Hhs.
       replace (length host + 1 + length service)%nat
         with (length (host ++ NUL :: service))
         by (rewrite length_app; cbn [length]; lia).
       replace (pre ++ host ++ NUL :: service ++ NUL :: scope)
         with (pre ++ (host ++ NUL :: service) ++ NUL :: scope)
         by (rewrite <- (app_assoc host); reflexivity).
       apply drop_past_prefix. }
  rewrite (drop_past_prefix pre host (service ++ NUL :: scope) NUL).
  rewrite (drop_app_length pre).
  rewrite (cstring_id scope Hscope), (cstring_cut service scope Hservice),
    (cstring_cut host _ Hhost), Hn.
  cbn [mbind option_bind].
  destruct (reverse_tcp6 _ _ _ _ _) as [[[result s] calls] |]; reflexivity.
Qed.

Lemma configure_tcp_connection_tcp6_url_witness :
  configure_tcp_connection Scenario.network Scenario.quiet_transport
    (list_ascii_of_string "tcp6://::1:4444?7") ctx_zero 0
  = '(result, s, calls) ←
      reverse_tcp6
        (cw_tcp6 Scenario.network (list_ascii_of_string "::1")
           (list_ascii_of_string "4444") 7)
        5 1 4600 0;
    secure Scenario.network (result, set_fd ctx_zero s, calls).
Proof.
  apply (configure_tcp_connection_tcp6_url Scenario.network
           Scenario.quiet_transport (list_ascii_of_string "::1")
           (list_ascii_of_string "4444") (list_ascii_of_string "7")
           ctx_zero 0 7).
  - cbn [list_ascii_of_string].
    repeat (apply not_elem_of_cons; split; [discriminate |]).
    apply not_elem_of_nil.
  - cbn [list_ascii_of_string].
    repeat (apply not_elem_of_cons; split; [discriminate |]).
    apply not_elem_of_nil.
  - cbn [list_ascii_of_string].
    repeat (apply not_elem_of_cons; split; [discriminate |]).
    apply not_elem_of_nil.
  - cbn [list_ascii_of_string].
    repeat (apply not_elem_of_cons; split; [discriminate |]).
    apply not_elem_of_nil.
  - cbn [list_ascii_of_string].
    repeat (apply not_elem_of_cons; split; [discriminate |]).
    apply not_elem_of_nil.
  - cbn [list_ascii_of_string].
    repeat (apply not_elem_of_cons; split; [discriminate |]).
    apply not_elem_of_nil.
  - reflexivity.
Defined.

(** ** The stream handed over by the stage, and the reconnect *)

Lemma infer_staged_connection_type_stream (os : os_sockets) (listenSocket0 : Z)
    (c c' : TcpTransportContext) (sock : Z) (calls : list call) :
  0 <= sock < 2 ^ 32 ->
  infer_staged_connection_type os listenSocket0 c sock = (c', calls) ->
  fd c' = sock /\ CloseSocket sock ∉ calls.
Proof.
  intros Hsock.
  unfold infer_staged_connection_type, set_bound, set_fd, store_name.
  cbn [fd meth ctx ssl bound sock_desc sock_desc_size].
  destruct (getsockname os sock) as [[local size] |];
    cbn [fd meth ctx ssl bound sock_desc sock_desc_size].
  all: match goal with
       | |- context [probe_scan ?o ?d ?s 1 16 ?l] =>
           destruct (probe_scan o d s 1 16 l) as [b ls] eqn:Hscan;
           destruct (probe_scan_spec _ _ _ _ _ _ _ _ Hscan) as (Hfound & _)
       end.
  all: cbn [fd meth ctx ssl bound sock_desc sock_desc_size]; destruct b.
  all: try (destruct (Hfound eq_refl) as (i & Hi & -> & _)).
  all: repeat match goal with
         | |- context [match ?x with Some _ => _ | None => _ end] => destruct x as [[? ?] |]
         end.
  all: intros [= <- <-]; cbn [fd]; (split; [reflexivity |]).
  all: try apply not_elem_of_nil.
  all: intros Hin; apply elem_of_cons in Hin as [Hin | Hin];
    [| exact (proj1 (elem_of_nil _) Hin)];
    injection Hin as Hin; symmetry in Hin; revert Hin;
    apply sibling_is_not_self; [exact Hsock | lia].
Qed.

(** What [server_negotiate_ssl] leaves in the trace: the request, when it
    succeeds, and never a [closesocket]. *)
Lemma server_negotiate_ssl_trace (w : tls_world) (ok : bool)
    (written : list call) :
  server_negotiate_ssl w = Some (ok, written) ->
  (ok = true -> written = [SslWrite cover_request]) /\
  (forall s, CloseSocket s ∉ written).
Proof.
  unfold server_negotiate_ssl.
  destruct (tw_set_fd w =? 0).
  { cbn. intros [= <- <-]. split; [discriminate |]. intros s.
    apply not_elem_of_nil. }
  destruct (ssl_connect_loop (tw_connects w)) as [[success ret] |];
    cbn [mbind option_bind]; [| discriminate].
  destruct success; cbn [negb mbind option_bind].
  - rewrite DWORD_never_negative. intros [= <- <-].
    split; [reflexivity |]. intros s. no_close_in_calls.
  - destruct (ret <? 0); intros [= <- <-]; (split; [discriminate |]);
      intros s; apply not_elem_of_nil.
Qed.

(** X22: when the url is not a [tcp] url and the context holds no address
    yet, the stream [sock] handed over by the stage becomes the stream of
    the context, whatever the prober finds and whether or not the TLS
    session comes up, and it is not closed; from then on
    [transport_get_socket_tcp] returns [sock] for a transport of the SSL
    kind with this context.  When the configuration succeeds, the context
    holds the handles of the TLS library and the last thing done was to
    write the request on the session. *)
Theorem configure_tcp_connection_from_stage (w : configure_world)
    (transport : Transport) (asciiUrl : list ascii)
    (c c' : TcpTransportContext) (sock : Z) (ok : bool) (calls : list call) :
  starts_with (list_ascii_of_string "tcp") (cstring asciiUrl) = false ->
  sock_desc_size c <= 0 -> 0 <= sock < 2 ^ 32 ->
  configure_tcp_connection w transport asciiUrl c sock = Some (ok, c', calls) ->
  fd c' = sock /\ (CloseSocket sock ∉ calls) /\
  (ok = true ->
   (meth c', ctx c', ssl c') = cw_handles w /\
   exists closed, calls = closed ++ [SslWrite cover_request]) /\
  (forall h : gmap nat TcpTransportContext,
     type transport = METERPRETER_TRANSPORT_SSL ->
     transport_get_socket_tcp (<[tctx transport := c']> h) (Some transport)
     = Some sock).
Proof.
  intros Hurl Hsize Hsock. unfold configure_tcp_connection, establish.
  rewrite Hurl. destruct (Z.gtb_spec (sock_desc_size c) 0) as [? | _]; [lia |].
  destruct (infer_staged_connection_type _ _ c sock) as [c1 closed] eqn:Hinfer.
  destruct (infer_staged_connection_type_stream _ _ _ _ _ _ Hsock Hinfer)
    as (Hfd & Hclosed).
  cbn [mbind option_bind]. unfold secure.
  change (negb (ERROR_SUCCESS =? ERROR_SUCCESS)) with false. cbv iota.
  destruct (server_socket_flush (cw_flush w)) as [flushed |];
    cbn [mbind option_bind]; [| discriminate].
  intros Hrun.
  assert (Hmain : fd c' = sock /\ (CloseSocket sock ∉ calls) /\
            (ok = true ->
             (meth c', ctx c', ssl c') = cw_handles w /\
             exists closed', calls = closed' ++ [SslWrite cover_request])).
  { revert Hrun. destruct (cw_ssl_locks w); cbn [negb].
    2: { intros [= <- <- <-]. split; [exact Hfd |]. split; [exact Hclosed |].
         discriminate. }
    destruct (cw_handles w) as [[m x] s]. cbn [fd].
    destruct (server_negotiate_ssl (cw_tls w (fd c1))) as [[success written] |]
      eqn:Htls; cbn [mbind option_bind]; [| discriminate].
    destruct (server_negotiate_ssl_trace _ _ _ Htls) as (Hwritten & Hnever).
    intros [= <- <- <-]. cbn [fd meth ctx ssl].
    split; [exact Hfd |]. split.
    - intros Hin. apply elem_of_app in Hin as [Hin | Hin];
        [exact (Hclosed Hin) | exact (Hnever _ Hin)].
    - intros Hok. split; [reflexivity |]. exists closed.
      rewrite (Hwritten Hok). reflexivity. }
  destruct Hmain as (Hfd' & Hclosed' & Hok). split; [exact Hfd' |].
  split; [exact Hclosed' |]. split; [exact Hok |].
  intros h Htype. unfold transport_get_socket_tcp.
  case_decide; [| contradiction]. rewrite lookup_insert_eq. cbn.
  rewrite Hfd'. reflexivity.
Qed.

Lemma configure_tcp_connection_from_stage_witness :
  match configure_tcp_connection Scenario.network Scenario.quiet_transport
          (list_ascii_of_string "") ctx_zero 400 with
  | Some (ok, c', calls) =>
      ok = true /\ fd c' = 400 /\ (CloseSocket 400 ∉ calls) /\
      transport_get_socket_tcp (<[0%nat := c']> Scenario.live_heap)
        (Some Scenario.quiet_transport) = Some 400
  | None => False
  end.
Proof.
  destruct (configure_tcp_connection _ _ _ _ _) as [[[ok c'] calls] |] eqn:E;
    [| discriminate E].
  assert (Hok : ok = true).
  { vm_compute in E. injection E as <- _ _. reflexivity. }
  split; [exact Hok |].
  destruct (configure_tcp_connection_from_stage Scenario.network
              Scenario.quiet_transport (list_ascii_of_string "") ctx_zero c'
              400 ok calls) as (Hfd & Hclosed & _ & Hget).
  - reflexivity.
  - cbn. lia.
  - lia.
  - exact E.
  - split; [exact Hfd |]. split; [exact Hclosed |].
    apply (Hget Scenario.live_heap). reflexivity.
Defined.

(** X23: a reconnect to the address recorded for a reverse connection
    that fails leaves no stream in the context.  The url is not a [tcp]
    url, the context holds an address and is not bound, and
    [reverse_tcp_run] on a new socket of that family returns a failure:
    the configuration returns [FALSE], the stream of the context is 0 and
    the address recorded is kept; nothing is written on a TLS session; and
    when the failure is [SOCKET_ERROR] the new socket has been closed, as
    the last call.  When instead it returns [ERROR_SUCCESS], the new socket
    is the stream of the context on which the session is brought up. *)
Theorem configure_tcp_connection_reconnect (w : configure_world)
    (transport : Transport) (asciiUrl : list ascii) (c : TcpTransportContext)
    (sock result : Z) (calls : list call) :
  starts_with (list_ascii_of_string "tcp") (cstring asciiUrl) = false ->
  0 < sock_desc_size c -> bound c = false ->
  let s := cw_socket w (ss_family (sock_desc c)) in
  reverse_tcp_run s
    (DWORD (retry_total (timeouts transport)))
    (DWORD (retry_wait (timeouts transport)))
    (expiration_end transport) (cw_start w) (cw_script w)
  = Some (result, calls) ->
  (result <> ERROR_SUCCESS ->
   configure_tcp_connection w transport asciiUrl c sock
   = Some (false, set_fd c 0, calls) /\
   (forall bytes, SslWrite bytes ∉ calls) /\
   (result = DWORD SOCKET_ERROR ->
    exists before, calls = before ++ [CloseSocket s] /\
                   forall s', CloseSocket s' ∉ before)) /\
  (result = ERROR_SUCCESS ->
   configure_tcp_connection w transport asciiUrl c sock
   = secure w (ERROR_SUCCESS, set_fd c s, calls)).
Proof.
  intros Hurl Hsize Hbound s Hrun.
  unfold configure_tcp_connection, establish. rewrite Hurl, Hbound.
  destruct (Z.gtb_spec (sock_desc_size c) 0) as [_ | ?]; [| lia].
  cbn [fd set_fd sock_desc ss_family]. fold s. rewrite Hrun.
  cbn [mbind option_bind].
  assert (Hnever : forall bytes, SslWrite bytes ∉ calls).
  { revert Hrun. unfold reverse_tcp_run.
    destruct (reverse_tcp_loop _ _ _ _ _ _) as [[r cs] |] eqn:Hloop;
      cbn [mbind option_bind]; [| discriminate].
    assert (Hcs : forall bytes, SslWrite bytes ∉ cs).
    { clear - Hloop. revert r cs Hloop.
      induction (cw_script w) as [| a script IH]; intros r cs;
        cbn [reverse_tcp_loop]; [discriminate |].
      destruct (negb _).
      { intros [= <- <-] bytes. no_close_in_calls. }
      destruct (_ >=? _).
      { intros [= <- <-] bytes. no_close_in_calls. }
      destruct (_ <? _).
      - destruct (reverse_tcp_loop _ _ _ _ _ script) as [[r' cs'] |];
          [| discriminate].
        cbn [mbind option_bind]. intros [= <- <-] bytes.
        specialize (IH r' cs' eq_refl bytes). no_close_in_calls.
      - intros [= <- <-] bytes. no_close_in_calls. }
    destruct (r =? DWORD SOCKET_ERROR); intros [= <- <-] bytes; [| apply Hcs].
    intros Hin. apply elem_of_app in Hin as [Hin | Hin];
      [exact (Hcs _ Hin) |]. revert Hin. no_close_in_calls. }
  split.
  - intros Hfail. destruct (Z.eqb_spec result ERROR_SUCCESS); [contradiction |].
    cbn [negb mbind option_bind]. unfold secure.
    destruct (Z.eqb_spec result ERROR_SUCCESS); [contradiction |].
    cbn [negb]. split; [reflexivity |]. split; [exact Hnever |].
    intros Herror. revert Hrun. unfold reverse_tcp_run.
    destruct (reverse_tcp_loop _ _ _ _ _ _) as [[r cs] |] eqn:Hloop;
      cbn [mbind option_bind]; [| discriminate].
    pose proof (reverse_tcp_loop_never_closes _ _ _ _ _ _ _ _ Hloop) as Hcs.
    destruct (Z.eqb_spec r (DWORD SOCKET_ERROR)); intros [= <- <-];
      [| contradiction].
    exists cs. split; [reflexivity | exact Hcs].
  - intros ->. reflexivity.
Qed.

Lemma configure_tcp_connection_reconnect_witness :
  configure_tcp_connection Scenario.network Scenario.quiet_transport
    (list_ascii_of_string "")
    (mk_ctx 400 Scenario.peer4 16 false 0 0 0) 0
  = Some (false, mk_ctx 0 Scenario.peer4 16 false 0 0 0,
          [Connect 55; CloseSocket 55]).
Proof.
  destruct (configure_tcp_connection_reconnect Scenario.network
              Scenario.quiet_transport (list_ascii_of_string "")
              (mk_ctx 400 Scenario.peer4 16 false 0 0 0) 0
              (DWORD SOCKET_ERROR) [Connect 55; CloseSocket 55])
    as (Hfail & _).
  - reflexivity.
  - cbn. lia.
  - reflexivity.
  - reflexivity.
  - destruct Hfail as (Hrun & _); [discriminate |]. exact Hrun.
Defined.

(** ** A url whose establishment fails *)

Lemma reverse_tcp4_buffer (w : tcp4_world) (retryTotal retryWait expiry : Z)
    (socketBuffer result s : Z) (calls : list call) :
  reverse_tcp4 w retryTotal retryWait expiry socketBuffer
  = Some (result, s, calls) ->
  result <> ERROR_SUCCESS -> s = 0.
Proof.
  unfold reverse_tcp4. destruct (negb _); [intros [= <- <- <-]; reflexivity |].
  destruct (negb (w4_resolved w)); [discriminate |].
  destruct (reverse_tcp_run _ _ _ _ _ _) as [[r cs] |];
    cbn [mbind option_bind]; [| discriminate].
  destruct (Z.eqb_spec r ERROR_SUCCESS); intros [= <- <- <-];
    [contradiction | reflexivity].
Qed.

Lemma reverse_tcp6_buffer (w : tcp6_world) (retryTotal retryWait expiry : Z)
    (socketBuffer result s : Z) (calls : list call) :
  reverse_tcp6 w retryTotal retryWait expiry socketBuffer
  = Some (result, s, calls) ->
  result <> ERROR_SUCCESS -> s = 0.
Proof.
  unfold reverse_tcp6. destruct (negb _); [intros [= <- <- <-]; reflexivity |].
  destruct (negb _); [intros [= <- <- <-]; reflexivity |].
  destruct (_ =? INVALID_SOCKET); [intros [= <- <- <-]; reflexivity |].
  destruct (reverse_tcp6_loop _ _ _ _ _ _ _) as [[cs | [r cs]] |];
    intros [= <- <- <-]; [contradiction | reflexivity].
Qed.

Lemma bind_tcp_buffer (w : bind_world) (socketBuffer result s : Z)
    (calls : list call) :
  bind_tcp w socketBuffer = (result, s, calls) ->
  result <> ERROR_SUCCESS -> s = 0.
Proof.
  unfold bind_tcp, bind_tcp_run.
  destruct (negb _); [intros [= <- <- <-]; reflexivity |].
  destruct (wb_socket6 w =? INVALID_SOCKET);
    [| destruct (wb_setsockopt w =? SOCKET_ERROR)].
  all: destruct (wb_bind w =? SOCKET_ERROR);
    [intros [= <- <- <-]; reflexivity |].
  all: destruct (wb_listen w =? SOCKET_ERROR);
    [intros [= <- <- <-]; reflexivity |].
  all: destruct (wb_accept w =? INVALID_SOCKET); intros [= <- <- <-];
    [reflexivity | contradiction].
Qed.

(** X24: whatever a [tcp] url looks like, the establishment it leads to
    changes nothing in the context but the stream, and when it fails the
    stream of the context is 0 and the configuration returns [FALSE] at
    once, with the calls of the establishment and no other. *)
Theorem configure_tcp_connection_url_failure (w : configure_world)
    (transport : Transport) (asciiUrl : list ascii)
    (c c1 : TcpTransportContext) (sock result : Z) (calls : list call) :
  starts_with (list_ascii_of_string "tcp") (cstring asciiUrl) = true ->
  establish w transport asciiUrl c sock = Some (result, c1, calls) ->
  c1 = set_fd c (fd c1) /\
  (result <> ERROR_SUCCESS ->
   fd c1 = 0 /\
   configure_tcp_connection w transport asciiUrl c sock
   = Some (false, c1, calls)).
Proof.
  intros Hurl Hrun. unfold configure_tcp_connection. rewrite Hrun.
  cbn [mbind option_bind].
  assert (Hfail : result <> ERROR_SUCCESS ->
                  secure w (result, c1, calls) = Some (false, c1, calls)).
  { intros Hr. unfold secure.
    destruct (Z.eqb_spec result ERROR_SUCCESS); [contradiction | reflexivity]. }
  revert Hrun. unfold establish. rewrite Hurl.
  destruct (strstr _ _) as [i |]; cbn [fmap option_fmap option_map mbind option_bind];
    [| discriminate].
  destruct (strrchr _ ":") as [j |];
    cbn [fmap option_fmap option_map mbind option_bind]; [| discriminate].
  destruct (Ascii.eqb (char_at _ 3) "6").
  - destruct (strrchr _ "?") as [k |];
      cbn [fmap option_fmap option_map mbind option_bind]; [| discriminate].
    destruct (atol _) as [scopeId |]; cbn [mbind option_bind]; [| discriminate].
    destruct (reverse_tcp6 _ _ _ _ _) as [[[r s] cs] |] eqn:Hcallee;
      cbn [mbind option_bind]; [| discriminate].
    intros [= <- <- <-]. split; [reflexivity |]. intros Hr.
    pose proof (reverse_tcp6_buffer _ _ _ _ _ _ _ _ Hcallee Hr) as ->.
    split; [reflexivity | exact (Hfail Hr)].
  - destruct (atoi _) as [port |]; cbn [mbind option_bind]; [| discriminate].
    destruct (Ascii.eqb (char_at _ _) ":").
    + destruct (bind_tcp _ _) as [[r s] cs] eqn:Hcallee.
      intros [= <- <- <-]. split; [reflexivity |]. intros Hr.
      pose proof (bind_tcp_buffer _ _ _ _ _ Hcallee Hr) as ->.
      split; [reflexivity | exact (Hfail Hr)].
    + destruct (reverse_tcp4 _ _ _ _ _) as [[[r s] cs] |] eqn:Hcallee;
        cbn [mbind option_bind]; [| discriminate].
      intros [= <- <- <-]. split; [reflexivity |]. intros Hr.
      pose proof (reverse_tcp4_buffer _ _ _ _ _ _ _ _ Hcallee Hr) as ->.
      split; [reflexivity | exact (Hfail Hr)].
Qed.

Lemma configure_tcp_connection_url_failure_witness :
  configure_tcp_connection Scenario.network Scenario.quiet_transport
    (list_ascii_of_string "tcp://10.0.0.5:4444")
    (mk_ctx 400 Scenario.peer4 16 false 0 0 0) 0
  = Some (false, mk_ctx 0 Scenario.peer4 16 false 0 0 0,
          [Connect 88; Sleep 1000; CloseSocket 88]).
Proof.
  destruct (configure_tcp_connection_url_failure Scenario.network
              Scenario.quiet_transport
              (list_ascii_of_string "tcp://10.0.0.5:4444")
              (mk_ctx 400 Scenario.peer4 16 false 0 0 0)
              (mk_ctx 0 Scenario.peer4 16 false 0 0 0) 0
              (DWORD SOCKET_ERROR) [Connect 88; Sleep 1000; CloseSocket 88])
    as (_ & Hfail).
  - reflexivity.
  - reflexivity.
  - destruct Hfail as (_ & Hrun); [discriminate |]. exact Hrun.
Defined.
